(** * NPS signal finder: a shallow embedding of the analysis core

    The development follows the Python sources of the repository:
    - [query_parser.py]                 (module [QueryParser])
    - [analyzers/simple_filter.py]      (module [SimpleFilterAnalyzer])
    - [analyzers/senior_gap.py]         (module [SeniorGapAnalyzer])
    - [analyzers/period_comparison.py]  (module [PeriodComparisonAnalyzer])

    Modelling conventions.
    - A float is an exact rational ([Q]); [round(x, n)] and [Series.round(n)]
      round to the nearest multiple of [10^-n], ties to even.  Binary
      floating-point error is outside the model.
    - A cell of the score column is [option Z]: [None] is the NaN that
      [pd.to_numeric(..., errors='coerce')] leaves for an unusable score.
    - A cell of the date column is [option Date]: [None] is NaT.
    - A [str] is a [string] holding the UTF-8 bytes of the text.
    - A DataFrame is the list of its rows, in index order. *)

From Stdlib Require Import ZArith QArith Qround Qabs List String Ascii Bool Lia Lqa.
Import ListNotations.

Set Implicit Arguments.

Local Open Scope Z_scope.

(** ** Numbers *)

Module Num.

(** Nearest integer, ties to even: what [round] does once the value is scaled. *)
Definition round_half_even (q : Q) : Z :=
  let f := Qfloor q in
  match Qcompare (q - inject_Z f) (1 # 2) with
  | Lt => f
  | Gt => f + 1
  | Eq => if Z.even f then f else f + 1
  end.

(** [round(q, n)] for [n >= 0]. *)
Definition round_ndigits (q : Q) (n : nat) : Q :=
  Qmake (round_half_even (q * inject_Z (10 ^ Z.of_nat n))) (Z.to_pos (10 ^ Z.of_nat n)).

(** [Series.mean()] of a non-empty series; pandas yields NaN on an empty one,
    which every caller below excludes with [len(...) > 0]. *)
Definition mean (l : list Q) : Q :=
  fold_right Qplus 0%Q l / inject_Z (Z.of_nat (List.length l)).

(** [(mask).sum()]: how many cells satisfy the mask. *)
Definition count_if {A : Type} (p : A -> bool) (l : list A) : Z :=
  Z.of_nat (List.length (filter p l)).

End Num.

(** ** Exceptions *)

(** A call either returns a value or raises the named exception. *)
Inductive Outcome (A : Type) : Type :=
| Returns (a : A)
| Raises (exc : string).

Arguments Returns {A} a.
Arguments Raises {A} exc.

Definition bind {A B : Type} (c : Outcome A) (k : A -> Outcome B) : Outcome B :=
  match c with
  | Returns a => k a
  | Raises e => Raises e
  end.

Notation "x <- c1 ;; c2" := (bind c1 (fun x => c2))
  (at level 61, c1 at next level, right associativity).

(** Python truthiness of an optional [str]: [None] and [''] are falsy. *)
Definition truthy (s : option string) : bool :=
  match s with
  | Some t => negb (String.eqb t "")
  | None => false
  end.

(** ** Text: digits, [int()], format specs *)

Module Text.

Definition code (c : ascii) : Z := Z.of_N (N_of_ascii c).

(** [\d], on the ASCII digits.  Python's [\d] also accepts the other Unicode
    decimal digits; questions holding those are outside the model. *)
Definition is_digit (c : ascii) : bool := (48 <=? code c) && (code c <=? 57).

(** [\s], on the ASCII range: tab, LF, VT, FF, CR, the separators 0x1c-0x1f
    and the space.  Non-ASCII whitespace is outside the model. *)
Definition is_space (c : ascii) : bool :=
  ((9 <=? code c) && (code c <=? 13)) || ((28 <=? code c) && (code c <=? 32)).

Fixpoint int_acc (acc : Z) (s : string) : option Z :=
  match s with
  | EmptyString => Some acc
  | String c t => if is_digit c then int_acc (10 * acc + (code c - 48)) t else None
  end.

(** [int(s)] on a run of ASCII digits, which is what the groups of the
    patterns below capture; any other text raises [ValueError] here.  Python's
    cap on the length of a converted numeral is not modelled. *)
Definition int (s : string) : Outcome Z :=
  match s with
  | EmptyString => Raises "ValueError"
  | _ => match int_acc 0 s with
         | Some z => Returns z
         | None => Raises "ValueError"
         end
  end.

Fixpoint digits_of_pos (fuel : nat) (z : Z) (acc : string) : string :=
  match fuel with
  | O => acc
  | S fuel' =>
      let acc' := String (ascii_of_N (Z.to_N (48 + z mod 10))) acc in
      if z <? 10 then acc' else digits_of_pos fuel' (z / 10) acc'
  end.

(** [f'{z}'] for an [int]. *)
Definition str (z : Z) : string :=
  if z <? 0
  then String "-" (digits_of_pos (S (Z.to_nat (Z.log2 (- z)))) (- z) EmptyString)
  else digits_of_pos (S (Z.to_nat (Z.log2 z))) z EmptyString.

(** [f'{z:02d}']: zero-padded to two columns, the sign counting as one. *)
Definition fmt_02d (z : Z) : string :=
  if (0 <=? z) && (z <? 10) then String "0" (str z) else str z.

End Text.

(** ** The [calendar] module *)

Module Calendar.

Definition isleap (y : Z) : bool :=
  (y mod 4 =? 0) && (negb (y mod 100 =? 0) || (y mod 400 =? 0)).

Definition mdays (m : Z) : Z :=
  match m with
  | 1 => 31 | 2 => 28 | 3 => 31 | 4 => 30 | 5 => 31 | 6 => 30
  | 7 => 31 | 8 => 31 | 9 => 30 | 10 => 31 | 11 => 30 | 12 => 31
  | _ => 0
  end.

(** [calendar.monthrange(year, month)[1]]; a month outside 1..12 raises. *)
Definition monthrange_ndays (y m : Z) : Outcome Z :=
  if (1 <=? m) && (m <=? 12)
  then Returns (mdays m + (if (m =? 2) && isleap y then 1 else 0))
  else Raises "IllegalMonthError".

End Calendar.

(** A calendar day: a cell of 처리일 after [pd.to_datetime(..., format='%Y%m%d')],
    or a [pd.Timestamp] built from a date string (always midnight). *)
Record Date : Type := mkDate { year : Z; month : Z; day : Z }.

Definition date_ltb (a b : Date) : bool :=
  (year a <? year b)
  || ((year a =? year b)
      && ((month a <? month b) || ((month a =? month b) && (day a <? day b)))).

Definition date_leb (a b : Date) : bool := negb (date_ltb b a).

(** [d + pd.Timedelta(days=1)]. *)
Definition add_one_day (d : Date) : Date :=
  let ndays := Calendar.mdays (month d)
               + (if (month d =? 2) && Calendar.isleap (year d) then 1 else 0) in
  if day d <? ndays then mkDate (year d) (month d) (day d + 1)
  else if month d <? 12 then mkDate (year d) (month d + 1) 1
  else mkDate (year d + 1) 1 1.

(** ** Regular expressions, as [re.search] runs the patterns of the parser *)

Module Re.

Inductive cls : Type := Digit | NonDigit | Space.

Definition in_cls (k : cls) (c : ascii) : bool :=
  match k with
  | Digit => Text.is_digit c
  | NonDigit => negb (Text.is_digit c)
  | Space => Text.is_space c
  end.

(** The fragment the parser's patterns need.  A repetition ranges over one
    character class and is greedy; groups are capturing and never nested. *)
Inductive regex : Type :=
| Lit (s : string)
| Rep (k : cls) (lo : nat) (hi : option nat)
| Opt (r : regex)
| Alt (r1 r2 : regex)
| Group (r : regex)
| Seq (r1 r2 : regex).

Fixpoint alts (ls : list string) : regex :=
  match ls with
  | [] => Lit EmptyString
  | [l] => Lit l
  | l :: ls' => Alt (Lit l) (alts ls')
  end.

Fixpoint cat (rs : list regex) : regex :=
  match rs with
  | [] => Lit EmptyString
  | [r] => r
  | r :: rs' => Seq r (cat rs')
  end.

Fixpoint strip_prefix (p : list ascii) (s : list ascii) : option (list ascii) :=
  match p, s with
  | [], _ => Some s
  | a :: p', b :: s' => if Ascii.eqb a b then strip_prefix p' s' else None
  | _ :: _, [] => None
  end.

(** Length of the longest prefix of [s] inside the class, capped by [hi]. *)
Fixpoint span (k : cls) (hi : option nat) (s : list ascii) : nat :=
  match hi, s with
  | Some O, _ => O
  | _, [] => O
  | _, c :: s' =>
      if in_cls k c then S (span k (option_map Nat.pred hi) s') else O
  end.

Section Matcher.
Variable R : Type.

(** Greedy backtracking: the longest repetition first, then one fewer, down to [lo]. *)
Fixpoint give_back (n : nat) (lo : nat) (s : list ascii) (k : list ascii -> option R) : option R :=
  match k (skipn n s) with
  | Some x => Some x
  | None =>
      match n with
      | O => None
      | S n' => if (lo <=? n')%nat then give_back n' lo s k else None
      end
  end.

Fixpoint rmatch (r : regex) (s : list ascii) (caps : list string)
         (k : list ascii -> list string -> option R) : option R :=
  match r with
  | Lit l =>
      match strip_prefix (list_ascii_of_string l) s with
      | Some rest => k rest caps
      | None => None
      end
  | Rep c lo hi =>
      let n := span c hi s in
      if (lo <=? n)%nat then give_back n lo s (fun rest => k rest caps) else None
  | Opt r' =>
      match rmatch r' s caps k with
      | Some x => Some x
      | None => k s caps
      end
  | Alt r1 r2 =>
      match rmatch r1 s caps k with
      | Some x => Some x
      | None => rmatch r2 s caps k
      end
  | Group r' =>
      rmatch r' s caps
        (fun rest caps' =>
           k rest (caps' ++ [string_of_list_ascii
                               (firstn (List.length s - List.length rest) s)]))
  | Seq r1 r2 =>
      rmatch r1 s caps (fun rest caps' => rmatch r2 rest caps' k)
  end.

End Matcher.

(** The match object, reduced to its groups: [m.group(i)] is [group m i]. *)
Definition Match := list string.

Definition group (m : Match) (i : nat) : string := nth (Nat.pred i) m EmptyString.

Fixpoint search_from (r : regex) (s : list ascii) : option Match :=
  match rmatch r s [] (fun _ caps => Some caps) with
  | Some m => Some m
  | None =>
      match s with
      | [] => None
      | _ :: s' => search_from r s'
      end
  end.

(** [re.search(r, text)]: the leftmost match, [None] when there is none. *)
Definition search (r : regex) (text : string) : option Match :=
  search_from r (list_ascii_of_string text).

Fixpoint contains_from (needle : list ascii) (hay : list ascii) : bool :=
  match strip_prefix needle hay with
  | Some _ => true
  | None =>
      match hay with
      | [] => false
      | _ :: hay' => contains_from needle hay'
      end
  end.

(** [needle in hay] for two [str]. *)
Definition contains (needle hay : string) : bool :=
  contains_from (list_ascii_of_string needle) (list_ascii_of_string hay).

(** [s.startswith(p)]. *)
Definition startswith (p s : string) : bool :=
  match strip_prefix (list_ascii_of_string p) (list_ascii_of_string s) with
  | Some _ => true
  | None => false
  end.

Fixpoint split_acc (sep : ascii) (cur : string) (s : string) : list string :=
  match s with
  | EmptyString => [cur]
  | String c t =>
      if Ascii.eqb c sep then cur :: split_acc sep EmptyString t
      else split_acc sep (cur ++ String c EmptyString)%string t
  end.

(** [s.split(sep)] for a one-character separator. *)
Definition split (sep : ascii) (s : string) : list string := split_acc sep EmptyString s.

End Re.

(** ** Survey rows *)

(** A cell of the column 추천지수 (recommendation score). *)
Definition Score := option Z.

(** [scores >= 9]: a NaN compares false. *)
Definition is_promoter (s : Score) : bool :=
  match s with Some v => 9 <=? v | None => false end.

(** [scores <= 6]: a NaN compares false. *)
Definition is_detractor (s : Score) : bool :=
  match s with Some v => v <=? 6 | None => false end.

(** [_calculate_nps], as [senior_gap.py] and [period_comparison.py] both
    spell it: the two methods have the same body. *)
Definition calculate_nps_body (scores : list Score) : Q :=
  let total := Z.of_nat (List.length scores) in
  if total =? 0 then 0%Q
  else
    let promoters := Num.count_if is_promoter scores in
    let detractors := Num.count_if is_detractor scores in
    let nps := ((inject_Z (promoters - detractors) / inject_Z total) * 100)%Q in
    Num.round_ndigits nps 2.

(** One survey response.  The columns, in the sheet's words: 처리일, 추천지수,
    담당자, 담당자ID, 대리점명, 매장명, 마케팅팀명, 시니어여부. *)
Record Row : Type := mkRow {
  r_date : option Date;
  r_score : Score;
  r_tcrew : string;
  r_tcrew_id : string;
  r_dealer : string;
  r_store : string;
  r_team : string;
  r_senior : string
}.

(** A DataFrame of survey responses: whether it has the column 처리일 at all
    (the cells [r_date] are read only when it has), and its rows in index order. *)
Record DataFrame : Type := mkDataFrame {
  has_date_column : bool;
  rows : list Row
}.

(** ** The pandas operations the analyzers use *)

Module Frame.

(** A group key: the tuple of the grouping columns' values. *)
Definition Key := list string.

Fixpoint key_eqb (a b : Key) : bool :=
  match a, b with
  | [], [] => true
  | x :: a', y :: b' => String.eqb x y && key_eqb a' b'
  | _, _ => false
  end.

(** Tuple order: column by column, each [str] by code point (which is the
    byte order of its UTF-8 text). *)
Fixpoint key_compare (a b : Key) : comparison :=
  match a, b with
  | [], [] => Eq
  | [], _ :: _ => Lt
  | _ :: _, [] => Gt
  | x :: a', y :: b' =>
      match String.compare x y with
      | Eq => key_compare a' b'
      | c => c
      end
  end.

Definition key_leb (a b : Key) : bool :=
  match key_compare a b with Gt => false | _ => true end.

Section Generic.
Variable A : Type.

Fixpoint insert_by (le : A -> A -> bool) (x : A) (l : list A) : list A :=
  match l with
  | [] => [x]
  | y :: t => if le x y then x :: l else y :: insert_by le x t
  end.

(** A stable sort: among rows that compare equal, index order is kept. *)
Definition sort_by (le : A -> A -> bool) (l : list A) : list A :=
  fold_right (insert_by le) [] l.

Fixpoint dedup_by (eqb : A -> A -> bool) (l : list A) : list A :=
  match l with
  | [] => []
  | x :: t => x :: filter (fun y => negb (eqb x y)) (dedup_by eqb t)
  end.

End Generic.

(** [df.groupby(columns)]: one group per distinct key, the groups in sorted
    key order ([sort=True]), each group holding its rows in index order. *)
Definition groupby (A : Type) (key : A -> Key) (l : list A) : list (Key * list A) :=
  map (fun k => (k, filter (fun r => key_eqb (key r) k) l))
      (sort_by key_leb (dedup_by key_eqb (map key l))).

(** A float cell: [None] is NaN. *)
Definition Cell := option Q.

(** [a < b], [a >= b], [a == b] on floats: false as soon as one side is NaN. *)
Definition cell_ltb (a : Cell) (b : Q) : bool :=
  match a with Some x => negb (Qle_bool b x) | None => false end.

Definition cell_geb (a : Cell) (b : Q) : bool :=
  match a with Some x => Qle_bool b x | None => false end.

Definition cell_eqb (a b : Cell) : bool :=
  match a, b with Some x, Some y => Qeq_bool x y | _, _ => false end.

(** Ascending order of a float column with [na_position='last']. *)
Definition cell_leb (a b : Cell) : bool :=
  match a, b with
  | Some x, Some y => Qle_bool x y
  | Some _, None => true
  | None, Some _ => false
  | None, None => true
  end.

(** [Series.min()] ([skipna=True]): the least number, NaN when there is none. *)
Fixpoint series_min (l : list Cell) : Cell :=
  match l with
  | [] => None
  | None :: t => series_min t
  | Some x :: t =>
      match series_min t with
      | Some m => if Qle_bool x m then Some x else Some m
      | None => Some x
      end
  end.

(** [ndarray.min()] and [ndarray.max()] of a non-empty array: NaN as soon as
    one element is. *)
Fixpoint array_min (l : list Cell) : Cell :=
  match l with
  | [] => None
  | [c] => c
  | c :: t =>
      match c, array_min t with
      | Some x, Some m => if Qle_bool x m then Some x else Some m
      | _, _ => None
      end
  end.

Fixpoint array_max (l : list Cell) : Cell :=
  match l with
  | [] => None
  | [c] => c
  | c :: t =>
      match c, array_max t with
      | Some x, Some m => if Qle_bool m x then Some x else Some m
      | _, _ => None
      end
  end.

End Frame.

(** ** The filter structure *)

(** The value stored under ['comparison_periods']: the two date ranges as the
    strings the parser formats, or the error marker. *)
Inductive ComparisonPeriods : Type :=
| Periods (period1_start period1_end period2_start period2_end
           period1_label period2_label : string)
| PeriodError (error period1_label period2_label : string).

(** The [filters] dict, one field per key the modelled code reads.
    - [team], [store_name], [nps_target], [nps_comparison], [senior_threshold],
      [trend], [comparison_periods]: [parse] stores a value or Python's [None]
      under each; the field is that stored value.
    - [analysis_type]: [parse] always stores a [str].
    - [min_responses], and the keys only the caller adds ([analysis_month],
      [dealer_name], [min_responses_period1], [min_responses_period2]):
      [None] is the absent key, which [filters.get(key, default)] replaces by
      [default] and [filters[key]] answers with [KeyError]. *)
Record FilterSpec : Type := mkFilterSpec {
  analysis_month : option string;
  team : option string;
  dealer_name : option string;
  store_name : option string;
  nps_target : option Z;
  nps_comparison : option string;
  senior_threshold : option string;
  min_responses : option Z;
  min_responses_period1 : option Z;
  min_responses_period2 : option Z;
  trend : option string;
  comparison_periods : option ComparisonPeriods;
  analysis_type : string
}.

(** ** [query_parser.py] *)

Module QueryParser.

Import Re.

(** The pattern "(\d+)월\s*대비\s*(\d+)월". *)
Definition pattern1 : regex :=
  cat [Group (Rep Digit 1 None); Lit "월"; Rep Space 0 None; Lit "대비";
       Rep Space 0 None; Group (Rep Digit 1 None); Lit "월"].

(** The pattern "(\d+)~(\d+)월\s*대비\s*(\d+)월". *)
Definition pattern2 : regex :=
  cat [Group (Rep Digit 1 None); Lit "~"; Group (Rep Digit 1 None); Lit "월";
       Rep Space 0 None; Lit "대비"; Rep Space 0 None;
       Group (Rep Digit 1 None); Lit "월"].

(** The pattern "(\d+)일\s*(?:누적\s* )?대비\s*(\d+)일" (the blank before the
    closing parenthesis is not part of it). *)
Definition pattern3 : regex :=
  cat [Group (Rep Digit 1 None); Lit "일"; Rep Space 0 None;
       Opt (Seq (Lit "누적") (Rep Space 0 None)); Lit "대비"; Rep Space 0 None;
       Group (Rep Digit 1 None); Lit "일"].

(** The pattern "(\d{4})년\s*(\d{1,2})월". *)
Definition year_month_pattern : regex :=
  cat [Group (Rep Digit 4 (Some 4%nat)); Lit "년"; Rep Space 0 None;
       Group (Rep Digit 1 (Some 2%nat)); Lit "월"].

Definition get_month_last_day (year month : Z) : Outcome Z :=
  Calendar.monthrange_ndays year month.

(** [f'{y}-{m:02d}-{d:02d}'] *)
Definition iso (y m d : Z) : string :=
  (Text.str y ++ "-" ++ Text.fmt_02d m ++ "-" ++ Text.fmt_02d d)%string.

Definition _extract_comparison_periods (question : string)
           (analysis_month : option string) : Outcome (option ComparisonPeriods) :=
  match search pattern1 question with
  | Some m1 =>
      base_month <- Text.int (group m1 1) ;;
      compare_month <- Text.int (group m1 2) ;;
      let base_year := 2025 in
      let compare_year := if compare_month <=? 3 then 2026 else 2025 in
      base_last_day <- get_month_last_day base_year base_month ;;
      compare_last_day <- get_month_last_day compare_year compare_month ;;
      Returns (Some (Periods
        (iso base_year base_month 1)
        (iso base_year base_month base_last_day)
        (iso compare_year compare_month 1)
        (iso compare_year compare_month compare_last_day)
        (Text.str base_month ++ "월")
        (Text.str compare_month ++ "월")))
  | None =>
  match search pattern2 question with
  | Some m2 =>
      start_month <- Text.int (group m2 1) ;;
      end_month <- Text.int (group m2 2) ;;
      compare_month <- Text.int (group m2 3) ;;
      let base_year := 2025 in
      let compare_year := if compare_month <=? 3 then 2026 else 2025 in
      end_last_day <- get_month_last_day base_year end_month ;;
      compare_last_day <- get_month_last_day compare_year compare_month ;;
      Returns (Some (Periods
        (iso base_year start_month 1)
        (iso base_year end_month end_last_day)
        (iso compare_year compare_month 1)
        (iso compare_year compare_month compare_last_day)
        (Text.str start_month ++ "~" ++ Text.str end_month ++ "월")
        (Text.str compare_month ++ "월")))
  | None =>
  match search pattern3 question with
  | Some m3 =>
      if truthy analysis_month then
        base_day <- Text.int (group m3 1) ;;
        compare_day <- Text.int (group m3 2) ;;
        match search year_month_pattern
                (match analysis_month with Some a => a | None => EmptyString end) with
        | Some ym =>
            year <- Text.int (group ym 1) ;;
            month <- Text.int (group ym 2) ;;
            last_day <- Calendar.monthrange_ndays year month ;;
            if (last_day <? base_day) || (last_day <? compare_day) then Returns None
            else Returns (Some (Periods
              (iso year month 1)
              (iso year month base_day)
              (iso year month 1)
              (iso year month compare_day)
              (Text.str month ++ "월 " ++ Text.str base_day ++ "일 누적")
              (Text.str month ++ "월 " ++ Text.str compare_day ++ "일 누적")))
        | None => Returns None
        end
      else
        Returns (Some (PeriodError "분석월을 선택해주세요" "오류" "오류"))
  | None => Returns None
  end end end.

(** The pattern "nps[^\d]*(\d+)%?[^\d]*(미만|이하|낮은|아래)". *)
Definition nps_below_pattern : regex :=
  cat [Lit "nps"; Rep NonDigit 0 None; Group (Rep Digit 1 None); Opt (Lit "%");
       Rep NonDigit 0 None; Group (alts ["미만"; "이하"; "낮은"; "아래"]%string)].

(** The pattern "nps[^\d]*(\d+)%?[^\d]*(이상|초과|넘는|넘은|높은|위)". *)
Definition nps_above_pattern : regex :=
  cat [Lit "nps"; Rep NonDigit 0 None; Group (Rep Digit 1 None); Opt (Lit "%");
       Rep NonDigit 0 None;
       Group (alts ["이상"; "초과"; "넘는"; "넘은"; "높은"; "위"]%string)].

(** [_extract_nps_target], on the lower-cased question [parse] hands it:
    the pair (target, comparison), or [None]. *)
Definition _extract_nps_target (question : string) : Outcome (option (Z * string)) :=
  if negb (contains "nps" question) then Returns None
  else
    match search nps_below_pattern question with
    | Some m => target <- Text.int (group m 1) ;; Returns (Some (target, "below"%string))
    | None =>
    match search nps_above_pattern question with
    | Some m => target <- Text.int (group m 1) ;; Returns (Some (target, "above"%string))
    | None =>
        if existsb (fun keyword => contains keyword question)
                   ["낮은"; "낮고"; "낮으면서"; "낮음"; "낮아"]%string
        then Returns (Some (87, "below"%string))
        else if existsb (fun keyword => contains keyword question)
                        ["높은"; "높고"; "높으면서"; "높음"; "높아"]%string
        then Returns (Some (87, "above"%string))
        else Returns None
    end end.

(** The [type_names] table of [get_filter_summary]. *)
Definition type_names (analysis_type : string) : Outcome string :=
  if String.eqb analysis_type "senior_gap" then Returns "시니어 GAP 분석"%string
  else if String.eqb analysis_type "period_comparison" then Returns "기간별 비교"%string
  else if String.eqb analysis_type "simple_filter" then Returns "단순 필터 분석"%string
  else if String.eqb analysis_type "store_analysis" then Returns "매장 분석"%string
  else if String.eqb analysis_type "general" then Returns "일반 분석"%string
  else Raises "KeyError".

(** Truthiness of an optional [int]: [None] and [0] are falsy. *)
Definition truthy_int (z : option Z) : bool :=
  match z with
  | Some v => negb (v =? 0)
  | None => false
  end.

Definition unwrap (s : option string) : string :=
  match s with Some t => t | None => EmptyString end.

(** [' | '.join(summary)] *)
Fixpoint join (sep : string) (parts : list string) : string :=
  match parts with
  | [] => EmptyString
  | [x] => x
  | x :: rest => (x ++ sep ++ join sep rest)%string
  end.

(** The entry [get_filter_summary] appends for the NPS target, when it
    appends one: the guard is [if filters.get('nps_target'):]. *)
Definition nps_target_entry (filters : FilterSpec) : list string :=
  if truthy_int (nps_target filters) then
    let comparison_text :=
      match nps_comparison filters with
      | Some c => if String.eqb c "below" then "미만"%string else "이상"%string
      | None => "이상"%string
      end in
    [("NPS 목표: " ++ Text.str (match nps_target filters with Some t => t | None => 0 end)
       ++ "% " ++ comparison_text)%string]
  else [].

Definition senior_threshold_entry (filters : FilterSpec) : list string :=
  if truthy (senior_threshold filters) then
    let st := unwrap (senior_threshold filters) in
    if String.eqb st "avg" then ["시니어 비중: 평균 이상"%string]
    else if String.eqb st "below_avg" then ["시니어 비중: 평균 이하"%string]
    else if startswith "custom:" st then
      [("시니어 비중: " ++ nth 1 (split ":" st) EmptyString ++ "% 이상")%string]
    else []
  else [].

(** [get_filter_summary(filters)].  The function reads [filters] and builds
    a fresh list and string; it assigns to no key of the dict. *)
Definition get_filter_summary (filters : FilterSpec) : Outcome string :=
  let s_month :=
    if truthy (analysis_month filters)
    then [("분석월: " ++ unwrap (analysis_month filters))%string] else [] in
  let s_team :=
    if truthy (team filters) then [("팀: " ++ unwrap (team filters))%string] else [] in
  let s_nps := nps_target_entry filters in
  let s_senior := senior_threshold_entry filters in
  s_min <- match min_responses filters with
           | None => Raises "KeyError"
           | Some v =>
               Returns (if v =? 0 then []
                        else [("최소 응답수: " ++ Text.str v ++ "건")%string])
           end ;;
  let s_store :=
    if truthy (store_name filters)
    then [("매장: " ++ unwrap (store_name filters))%string] else [] in
  s_type <- (if String.eqb (analysis_type filters) EmptyString then Returns []
             else name <- type_names (analysis_type filters) ;;
                  Returns [("분석 유형: " ++ name)%string]) ;;
  let summary := s_month ++ s_team ++ s_nps ++ s_senior ++ s_min ++ s_store ++ s_type in
  Returns (match summary with
           | [] => "조건 없음"%string
           | _ => join " | " summary
           end).

(** *** The other extractors, and [parse] *)

(** [str.lower()], on the ASCII letters.  Python also lowers the cased
    letters outside ASCII; questions holding those are outside the model. *)
Definition lower_char (c : ascii) : ascii :=
  if (65 <=? Text.code c) && (Text.code c <=? 90)
  then ascii_of_N (N_of_ascii c + 32) else c.

Fixpoint lower (s : string) : string :=
  match s with
  | EmptyString => EmptyString
  | String c t => String (lower_char c) (lower t)
  end.

(** The table [team_keywords], in insertion order. *)
Definition team_keywords : list (string * string) :=
  [("인천", "인천마케팅팀"); ("남부", "남부마케팅팀");
   ("강서", "강서마케팅팀"); ("수원", "수원마케팅팀")]%string.

Definition _extract_team (question : string) : option string :=
  option_map snd (find (fun kv => contains (fst kv) question) team_keywords).

(** The pattern "시니어[^\d]*비중[^\d]*(\d+)%?[^\d]*(이상|넘는)". *)
Definition senior_custom_pattern : regex :=
  cat [Lit "시니어"; Rep NonDigit 0 None; Lit "비중"; Rep NonDigit 0 None;
       Group (Rep Digit 1 None); Opt (Lit "%"); Rep NonDigit 0 None;
       Group (alts ["이상"; "넘는"]%string)].

Definition _extract_senior_threshold (question : string) : option string :=
  if negb (contains "시니어" question) then None
  else
    match search senior_custom_pattern question with
    | Some m => Some ("custom:" ++ group m 1)%string
    | None =>
        if existsb (fun keyword => contains keyword question)
                   ["비중이 높은"; "비중 높은"; "많은"; "높고"; "높으면서"]%string
        then Some "avg"%string
        else if existsb (fun keyword => contains keyword question)
                        ["비중이 낮은"; "비중 낮은"; "적은"; "낮으면서"]%string
        then Some "below_avg"%string
        else Some "avg"%string
    end.

(** The pattern "응답[^\d]*(\d+)건". *)
Definition min_responses_pattern : regex :=
  cat [Lit "응답"; Rep NonDigit 0 None; Group (Rep Digit 1 None); Lit "건"].

Definition _extract_min_responses (question : string) : Outcome Z :=
  match search min_responses_pattern question with
  | Some m => Text.int (group m 1)
  | None => Returns 5
  end.

(** A Hangul syllable, "가" (U+AC00) to "힣" (U+D7A3), at the head of the
    text: three UTF-8 bytes whose code point lies in that range. *)
Definition hangul_at (s : list ascii) : option (list ascii) :=
  match s with
  | b1 :: b2 :: b3 :: rest =>
      let cp := (Text.code b1 - 224) * 4096 + (Text.code b2 - 128) * 64
                + (Text.code b3 - 128) in
      if (224 <=? Text.code b1) && (Text.code b1 <=? 239)
         && (128 <=? Text.code b2) && (Text.code b2 <=? 191)
         && (128 <=? Text.code b3) && (Text.code b3 <=? 191)
         && (44032 <=? cp) && (cp <=? 55203)
      then Some rest else None
  | _ => None
  end.

(** How many syllables the class "[가-힣]" can take from the head of the text. *)
Fixpoint hangul_span (fuel : nat) (s : list ascii) : nat :=
  match fuel with
  | O => O
  | S fuel' =>
      match hangul_at s with
      | Some rest => S (hangul_span fuel' rest)
      | None => O
      end
  end.

(** The pattern "([가-힣]+점)" at one position, the greedy way: "[가-힣]+"
    takes [k] syllables, the most first, and "점" must follow them. *)
Fixpoint store_name_at (k : nat) (s : list ascii) : option string :=
  match k with
  | O => None
  | S k' =>
      match strip_prefix (list_ascii_of_string "점") (skipn (3 * k) s) with
      | Some _ => Some (string_of_list_ascii (firstn (3 * k + 3) s))
      | None => store_name_at k' s
      end
  end.

Fixpoint store_name_from (s : list ascii) : option string :=
  match store_name_at (hangul_span (List.length s) s) s with
  | Some name => Some name
  | None =>
      match s with
      | [] => None
      | _ :: s' => store_name_from s'
      end
  end.

(** [_extract_store_name]: [re.search] of the pattern "([가-힣]+점)". *)
Definition _extract_store_name (question : string) : option string :=
  store_name_from (list_ascii_of_string question).

(** The pattern "매장[^\d]*(\d{4})". *)
Definition store_code_pattern : regex :=
  cat [Lit "매장"; Rep NonDigit 0 None; Group (Rep Digit 4 (Some 4%nat))].

Definition _extract_store_code (question : string) : option string :=
  match search store_code_pattern question with
  | Some m => Some (group m 1)
  | None => None
  end.

(** The pattern "(\d+)월". *)
Definition month_pattern : regex := cat [Group (Rep Digit 1 None); Lit "월"].

(** The pattern "(\d+)월\s*(\d+)일". *)
Definition date_pattern : regex :=
  cat [Group (Rep Digit 1 None); Lit "월"; Rep Space 0 None;
       Group (Rep Digit 1 None); Lit "일"].

(** [_extract_period]: the pair ([period_start], [period_end]), or [None]. *)
Definition _extract_period (question : string) : Outcome (option (string * string)) :=
  match search month_pattern question with
  | Some m =>
      month <- Text.int (group m 1) ;;
      Returns (Some (("2025-" ++ Text.fmt_02d month ++ "-01")%string,
                     ("2025-" ++ Text.fmt_02d month ++ "-31")%string))
  | None =>
      match search date_pattern question with
      | Some m =>
          month <- Text.int (group m 1) ;;
          day <- Text.int (group m 2) ;;
          Returns (Some (("2025-" ++ Text.fmt_02d month ++ "-" ++ Text.fmt_02d day)%string,
                         ("2025-" ++ Text.fmt_02d month ++ "-" ++ Text.fmt_02d day)%string))
      | None => Returns None
      end
  end.

Definition _detect_comparison (question : string) : bool :=
  existsb (fun keyword => contains keyword question) ["대비"; "비교"; "vs"; "차이"]%string.

Definition _detect_trend (question : string) : option string :=
  if contains "하락" question || contains "낮아진" question || contains "떨어진" question
  then Some "decrease"%string
  else if contains "상승" question || contains "높아진" question || contains "올라간" question
  then Some "increase"%string
  else None.

Definition _detect_analysis_type (question : string) : string :=
  let nps := contains "nps" question || contains "NPS" question in
  if nps && (negb (contains "시니어" question) && negb (contains "대비" question)
             && negb (contains "비교" question))
  then "simple_filter"
  else if contains "시니어" question && nps
          && (existsb (fun keyword => contains keyword question)
                      ["비중"; "높은"; "높고"; "높으면서"; "낮은"; "낮고"; "낮으면서";
                       "많은"; "적은"]%string
              || (contains "gap" question || contains "GAP" question
                  || contains "차이" question))
  then "senior_gap"
  else if (contains "기간" question || contains "대비" question || contains "비교" question)
          && (contains "상승" question || contains "하락" question)
  then "period_comparison"
  else if contains "매장" question || contains "대리점" question
  then "store_analysis"
  else "general".

(** [parse(question)], on the keys of [FilterSpec].  The keys [store_code],
    [dealer_code], [dealer_id], [comparison_mode], [period_start] and
    [period_end], which no analyzer reads, are left out; the extractors behind
    them return or give [None].  [parse] reads ['analysis_month'] from the
    dict it has just built, which never holds that key: the comparison periods
    are extracted without an analysis month. *)
Definition parse (question : string) : Outcome FilterSpec :=
  let question_lower := lower question in
  nps_info <- _extract_nps_target question_lower ;;
  let senior_info := _extract_senior_threshold question_lower in
  min_resp <- _extract_min_responses question ;;
  comparison_periods <- _extract_comparison_periods question None ;;
  _ <- _extract_period question ;;
  Returns (mkFilterSpec
             None
             (_extract_team question)
             None
             (_extract_store_name question)
             (option_map fst nps_info)
             (option_map snd nps_info)
             (if truthy senior_info then senior_info else None)
             (Some (if min_resp =? 0 then 5 else min_resp))
             None None
             (_detect_trend question)
             comparison_periods
             (_detect_analysis_type question_lower)).

End QueryParser.

(** ** [analyzers/simple_filter.py] *)

Module SimpleFilterAnalyzer.

Import Frame.

(** A row of [grouped]: the group key columns (담당자 is empty in the
    per-store table), 응답수, 추천고객, 비추천고객 and [NPS_value].  The cell
    'NPS(%)' is [f"{NPS_value}%"], so it spells [NPS_value]; the share column
    매장내 모수 비중 is read by no filter, sort or insight and is left out. *)
Record Grouped : Type := mkGrouped {
  g_team : string;
  g_dealer : string;
  g_store : string;
  g_tcrew : string;
  g_responses : Z;
  g_promoters : Z;
  g_detractors : Z;
  NPS_value : Cell
}.

(** [Series.count()]: the cells that are not NaN. *)
Definition count_valid (scores : list Score) : Z :=
  Num.count_if (fun s => match s with Some _ => true | None => false end) scores.

(** [((추천고객 - 비추천고객) / 응답수 * 100).round(1)]; [0 / 0] is NaN. *)
Definition nps_round1 (promoters detractors responses : Z) : Cell :=
  if responses =? 0 then None
  else Some (Num.round_ndigits
               ((inject_Z (promoters - detractors) / inject_Z responses) * 100)%Q 1).

Definition aggregate (key : Key) (group : list Row) : Grouped :=
  let scores := map r_score group in
  let responses := count_valid scores in
  let promoters := Num.count_if is_promoter scores in
  let detractors := Num.count_if is_detractor scores in
  mkGrouped (nth 0 key EmptyString) (nth 1 key EmptyString) (nth 2 key EmptyString)
            (nth 3 key EmptyString)
            responses promoters detractors (nps_round1 promoters detractors responses).

(** The lower bound on 응답수: [filters.get('min_responses_period1', 5)]. *)
Definition min_responses_bound (filters : FilterSpec) : Z :=
  match min_responses_period1 filters with
  | Some m => m
  | None => 5
  end.

(** The two filters both tables go through. *)
Definition apply_filters (filters : FilterSpec) (grouped : list Grouped) : list Grouped :=
  let grouped := filter (fun g => min_responses_bound filters <=? g_responses g) grouped in
  match nps_target filters with
  | Some target =>
      match nps_comparison filters with
      | Some comparison =>
          if String.eqb comparison "below"
          then filter (fun g => cell_ltb (NPS_value g) (inject_Z target)) grouped
          else if String.eqb comparison "above"
          then filter (fun g => cell_geb (NPS_value g) (inject_Z target)) grouped
          else grouped
      | None => grouped
      end
  | None => grouped
  end.

(** [sort_values(['마케팅팀명', '대리점명', '매장명', 'NPS_value'])], ascending. *)
Definition sort_leb (a b : Grouped) : bool :=
  match key_compare [g_team a; g_dealer a; g_store a] [g_team b; g_dealer b; g_store b] with
  | Lt => true
  | Gt => false
  | Eq => cell_leb (NPS_value a) (NPS_value b)
  end.

(** [_analyze_by_tcrew]: the table, and [nps_values] beside it. *)
Definition _analyze_by_tcrew (df : DataFrame) (filters : FilterSpec)
  : list Grouped * list Cell :=
  let grouped :=
    map (fun kg => aggregate (fst kg) (snd kg))
        (groupby (fun r => [r_team r; r_dealer r; r_store r; r_tcrew r]) (rows df)) in
  let grouped := sort_by sort_leb (apply_filters filters grouped) in
  (grouped, map NPS_value grouped).

Definition _analyze_by_store (df : DataFrame) (filters : FilterSpec) : list Grouped :=
  let grouped :=
    map (fun kg => aggregate (fst kg) (snd kg))
        (groupby (fun r => [r_team r; r_dealer r; r_store r]) (rows df)) in
  sort_by sort_leb (apply_filters filters grouped).

(** [get_status], local to [_get_store_tcrew_detail]; a NaN fails every test. *)
Definition get_status (diff : Cell) : string :=
  if cell_geb diff 5 then "🟢 우수"
  else if cell_geb diff 0 then "🟢 양호"
  else if cell_geb diff (-5) then "🟠 주의"
  else "🔴 개선필요".

(** The insight sentences, by template:
    - [LowestTcrew t s n]: "📌 {t} ({s})의 NPS가 {n}로 가장 낮습니다."
    - [LowestTcrewAndOthers t s k n]: "📌 {t} ({s}) 외 {k}명의 NPS가 {n}로 가장 낮습니다."
    - [NpsRange lo hi]: "📊 NPS 범위: {lo}% ~ {hi}% (편차 {hi - lo}%p)"
    - [LowestStore s n]: "🏪 {s}의 NPS가 {n}로 가장 낮습니다."
    - [LowestStoreAndOthers s k n]: "🏪 {s} 외 {k}개 매장의 NPS가 {n}로 가장 낮습니다." *)
Inductive Insight : Type :=
| LowestTcrew (tcrew store : string) (nps : Cell)
| LowestTcrewAndOthers (tcrew store : string) (others_count : Z) (nps : Cell)
| NpsRange (nps_min nps_max : Cell)
| LowestStore (store : string) (nps : Cell)
| LowestStoreAndOthers (store : string) (others_count : Z) (nps : Cell).

(** The rows whose NPS equals the least one: [worst_tcrews], [worst_stores]. *)
Definition worst_rows (table : list Grouped) : list Grouped :=
  let min_nps := series_min (map NPS_value table) in
  filter (fun g => cell_eqb (NPS_value g) min_nps) table.

Definition tcrew_insights (result_tcrew : list Grouped) (nps_values : list Cell)
  : Outcome (list Insight) :=
  match result_tcrew with
  | [] => Returns []
  | _ :: _ =>
      let worst_tcrews := worst_rows result_tcrew in
      first <- match worst_tcrews with
               | [w] => Returns (LowestTcrew (g_tcrew w) (g_store w) (NPS_value w))
               | w :: _ =>
                   Returns (LowestTcrewAndOthers (g_tcrew w) (g_store w)
                              (Z.of_nat (List.length worst_tcrews) - 1) (NPS_value w))
               | [] => Raises "IndexError"
               end ;;
      Returns (first ::
               match nps_values with
               | [] => []
               | _ :: _ => [NpsRange (array_min nps_values) (array_max nps_values)]
               end)
  end.

Definition store_insights (result_store : list Grouped) : Outcome (list Insight) :=
  match result_store with
  | [] => Returns []
  | _ :: _ =>
      let worst_stores := worst_rows result_store in
      match worst_stores with
      | [w] => Returns [LowestStore (g_store w) (NPS_value w)]
      | w :: _ =>
          Returns [LowestStoreAndOthers (g_store w)
                     (Z.of_nat (List.length worst_stores) - 1) (NPS_value w)]
      | [] => Raises "IndexError"
      end
  end.

Definition _generate_insights (result_tcrew result_store : list Grouped)
           (filters : FilterSpec) (nps_values : list Cell) : Outcome (list Insight) :=
  a <- tcrew_insights result_tcrew nps_values ;;
  b <- store_insights result_store ;;
  Returns (a ++ b).

(** The result bundle, without the store-to-agent detail and the summary. *)
Record Bundle : Type := mkBundle {
  by_tcrew : list Grouped;
  by_store : list Grouped;
  insights : list Insight
}.

Definition analyze (df : DataFrame) (filters : FilterSpec) : Outcome Bundle :=
  let '(result_tcrew, nps_values) := _analyze_by_tcrew df filters in
  let result_store := _analyze_by_store df filters in
  ins <- _generate_insights result_tcrew result_store filters nps_values ;;
  Returns (mkBundle result_tcrew result_store ins).

End SimpleFilterAnalyzer.

(** ** [analyzers/senior_gap.py] *)

Module SeniorGapAnalyzer.

Import Frame.

Definition _calculate_nps (scores : list Score) : Q := calculate_nps_body scores.

(** A row of [tcrew_stats]: 담당자, 담당자ID, 대리점명, 매장명, 총응답수, 추천자수,
    비추천자수, 시니어응답수, [NPS_value], 시니어비중_value, and the number the cell
    시니어NPS spells.  That cell is [f"{senior_nps:.1f}%"], and every later
    step reads it back with [.str.rstrip('%').astype(float)]. *)
Record TcrewStat : Type := mkTcrewStat {
  s_tcrew : string;
  s_tcrew_id : string;
  s_dealer : string;
  s_store : string;
  s_total_responses : Z;
  s_promoters : Z;
  s_detractors : Z;
  s_senior_responses : Z;
  s_NPS_value : Q;
  s_senior_rate_value : Q;
  s_senior_nps_cell : Q
}.

Definition is_senior (r : Row) : bool := String.eqb (r_senior r) "Y".

(** [strftime('%Y년 %m월')] *)
Definition strftime_year_month (d : Date) : string :=
  (Text.str (year d) ++ "년 " ++ Text.fmt_02d (month d) ++ "월")%string.

Definition keep_if (A : Type) (cond : bool) (p : A -> bool) (l : list A) : list A :=
  if cond then filter p l else l.

(** [df_filtered]: the rows left by the month, team, dealer and store filters. *)
Definition df_filtered (df : DataFrame) (filters : FilterSpec) : Outcome (list Row) :=
  let month_label := QueryParser.unwrap (analysis_month filters) in
  by_month <-
    (if truthy (analysis_month filters) && negb (String.eqb month_label "전체")
     then if has_date_column df
          then Returns (filter (fun r => match r_date r with
                                         | Some d => String.eqb (strftime_year_month d) month_label
                                         | None => false
                                         end) (rows df))
          else Raises "KeyError"
     else Returns (rows df)) ;;
  let by_team :=
    keep_if (truthy (team filters))
            (fun r => String.eqb (r_team r) (QueryParser.unwrap (team filters))) by_month in
  let by_dealer :=
    keep_if (truthy (dealer_name filters))
            (fun r => String.eqb (r_dealer r) (QueryParser.unwrap (dealer_name filters))) by_team in
  Returns (keep_if (truthy (store_name filters))
             (fun r => String.eqb (r_store r) (QueryParser.unwrap (store_name filters))) by_dealer).

(** The body of the loop over [groupby(['담당자', '담당자ID'])]. *)
Definition tcrew_stat (key : Key) (group : list Row) : TcrewStat :=
  let total_responses := Z.of_nat (List.length group) in
  let scores := map r_score group in
  let promoters := Num.count_if is_promoter scores in
  let detractors := Num.count_if is_detractor scores in
  let senior_data := filter is_senior group in
  let senior_responses := Z.of_nat (List.length senior_data) in
  let nps := _calculate_nps scores in
  let senior_nps :=
    if (0 <? Z.of_nat (List.length senior_data))
    then _calculate_nps (map r_score senior_data) else 0%Q in
  let senior_rate :=
    if 0 <? total_responses
    then (inject_Z senior_responses / inject_Z total_responses * 100)%Q else 0%Q in
  mkTcrewStat (nth 0 key EmptyString) (nth 1 key EmptyString)
              (match group with r :: _ => r_dealer r | [] => EmptyString end)
              (match group with r :: _ => r_store r | [] => EmptyString end)
              total_responses promoters detractors senior_responses
              nps senior_rate (Num.round_ndigits senior_nps 1).

Definition tcrew_stats (rows : list Row) : list TcrewStat :=
  map (fun kg => tcrew_stat (fst kg) (snd kg))
      (groupby (fun r => [r_tcrew r; r_tcrew_id r]) rows).

(** [avg_senior_rate]: the share of senior responses in the whole of [df_filtered]. *)
Definition avg_senior_rate (rows : list Row) : Q :=
  let total_responses := Z.of_nat (List.length rows) in
  let total_senior_responses := Z.of_nat (List.length (filter is_senior rows)) in
  if 0 <? total_responses
  then (inject_Z total_senior_responses / inject_Z total_responses * 100)%Q else 0%Q.

(** [avg_nps]: the NPS of the whole of [df_filtered]. *)
Definition avg_nps (rows : list Row) : Q := _calculate_nps (map r_score rows).

(** [avg_senior_nps]: the mean of the 시니어NPS cells of the rows of
    [tcrew_stats] with 시니어응답수 > 0, and 0 when there is no such row. *)
Definition avg_senior_nps (stats : list TcrewStat) : Q :=
  let tcrew_with_senior := filter (fun s => 0 <? s_senior_responses s) stats in
  match tcrew_with_senior with
  | [] => 0%Q
  | _ :: _ => Num.mean (map s_senior_nps_cell tcrew_with_senior)
  end.

(** [float(text)] on a run of digits, which is what the parser writes after
    ["custom:"]; any other text raises [ValueError] here. *)
Definition float (text : string) : Outcome Q :=
  z <- Text.int text ;; Returns (inject_Z z).

(** The senior-share filter on [result]. *)
Definition senior_rate_filter (filters : FilterSpec) (avg_senior_rate : Q)
           (result : list TcrewStat) : Outcome (list TcrewStat) :=
  let at_least (v : Q) := filter (fun s => Qle_bool v (s_senior_rate_value s)) result in
  if truthy (senior_threshold filters) then
    let senior_threshold := QueryParser.unwrap (senior_threshold filters) in
    if String.eqb senior_threshold "avg" then Returns (at_least avg_senior_rate)
    else if String.eqb senior_threshold "below_avg"
    then Returns (filter (fun s => negb (Qle_bool avg_senior_rate (s_senior_rate_value s))) result)
    else if Re.startswith "custom:" senior_threshold
    then custom_value <- float (nth 1 (Re.split ":" senior_threshold) EmptyString) ;;
         Returns (at_least custom_value)
    else Returns result
  else Returns (at_least avg_senior_rate).

(** The senior-NPS filter: runs when [len(result) > 0]. *)
Definition senior_nps_filter (avg_senior_nps : Q) (result : list TcrewStat) : list TcrewStat :=
  match result with
  | [] => []
  | _ :: _ =>
      let result := filter (fun s => 0 <? s_senior_responses s) result in
      filter (fun s => negb (Qle_bool avg_senior_nps (s_senior_nps_cell s))) result
  end.

(** The NPS target in force and its direction ([true]: below). *)
Definition nps_target_in_force (filters : FilterSpec) : Z * bool :=
  match nps_target filters with
  | Some target =>
      (target, match nps_comparison filters with
               | Some c => String.eqb c "below"
               | None => false
               end)
  | None => (87, true)
  end.

Definition nps_target_filter (filters : FilterSpec) (result : list TcrewStat) : list TcrewStat :=
  let '(nps_target, below) := nps_target_in_force filters in
  if below
  then filter (fun s => negb (Qle_bool (inject_Z nps_target) (s_NPS_value s))) result
  else filter (fun s => Qle_bool (inject_Z nps_target) (s_NPS_value s)) result.

(** [min_resp = filters.get('min_responses', 5)], then 시니어응답수 >= 1. *)
Definition min_responses_filter (filters : FilterSpec) (result : list TcrewStat) : list TcrewStat :=
  let min_resp := match min_responses filters with Some m => m | None => 5 end in
  filter (fun s => 1 <=? s_senior_responses s)
         (filter (fun s => min_resp <=? s_total_responses s) result).

(** [sort_values(['시니어비중_value', 'NPS_value'], ascending=[False, True])] *)
Definition sort_leb (a b : TcrewStat) : bool :=
  match Qcompare (s_senior_rate_value a) (s_senior_rate_value b) with
  | Gt => true
  | Lt => false
  | Eq => Qle_bool (s_NPS_value a) (s_NPS_value b)
  end.

(** [_get_weighted_avg_nps], as the number its string spells. *)
Definition _get_weighted_avg_nps (df_filtered : list Row) (result : list TcrewStat) : option Q :=
  match result with
  | [] => None
  | _ :: _ =>
      let filtered_tcrews := map s_tcrew_id result in
      let result_data :=
        filter (fun r => existsb (String.eqb (r_tcrew_id r)) filtered_tcrews) df_filtered in
      Some (Num.round_ndigits (_calculate_nps (map r_score result_data)) 1)
  end.

(** The entries of [summary]: 조건 만족 T크루, NPS 목표, 필터 조건Y 시니어 비중 (the
    rate and the two counts it is printed with), 조건 만족 T크루 NPS. *)
Record Summary : Type := mkSummary {
  n_tcrew : Z;
  nps_target_shown : Z;
  senior_rate_shown : Q;
  total_senior_responses : Z;
  total_responses : Z;
  weighted_nps : option Q
}.

(** What [analyze] returns: the early return on an empty [tcrew_stats], or the
    per-agent table with the summary.  The per-store table, the store-to-agent
    detail and the insights are computed from these and are not modelled. *)
Inductive Result : Type :=
| NoData
| Analysed (by_tcrew : list TcrewStat) (summary : Summary).

Definition analyze (df : DataFrame) (filters : FilterSpec) : Outcome Result :=
  rows <- df_filtered df filters ;;
  let stats := tcrew_stats rows in
  match stats with
  | [] => Returns NoData
  | _ :: _ =>
      let rate := avg_senior_rate rows in
      let senior_nps := avg_senior_nps stats in
      result <- senior_rate_filter filters rate stats ;;
      let result := senior_nps_filter senior_nps result in
      let result := nps_target_filter filters result in
      let result := min_responses_filter filters result in
      let result := sort_by sort_leb result in
      Returns (Analysed result
                 (mkSummary (Z.of_nat (List.length result))
                            (fst (nps_target_in_force filters))
                            rate
                            (Z.of_nat (List.length (filter is_senior rows)))
                            (Z.of_nat (List.length rows))
                            (_get_weighted_avg_nps rows result)))
  end.

(** *** The per-store table *)

(** A row of [store_stats] in [_analyze_by_store]: 마케팅팀명, 대리점명, 매장명,
    총응답수, 추천자수, 비추천자수, 시니어응답수, [NPS_value], 시니어비중_value, and the
    number the cell 시니어NPS spells. *)
Record StoreStat : Type := mkStoreStat {
  t_team : string;
  t_dealer : string;
  t_store : string;
  t_total_responses : Z;
  t_promoters : Z;
  t_detractors : Z;
  t_senior_responses : Z;
  t_NPS_value : Q;
  t_senior_rate_value : Q;
  t_senior_nps_cell : Q
}.

(** The body of the loop over [groupby(['마케팅팀명', '대리점명', '매장명'])]. *)
Definition store_stat (key : Key) (group : list Row) : StoreStat :=
  let total_responses := Z.of_nat (List.length group) in
  let scores := map r_score group in
  let promoters := Num.count_if is_promoter scores in
  let detractors := Num.count_if is_detractor scores in
  let senior_data := filter is_senior group in
  let senior_responses := Z.of_nat (List.length senior_data) in
  let nps := _calculate_nps scores in
  let senior_nps :=
    if (0 <? Z.of_nat (List.length senior_data))
    then _calculate_nps (map r_score senior_data) else 0%Q in
  let senior_rate :=
    if 0 <? total_responses
    then (inject_Z senior_responses / inject_Z total_responses * 100)%Q else 0%Q in
  mkStoreStat (nth 0 key EmptyString) (nth 1 key EmptyString) (nth 2 key EmptyString)
              total_responses promoters detractors senior_responses
              nps senior_rate (Num.round_ndigits senior_nps 1).

(** The rows of the agents the per-agent table lists: [isin] on 담당자ID. *)
Definition df_satisfied (df_filtered : list Row) (result_tcrew : list TcrewStat) : list Row :=
  let satisfied_tcrew_ids := map s_tcrew_id result_tcrew in
  filter (fun r => existsb (String.eqb (r_tcrew_id r)) satisfied_tcrew_ids) df_filtered.

(** The senior-share filter on [store_stats]: the tests of the per-agent one. *)
Definition store_senior_rate_filter (filters : FilterSpec) (avg_senior_rate : Q)
           (store_stats : list StoreStat) : Outcome (list StoreStat) :=
  let at_least (v : Q) := filter (fun t => Qle_bool v (t_senior_rate_value t)) store_stats in
  if truthy (senior_threshold filters) then
    let senior_threshold := QueryParser.unwrap (senior_threshold filters) in
    if String.eqb senior_threshold "avg" then Returns (at_least avg_senior_rate)
    else if String.eqb senior_threshold "below_avg"
    then Returns (filter (fun t => negb (Qle_bool avg_senior_rate (t_senior_rate_value t)))
                         store_stats)
    else if Re.startswith "custom:" senior_threshold
    then custom_value <- float (nth 1 (Re.split ":" senior_threshold) EmptyString) ;;
         Returns (at_least custom_value)
    else Returns store_stats
  else Returns (at_least avg_senior_rate).

(** [sort_values(['시니어비중_value', 'NPS_value'], ascending=[False, True])] *)
Definition store_sort_leb (a b : StoreStat) : bool :=
  match Qcompare (t_senior_rate_value a) (t_senior_rate_value b) with
  | Gt => true
  | Lt => false
  | Eq => Qle_bool (t_NPS_value a) (t_NPS_value b)
  end.

(** [_analyze_by_store]: the per-store table, on the numbers its display
    columns spell.  [nps_comparison] is the direction [analyze] passes on:
    the stored one, which may be Python's [None], or "below" with the default
    target.  An early [pd.DataFrame()] is the empty table. *)
Definition _analyze_by_store (df_filtered : list Row) (filters : FilterSpec)
           (avg_senior_rate avg_nps : Q) (nps_target : Z) (nps_comparison : option string)
           (result_tcrew : list TcrewStat) : Outcome (list StoreStat) :=
  match df_satisfied df_filtered result_tcrew with
  | [] => Returns []
  | _ :: _ =>
      let store_stats :=
        map (fun kg => store_stat (fst kg) (snd kg))
            (groupby (fun r => [r_team r; r_dealer r; r_store r])
                     (df_satisfied df_filtered result_tcrew)) in
      match store_stats with
      | [] => Returns []
      | _ :: _ =>
          let below := match nps_comparison with
                       | Some c => String.eqb c "below"
                       | None => false
                       end in
          let store_stats :=
            if below
            then filter (fun t => negb (Qle_bool (inject_Z nps_target) (t_NPS_value t)))
                        store_stats
            else filter (fun t => Qle_bool (inject_Z nps_target) (t_NPS_value t)) store_stats in
          store_stats <- store_senior_rate_filter filters avg_senior_rate store_stats ;;
          let min_resp := match min_responses filters with Some m => m | None => 5 end in
          let store_stats := filter (fun t => min_resp <=? t_total_responses t) store_stats in
          let store_stats := filter (fun t => 1 <=? t_senior_responses t) store_stats in
          match store_stats with
          | [] => Returns []
          | _ :: _ => Returns (sort_by store_sort_leb store_stats)
          end
      end
  end.

End SeniorGapAnalyzer.

(** ** [analyzers/period_comparison.py] *)

Module PeriodComparisonAnalyzer.

Import Frame.

Definition _calculate_nps (scores : list Score) : Q := calculate_nps_body scores.

(** A row of [_aggregate_by_tcrew]: 담당자, 담당자ID, 대리점명, 매장명, 총응답수,
    추천자수, 비추천자수, [NPS_value]. *)
Record TcrewStat : Type := mkTcrewStat {
  a_tcrew : string;
  a_tcrew_id : string;
  a_dealer : string;
  a_store : string;
  a_total_responses : Z;
  a_promoters : Z;
  a_detractors : Z;
  a_NPS_value : Q
}.

Definition _aggregate_by_tcrew (df : list Row) : list TcrewStat :=
  map (fun kg =>
         let key := fst kg in
         let group := snd kg in
         let scores := map r_score group in
         mkTcrewStat (nth 0 key EmptyString) (nth 1 key EmptyString)
                     (match group with r :: _ => r_dealer r | [] => EmptyString end)
                     (match group with r :: _ => r_store r | [] => EmptyString end)
                     (Z.of_nat (List.length group))
                     (Num.count_if is_promoter scores)
                     (Num.count_if is_detractor scores)
                     (_calculate_nps scores))
      (groupby (fun r => [r_tcrew r; r_tcrew_id r]) df).

(** The merge key: 담당자, 담당자ID, 대리점명, 매장명. *)
Definition stat_key (a : TcrewStat) : Key :=
  [a_tcrew a; a_tcrew_id a; a_dealer a; a_store a].

(** A row of the merged table: the key, then 기준기간_NPS_value, 기준기간_응답수,
    비교기간_NPS_value, 비교기간_응답수 and NPS증감_value. *)
Record Joined : Type := mkJoined {
  j_tcrew : string;
  j_tcrew_id : string;
  j_dealer : string;
  j_store : string;
  j_period1_NPS_value : Q;
  j_period1_responses : Z;
  j_period2_NPS_value : Q;
  j_period2_responses : Z;
  j_change : Q
}.

Definition joined_key (j : Joined) : Key :=
  [j_tcrew j; j_tcrew_id j; j_dealer j; j_store j].

Definition join_rows (l r : TcrewStat) : Joined :=
  mkJoined (a_tcrew l) (a_tcrew_id l) (a_dealer l) (a_store l)
           (a_NPS_value l) (a_total_responses l)
           (a_NPS_value r) (a_total_responses r)
           (a_NPS_value r - a_NPS_value l)%Q.

(** [pd.merge(left, right, on=[...], how='inner')], followed by the column
    NPS증감_value: one row per pair of a left and a right row with the same
    key, in the order of the left rows. *)
Definition merge_inner (left right : list TcrewStat) : list Joined :=
  flat_map (fun l =>
              map (join_rows l)
                  (filter (fun r => key_eqb (stat_key l) (stat_key r)) right))
           left.

Definition trend_is (filters : FilterSpec) (t : string) : bool :=
  match trend filters with
  | Some v => String.eqb v t
  | None => false
  end.

Definition trend_filter (filters : FilterSpec) (result : list Joined) : list Joined :=
  if trend_is filters "decrease"
  then filter (fun j => negb (Qle_bool 0 (j_change j))) result
  else if trend_is filters "increase"
  then filter (fun j => negb (Qle_bool (j_change j) 0)) result
  else result.

(** The NPS target is compared with the comparison period's NPS. *)
Definition nps_target_filter (filters : FilterSpec) (result : list Joined) : list Joined :=
  match nps_target filters with
  | Some nps_target =>
      let below := match nps_comparison filters with
                   | Some c => String.eqb c "below"
                   | None => false
                   end in
      if below
      then filter (fun j => negb (Qle_bool (inject_Z nps_target) (j_period2_NPS_value j))) result
      else filter (fun j => Qle_bool (inject_Z nps_target) (j_period2_NPS_value j)) result
  | None => result
  end.

(** [filters.get(key, filters.get('min_responses', 5))] *)
Definition min_resp_period (own : option Z) (filters : FilterSpec) : Z :=
  match own with
  | Some m => m
  | None => match min_responses filters with Some m => m | None => 5 end
  end.

Definition min_responses_filter (filters : FilterSpec) (result : list Joined) : list Joined :=
  let min_resp_period1 := min_resp_period (min_responses_period1 filters) filters in
  let min_resp_period2 := min_resp_period (min_responses_period2 filters) filters in
  filter (fun j => (min_resp_period1 <=? j_period1_responses j)
                   && (min_resp_period2 <=? j_period2_responses j)) result.

(** The final [sort_values] on NPS증감_value: ascending for a decrease,
    descending for an increase, by descending absolute value otherwise.
    pandas leaves the order among equal values open; the model keeps index order. *)
Definition sort_result (filters : FilterSpec) (result : list Joined) : list Joined :=
  if trend_is filters "decrease"
  then sort_by (fun a b => Qle_bool (j_change a) (j_change b)) result
  else if trend_is filters "increase"
  then sort_by (fun a b => Qle_bool (j_change b) (j_change a)) result
  else sort_by (fun a b => Qle_bool (Qabs (j_change b)) (Qabs (j_change a))) result.

(** What [analyze] returns: an early return, which carries empty tables and
    the given insight sentences, or the per-agent table [result] with the two
    period labels.  The per-store table, the store-to-agent detail, the
    insights and the summary of the full path are computed from the same
    pieces and are not modelled. *)
Inductive Result : Type :=
| Explained (insights : list string)
| Compared (by_tcrew : list Joined) (period1_label period2_label : string).

Definition by_tcrew (r : Result) : list Joined :=
  match r with
  | Explained _ => []
  | Compared t _ _ => t
  end.

(** The rows of a period: [start <= 처리일 < end + 1 day]; a NaT is in no period. *)
Definition in_period (period_start period_end : Date) (r : Row) : bool :=
  match r_date r with
  | Some d => date_leb period_start d && date_ltb d (add_one_day period_end)
  | None => false
  end.

(** The tail of [analyze], from the two period frames on. *)
Definition compare_periods (df_period1 df_period2 : list Row)
           (period1_label period2_label : string) (filters : FilterSpec) : Result :=
  let period1_stats := _aggregate_by_tcrew df_period1 in
  match period1_stats with
  | [] => Explained [("⚠️ 기준 기간(" ++ period1_label ++ ")에 응답 데이터가 없습니다.")%string;
                     "💡 분석월 필터를 '전체'로 변경해보세요."%string]
  | _ :: _ =>
  let period2_stats := _aggregate_by_tcrew df_period2 in
  match period2_stats with
  | [] => Explained [("⚠️ 비교 기간(" ++ period2_label ++ ")에 응답 데이터가 없습니다.")%string;
                     "💡 분석월 필터를 '전체'로 변경해보세요."%string]
  | _ :: _ =>
  let result := merge_inner period1_stats period2_stats in
  match result with
  | [] => Explained ["⚠️ 두 기간 모두 데이터가 있는 T크루가 없습니다."%string;
                     "💡 분석월 필터를 '전체'로 변경해보세요."%string]
  | _ :: _ =>
      let result := trend_filter filters result in
      let result := nps_target_filter filters result in
      let result := min_responses_filter filters result in
      Compared (sort_result filters result) period1_label period2_label
  end end end.

Section Analyze.

(** [pd.Timestamp(text)]: the day a date string names, or the exception it
    raises.  pandas' parser is not part of the repository; the analyzer is
    modelled for any such function. *)
Variable Timestamp : string -> Outcome Date.

(** The two periods [analyze] works with, once the error marker is excluded:
    the ones of [comparison_periods], or the fixed fallback. *)
Definition resolve_periods (filters : FilterSpec)
  : Outcome (Date * Date * Date * Date * string * string) :=
  match comparison_periods filters with
  | Some (Periods s1 e1 s2 e2 l1 l2) =>
      period1_start <- Timestamp s1 ;;
      period1_end <- Timestamp e1 ;;
      period2_start <- Timestamp s2 ;;
      period2_end <- Timestamp e2 ;;
      Returns (period1_start, period1_end, period2_start, period2_end, l1, l2)
  | Some (PeriodError _ _ _) => Raises "KeyError"
  | None =>
      Returns (mkDate 2025 9 1, mkDate 2025 12 31, mkDate 2026 1 1, mkDate 2026 1 31,
               "9~12월"%string, "1월"%string)
  end.

Definition analyze (df : DataFrame) (filters : FilterSpec) : Outcome Result :=
  if negb (has_date_column df) then Returns (Explained ["⚠️ 처리일 컬럼이 없습니다."%string])
  else
    match comparison_periods filters with
    | Some (PeriodError (String c e) _ _) =>
        Returns (Explained [("⚠️ " ++ String c e)%string])
    | _ =>
        p <- resolve_periods filters ;;
        let '(period1_start, period1_end, period2_start, period2_end,
              period1_label, period2_label) := p in
        let df_period1 := filter (in_period period1_start period1_end) (rows df) in
        let df_period2 := filter (in_period period2_start period2_end) (rows df) in
        Returns (compare_periods df_period1 df_period2 period1_label period2_label filters)
    end.

End Analyze.

(** The four-band status of [_get_store_tcrew_detail], on [vs_store]. *)
Definition status (vs_store : Q) : string :=
  if Qle_bool 5 vs_store then "🟢 우수"
  else if Qle_bool 0 vs_store then "🟢 양호"
  else if Qle_bool (-5) vs_store then "🟠 주의"
  else "🔴 개선필요".

(** *** The per-store table *)

(** A row of [period1_store] or [period2_store]: 마케팅팀명, 대리점명, 매장명, the
    period's 응답수 and its [NPS_value]. *)
Record StoreStat : Type := mkStoreStat {
  p_team : string;
  p_dealer : string;
  p_store : string;
  p_responses : Z;
  p_NPS_value : Q
}.

(** The two loops over [groupby(['마케팅팀명', '대리점명', '매장명'])]. *)
Definition store_stats (df : list Row) : list StoreStat :=
  map (fun kg =>
         let key := fst kg in
         let group := snd kg in
         mkStoreStat (nth 0 key EmptyString) (nth 1 key EmptyString) (nth 2 key EmptyString)
                     (Z.of_nat (List.length group))
                     (_calculate_nps (map r_score group)))
      (groupby (fun r => [r_team r; r_dealer r; r_store r]) df).

Definition store_key (s : StoreStat) : Key := [p_team s; p_dealer s; p_store s].

(** A row of the merged per-store table: the key, then each period's 응답수 and
    [NPS_value], and NPS증감_value. *)
Record JoinedStore : Type := mkJoinedStore {
  k_team : string;
  k_dealer : string;
  k_store : string;
  k_period1_responses : Z;
  k_period1_NPS_value : Q;
  k_period2_responses : Z;
  k_period2_NPS_value : Q;
  k_change : Q
}.

Definition joined_store_key (j : JoinedStore) : Key := [k_team j; k_dealer j; k_store j].

Definition join_stores (l r : StoreStat) : JoinedStore :=
  mkJoinedStore (p_team l) (p_dealer l) (p_store l)
                (p_responses l) (p_NPS_value l)
                (p_responses r) (p_NPS_value r)
                (p_NPS_value r - p_NPS_value l)%Q.

(** [pd.merge(..., on=['마케팅팀명', '대리점명', '매장명'], how='inner')], followed
    by the column NPS증감_value. *)
Definition merge_stores (left right : list StoreStat) : list JoinedStore :=
  flat_map (fun l =>
              map (join_stores l)
                  (filter (fun r => key_eqb (store_key l) (store_key r)) right))
           left.

(** [trend == t], for the [trend] argument. *)
Definition trend_arg_is (trend : option string) (t : string) : bool :=
  match trend with
  | Some v => String.eqb v t
  | None => false
  end.

(** [_analyze_by_store]: the per-store table, on the numbers its display
    columns spell.  An early [pd.DataFrame()] is the empty table. *)
Definition _analyze_by_store (df_period1 df_period2 : list Row)
           (period1_label period2_label : string) (filters : FilterSpec)
           (trend : option string) : list JoinedStore :=
  match store_stats df_period1 with
  | [] => []
  | _ :: _ =>
  match store_stats df_period2 with
  | [] => []
  | _ :: _ =>
  match merge_stores (store_stats df_period1) (store_stats df_period2) with
  | [] => []
  | _ :: _ =>
      let result := merge_stores (store_stats df_period1) (store_stats df_period2) in
      let result :=
        if trend_arg_is trend "decrease"
        then filter (fun j => negb (Qle_bool 0 (k_change j))) result
        else if trend_arg_is trend "increase"
        then filter (fun j => negb (Qle_bool (k_change j) 0)) result
        else result in
      let result :=
        match nps_target filters with
        | Some nps_target =>
            let below := match nps_comparison filters with
                         | Some c => String.eqb c "below"
                         | None => false
                         end in
            if below
            then filter (fun j => negb (Qle_bool (inject_Z nps_target) (k_period2_NPS_value j)))
                        result
            else filter (fun j => Qle_bool (inject_Z nps_target) (k_period2_NPS_value j)) result
        | None => result
        end in
      let min_resp_period1 := min_resp_period (min_responses_period1 filters) filters in
      let min_resp_period2 := min_resp_period (min_responses_period2 filters) filters in
      let result :=
        filter (fun j => (min_resp_period1 <=? k_period1_responses j)
                         && (min_resp_period2 <=? k_period2_responses j)) result in
      if trend_arg_is trend "decrease"
      then sort_by (fun a b => Qle_bool (k_change a) (k_change b)) result
      else if trend_arg_is trend "increase"
      then sort_by (fun a b => Qle_bool (k_change b) (k_change a)) result
      else sort_by (fun a b => Qle_bool (Qabs (k_change b)) (Qabs (k_change a))) result
  end end end.

End PeriodComparisonAnalyzer.

(** ** Scenarios and statement vocabulary *)

(** [filters] with the key ['min_responses'] set to [m] (or removed). *)
Definition with_min_responses (m : option Z) (f : FilterSpec) : FilterSpec :=
  mkFilterSpec (analysis_month f) (team f) (dealer_name f) (store_name f)
               (nps_target f) (nps_comparison f) (senior_threshold f)
               m (min_responses_period1 f) (min_responses_period2 f)
               (trend f) (comparison_periods f) (analysis_type f).

(** What [parse] builds for a question with no condition beyond the ones given. *)
Definition parsed (nps_target : option Z) (nps_comparison : option string)
           (min_responses : Z) (analysis_type : string) : FilterSpec :=
  mkFilterSpec None None None None nps_target nps_comparison None
               (Some min_responses) None None None None analysis_type.

(** [count] responses of one agent, all with the same score. *)
Definition responses (tcrew store senior : string) (date : option Date)
           (score : Z) (count : nat) : list Row :=
  repeat (mkRow date (Some score) tcrew (tcrew ++ "-id") "대리점" store "인천마케팅팀" senior)
         count.

(** A [pd.Timestamp] that parses nothing: enough where no date string is read. *)
Definition no_timestamp (text : string) : Outcome Date := Raises "ValueError".

(** One agent answers in both fallback periods, another in the first only. *)
Definition two_period_table : DataFrame :=
  mkDataFrame true
    (responses "가" "부평점" "N" (Some (mkDate 2025 10 15)) 10 5
     ++ responses "가" "부평점" "N" (Some (mkDate 2026 1 20)) 3 5
     ++ responses "나" "부평점" "N" (Some (mkDate 2025 11 2)) 9 6).


(** Agent 가 answers twice, both times as a senior (scores 9 and 0); agent 나
    answers ten times with promoter scores, once as a senior. *)
Definition senior_table : DataFrame :=
  mkDataFrame false
    (responses "가" "부평점" "Y" None 9 1 ++ responses "가" "부평점" "Y" None 0 1
     ++ responses "나" "부평점" "Y" None 10 1 ++ responses "나" "부평점" "N" None 9 9).



(** Three agents of one store with six responses each: 가 and 나 with three
    promoters and three detractors (NPS 0.0), 다 with promoters only. *)
Definition tied_table : DataFrame :=
  mkDataFrame false
    (responses "다" "부평점" "N" None 10 6
     ++ responses "나" "부평점" "N" None 9 3 ++ responses "나" "부평점" "N" None 0 3
     ++ responses "가" "부평점" "N" None 9 3 ++ responses "가" "부평점" "N" None 0 3).

(** The score the metric rounds, for a non-empty sequence. *)
Definition raw_nps (scores : list Score) : Q :=
  ((inject_Z (Num.count_if is_promoter scores - Num.count_if is_detractor scores)
    / inject_Z (Z.of_nat (List.length scores))) * 100)%Q.

(** What a result shows under 필터 조건Y 시니어 비중: the baseline and its two counts. *)
Definition shown_baseline (r : SeniorGapAnalyzer.Result) : option (Q * Z * Z) :=
  match r with
  | SeniorGapAnalyzer.NoData => None
  | SeniorGapAnalyzer.Analysed _ s =>
      Some (SeniorGapAnalyzer.senior_rate_shown s,
            SeniorGapAnalyzer.total_senior_responses s,
            SeniorGapAnalyzer.total_responses s)
  end.

Definition outcome_map (A B : Type) (f : A -> B) (c : Outcome A) : Outcome B :=
  match c with
  | Returns a => Returns (f a)
  | Raises e => Raises e
  end.

(** [matches r s rest]: the pattern [r] matches a prefix of [s] and leaves
    [rest]; what [Re.rmatch] searches for, without the order of the search. *)
Fixpoint matches (r : Re.regex) (s rest : list ascii) : Prop :=
  match r with
  | Re.Lit l => Re.strip_prefix (list_ascii_of_string l) s = Some rest
  | Re.Rep c lo hi => exists i, (lo <= i <= Re.span c hi s)%nat /\ rest = skipn i s
  | Re.Opt r' => matches r' s rest \/ rest = s
  | Re.Alt r1 r2 => matches r1 s rest \/ matches r2 s rest
  | Re.Group r' => matches r' s rest
  | Re.Seq r1 r2 => exists mid, matches r1 s mid /\ matches r2 mid rest
  end.

(** A continuation whose failure does not depend on the groups captured so far. *)
Definition blind (R : Type) (k : list ascii -> list string -> option R) : Prop :=
  forall rest caps1 caps2, k rest caps1 = None -> k rest caps2 = None.

(** *** Vocabulary of the further properties *)

(** The text a pattern consumed when it took [s] to [rest]. *)
Definition consumed (s rest : list ascii) : string :=
  string_of_list_ascii (firstn (List.length s - List.length rest) s).

(** [captures r new]: the groups a successful match of [r] appends, in order. *)
Fixpoint captures (r : Re.regex) (new : list string) : Prop :=
  match r with
  | Re.Lit _ => new = []
  | Re.Rep _ _ _ => new = []
  | Re.Opt r' => captures r' new \/ new = []
  | Re.Alt r1 r2 => captures r1 new \/ captures r2 new
  | Re.Group r' =>
      exists inner s rest,
        captures r' inner /\ matches r' s rest /\ new = inner ++ [consumed s rest]
  | Re.Seq r1 r2 => exists new1 new2, captures r1 new1 /\ captures r2 new2 /\ new = new1 ++ new2
  end.

(** A run of digits, as "(\d+)" captures it: a numeral [int] reads. *)
Definition numeral (text : string) : Prop :=
  text <> EmptyString
  /\ forallb Text.is_digit (list_ascii_of_string text) = true.

(** The literals every match of the pattern runs through. *)
Fixpoint sure (r : Re.regex) : list string :=
  match r with
  | Re.Lit l => [l]
  | Re.Rep _ _ _ => []
  | Re.Opt _ => []
  | Re.Alt _ _ => []
  | Re.Group r' => sure r'
  | Re.Seq r1 r2 => sure r1 ++ sure r2
  end.

(** [needle] occurs in [text]. *)
Definition infix (needle text : list ascii) : Prop :=
  exists before after, text = before ++ needle ++ after.

(** A character [str.lower()] leaves alone and produces from no other. *)
Definition caseless (c : ascii) : bool :=
  negb (((65 <=? Text.code c) && (Text.code c <=? 90))
        || ((97 <=? Text.code c) && (Text.code c <=? 122))).

(** An entry of the filter summary opens with a label; none of the labels
    opens with the two bytes the placeholder "조건 없음" opens with. *)
Definition labelled (entry : string) : bool :=
  match entry with
  | String c1 (String c2 _) => negb ((Text.code c1 =? 236) && (Text.code c2 =? 161))
  | _ => false
  end.

(** [filters] after the sidebar of the application has set the analysis month. *)
Definition with_analysis_month (a : option string) (f : FilterSpec) : FilterSpec :=
  mkFilterSpec a (team f) (dealer_name f) (store_name f)
               (nps_target f) (nps_comparison f) (senior_threshold f)
               (min_responses f) (min_responses_period1 f) (min_responses_period2 f)
               (trend f) (comparison_periods f) (analysis_type f).

(** [ordered R l]: each row of [l] stands in [R] to the row after it. *)
Fixpoint ordered (A : Type) (R : A -> A -> Prop) (l : list A) : Prop :=
  match l with
  | [] => True
  | x :: t => match t with [] => True | y :: _ => R x y end /\ ordered R t
  end.

(** A table that is not empty and has no number in its NPS column. *)
Definition all_nan (table : list SimpleFilterAnalyzer.Grouped) : Prop :=
  table <> [] /\ forall g, In g table -> SimpleFilterAnalyzer.NPS_value g = None.

(** The NPS condition of the simple filter on one row: none without a target
    or a direction, and none for a direction other than the two known ones. *)
Definition meets_nps_target (filters : FilterSpec) (g : SimpleFilterAnalyzer.Grouped) : Prop :=
  match nps_target filters, nps_comparison filters with
  | Some target, Some comparison =>
      if String.eqb comparison "below"
      then exists x, SimpleFilterAnalyzer.NPS_value g = Some x /\ (x < inject_Z target)%Q
      else if String.eqb comparison "above"
      then exists x, SimpleFilterAnalyzer.NPS_value g = Some x /\ (inject_Z target <= x)%Q
      else True
  | _, _ => True
  end.

(** The order of the simple filter's tables: by team, dealer and store, and
    inside one store by NPS, the rows without a number last. *)
Definition by_place_then_nps (a b : SimpleFilterAnalyzer.Grouped) : Prop :=
  let place (g : SimpleFilterAnalyzer.Grouped) :=
    [SimpleFilterAnalyzer.g_team g; SimpleFilterAnalyzer.g_dealer g;
     SimpleFilterAnalyzer.g_store g] in
  Frame.key_compare (place a) (place b) <> Gt
  /\ (Frame.key_compare (place a) (place b) = Eq ->
      Frame.cell_leb (SimpleFilterAnalyzer.NPS_value a) (SimpleFilterAnalyzer.NPS_value b)
      = true).

(** The sum of a column of counts. *)
Definition total (column : list Z) : Z := fold_right Z.add 0 column.

(** The order of the senior gap's table: by falling senior share, and among
    equal shares by rising NPS. *)
Definition by_share_then_nps (a b : SeniorGapAnalyzer.TcrewStat) : Prop :=
  (SeniorGapAnalyzer.s_senior_rate_value b <= SeniorGapAnalyzer.s_senior_rate_value a)%Q
  /\ ((SeniorGapAnalyzer.s_senior_rate_value a == SeniorGapAnalyzer.s_senior_rate_value b)%Q ->
      (SeniorGapAnalyzer.s_NPS_value a <= SeniorGapAnalyzer.s_NPS_value b)%Q).

(** The NPS condition of the senior gap on one row: the target of the
    filters in its direction, and "below 87" when the filters have none. *)
Definition meets_senior_gap_target (filters : FilterSpec)
           (s : SeniorGapAnalyzer.TcrewStat) : Prop :=
  match nps_target filters with
  | None => (SeniorGapAnalyzer.s_NPS_value s < 87)%Q
  | Some target =>
      match nps_comparison filters with
      | Some comparison =>
          if String.eqb comparison "below"
          then (SeniorGapAnalyzer.s_NPS_value s < inject_Z target)%Q
          else (inject_Z target <= SeniorGapAnalyzer.s_NPS_value s)%Q
      | None => (inject_Z target <= SeniorGapAnalyzer.s_NPS_value s)%Q
      end
  end.

(** Agents 가 and 나 have a low senior NPS, agent 다 a high one. *)
Definition senior_gap_table : DataFrame :=
  mkDataFrame false
    (responses "나" "부평점" "Y" None 0 1 ++ responses "나" "부평점" "N" None 9 1
     ++ responses "가" "부평점" "Y" None 9 1 ++ responses "가" "부평점" "Y" None 0 2
     ++ responses "다" "부평점" "Y" None 10 3).

(** [filters] as [parse] and the sidebar leave them for "시니어 비중 0% 이상"
    with a response floor of 1. *)
Definition senior_gap_filters : FilterSpec :=
  mkFilterSpec None None None None None None (Some "custom:0"%string) (Some 1)
               None None None None "senior_gap".

(** The trend condition of the period comparison on one row. *)
Definition follows_trend (filters : FilterSpec) (j : PeriodComparisonAnalyzer.Joined) : Prop :=
  if PeriodComparisonAnalyzer.trend_is filters "decrease"
  then (PeriodComparisonAnalyzer.j_change j < 0)%Q
  else if PeriodComparisonAnalyzer.trend_is filters "increase"
  then (0 < PeriodComparisonAnalyzer.j_change j)%Q
  else True.

(** The NPS condition of the period comparison on one row: it reads the NPS
    of the comparison period. *)
Definition meets_period_target (filters : FilterSpec)
           (j : PeriodComparisonAnalyzer.Joined) : Prop :=
  match nps_target filters with
  | None => True
  | Some target =>
      match nps_comparison filters with
      | Some comparison =>
          if String.eqb comparison "below"
          then (PeriodComparisonAnalyzer.j_period2_NPS_value j < inject_Z target)%Q
          else (inject_Z target <= PeriodComparisonAnalyzer.j_period2_NPS_value j)%Q
      | None => (inject_Z target <= PeriodComparisonAnalyzer.j_period2_NPS_value j)%Q
      end
  end.

(** The order of the period comparison's table: the largest drop first for a
    decrease, the largest rise first for an increase, and the largest change
    in absolute value first otherwise. *)
Definition by_change (filters : FilterSpec) (a b : PeriodComparisonAnalyzer.Joined) : Prop :=
  if PeriodComparisonAnalyzer.trend_is filters "decrease"
  then (PeriodComparisonAnalyzer.j_change a <= PeriodComparisonAnalyzer.j_change b)%Q
  else if PeriodComparisonAnalyzer.trend_is filters "increase"
  then (PeriodComparisonAnalyzer.j_change b <= PeriodComparisonAnalyzer.j_change a)%Q
  else (Qabs (PeriodComparisonAnalyzer.j_change b)
        <= Qabs (PeriodComparisonAnalyzer.j_change a))%Q.

(** [filters] for a month comparison that asks for a decrease, with a
    response floor of 1 in both periods. *)
Definition decrease_filters : FilterSpec :=
  mkFilterSpec None None None None None None None (Some 1) None None
               (Some "decrease"%string) None "period_comparison".

(** Agents 가 and 나 answer in both fallback periods; the NPS of 가 falls
    from 100 to -100 and the NPS of 나 from 100 to 0. *)
Definition declining_table : DataFrame :=
  mkDataFrame true
    (responses "나" "부평점" "N" (Some (mkDate 2025 10 15)) 10 2
     ++ responses "나" "부평점" "N" (Some (mkDate 2026 1 20)) 8 2
     ++ responses "가" "부평점" "N" (Some (mkDate 2025 10 15)) 10 5
     ++ responses "가" "부평점" "N" (Some (mkDate 2026 1 20)) 3 5).

(** A calendar day that exists: the month is one of the twelve and the day
    one of the month's. *)
Definition valid_date (d : Date) : Prop :=
  1 <= month d <= 12
  /\ 1 <= day d
     <= Calendar.mdays (month d)
        + (if (month d =? 2) && Calendar.isleap (year d) then 1 else 0).

(** [syllables j s]: the text [s] opens with [j] Hangul syllables. *)
Fixpoint syllables (j : nat) (s : list ascii) : Prop :=
  match j with
  | O => True
  | S j' => exists rest, QueryParser.hangul_at s = Some rest /\ syllables j' rest
  end.

(** The order of the senior gap's per-store table: as for the agents. *)
Definition stores_by_share_then_nps (a b : SeniorGapAnalyzer.StoreStat) : Prop :=
  (SeniorGapAnalyzer.t_senior_rate_value b <= SeniorGapAnalyzer.t_senior_rate_value a)%Q
  /\ ((SeniorGapAnalyzer.t_senior_rate_value a == SeniorGapAnalyzer.t_senior_rate_value b)%Q ->
      (SeniorGapAnalyzer.t_NPS_value a <= SeniorGapAnalyzer.t_NPS_value b)%Q).

(** The row belongs to an agent the per-agent table lists, and to the store. *)
Definition listed_in_store (result_tcrew : list SeniorGapAnalyzer.TcrewStat)
           (t : SeniorGapAnalyzer.StoreStat) (r : Row) : bool :=
  existsb (String.eqb (r_tcrew_id r)) (map SeniorGapAnalyzer.s_tcrew_id result_tcrew)
  && Frame.key_eqb [r_team r; r_dealer r; r_store r]
                   [SeniorGapAnalyzer.t_team t; SeniorGapAnalyzer.t_dealer t;
                    SeniorGapAnalyzer.t_store t].

(** The order of the period comparison's per-store table, for the [trend]
    argument. *)
Definition stores_by_change (trend : option string)
           (a b : PeriodComparisonAnalyzer.JoinedStore) : Prop :=
  if PeriodComparisonAnalyzer.trend_arg_is trend "decrease"
  then (PeriodComparisonAnalyzer.k_change a <= PeriodComparisonAnalyzer.k_change b)%Q
  else if PeriodComparisonAnalyzer.trend_arg_is trend "increase"
  then (PeriodComparisonAnalyzer.k_change b <= PeriodComparisonAnalyzer.k_change a)%Q
  else (Qabs (PeriodComparisonAnalyzer.k_change b)
        <= Qabs (PeriodComparisonAnalyzer.k_change a))%Q.

(** The trend and NPS conditions of the per-store period comparison on one row. *)
Definition store_follows_trend (trend : option string)
           (j : PeriodComparisonAnalyzer.JoinedStore) : Prop :=
  if PeriodComparisonAnalyzer.trend_arg_is trend "decrease"
  then (PeriodComparisonAnalyzer.k_change j < 0)%Q
  else if PeriodComparisonAnalyzer.trend_arg_is trend "increase"
  then (0 < PeriodComparisonAnalyzer.k_change j)%Q
  else True.

Definition store_meets_period_target (filters : FilterSpec)
           (j : PeriodComparisonAnalyzer.JoinedStore) : Prop :=
  match nps_target filters with
  | None => True
  | Some target =>
      match nps_comparison filters with
      | Some comparison =>
          if String.eqb comparison "below"
          then (PeriodComparisonAnalyzer.k_period2_NPS_value j < inject_Z target)%Q
          else (inject_Z target <= PeriodComparisonAnalyzer.k_period2_NPS_value j)%Q
      | None => (inject_Z target <= PeriodComparisonAnalyzer.k_period2_NPS_value j)%Q
      end
  end.

(** An inner join on a key: one row for each pair of a left and a right row
    with the same key, in the order of the left rows. *)
Definition inner_join (L J : Type) (key : L -> Frame.Key) (join : L -> L -> J)
           (left right : list L) : list J :=
  flat_map (fun l => map (join l) (filter (fun r => Frame.key_eqb (key l) (key r)) right))
           left.


(** * Properties *)

(** ** The NPS metric *)

Section RoundingFacts.

Lemma round_half_even_between (q : Q) (a b : Z) :
  (inject_Z a <= q)%Q -> (q <= inject_Z b)%Q ->
  a <= Num.round_half_even q <= b.
Proof.
  intros Ha Hb.
  assert (Hfa : a <= Qfloor q).
  { rewrite <- (Qfloor_Z a). now apply Qfloor_resp_le. }
  assert (Hfb : Qfloor q <= b).
  { rewrite <- (Qfloor_Z b). now apply Qfloor_resp_le. }
  unfold Num.round_half_even.
  destruct (Z.eq_dec (Qfloor q) b) as [Heq | Hne].
  - (* the floor is already the upper bound: the fraction is zero *)
    assert (Hz : (q - inject_Z (Qfloor q) == 0)%Q).
    { apply Qle_antisym.
      - rewrite Heq. lra.
      - pose proof (Qfloor_le q). lra. }
    rewrite Hz. cbn. lia.
  - destruct (Qcompare _ _); [destruct (Z.even _) | | ]; lia.
Qed.


End RoundingFacts.

Section CountingFacts.

Lemma count_if_nonneg (A : Type) (p : A -> bool) (l : list A) : 0 <= Num.count_if p l.
Proof. unfold Num.count_if. lia. Qed.

Lemma count_if_cons (A : Type) (p : A -> bool) (x : A) (l : list A) :
  Num.count_if p (x :: l) = (if p x then 1 else 0) + Num.count_if p l.
Proof.
  unfold Num.count_if. cbn [filter]. destruct (p x); cbn [List.length]; lia.
Qed.

Lemma promoter_not_detractor (s : Score) : is_promoter s = true -> is_detractor s = false.
Proof.
  destruct s as [v | ]; cbn; [ | reflexivity ].
  intros H. apply Z.leb_le in H. apply Z.leb_gt. lia.
Qed.

Lemma promoters_plus_detractors (scores : list Score) :
  Num.count_if is_promoter scores + Num.count_if is_detractor scores
  <= Z.of_nat (List.length scores).
Proof.
  induction scores as [ | s scores IH]; [ cbn; lia | ].
  rewrite !count_if_cons. cbn [List.length].
  pose proof (promoter_not_detractor s) as Hpd.
  destruct (is_promoter s); [ rewrite Hpd by reflexivity | destruct (is_detractor s) ]; lia.
Qed.



End CountingFacts.

Lemma calculate_nps_nonempty (scores : list Score) :
  scores <> [] -> calculate_nps_body scores = Num.round_ndigits (raw_nps scores) 2.
Proof.
  intros Hne. unfold calculate_nps_body, raw_nps.
  destruct scores as [ | s scores]; [ congruence | ].
  cbn [List.length]. destruct (Z.eqb_spec (Z.of_nat (S (List.length scores))) 0); [ lia | reflexivity ].
Qed.

Lemma round_ndigits_2 (q : Q) :
  Num.round_ndigits q 2 = Qmake (Num.round_half_even (q * 100)) 100.
Proof. reflexivity. Qed.

Lemma raw_nps_scaled (scores : list Score) (d : Z) :
  scores <> [] ->
  Num.count_if is_promoter scores - Num.count_if is_detractor scores = d ->
  (raw_nps scores * 100 == inject_Z (d * 10000) / inject_Z (Z.of_nat (List.length scores)))%Q.
Proof.
  intros Hne Hd. unfold raw_nps. rewrite Hd.
  assert (Hlen : ~ (inject_Z (Z.of_nat (List.length scores)) == 0)%Q).
  { destruct scores; [ congruence | ]. cbn [List.length].
    unfold Qeq. cbn. lia. }
  rewrite inject_Z_mult. field. exact Hlen.
Qed.

Lemma scaled_ratio_between (d n : Z) :
  0 < n -> - n <= d <= n ->
  (inject_Z (-10000) <= inject_Z (d * 10000) / inject_Z n)%Q
  /\ (inject_Z (d * 10000) / inject_Z n <= inject_Z 10000)%Q.
Proof.
  intros Hn Hd.
  assert (Hpos : (0 < inject_Z n)%Q) by (rewrite (Zlt_Qlt 0 n) in Hn; exact Hn).
  split.
  - apply Qle_shift_div_l; [ exact Hpos | ].
    rewrite <- inject_Z_mult, <- Zle_Qle. nia.
  - apply Qle_shift_div_r; [ exact Hpos | ].
    rewrite <- inject_Z_mult, <- Zle_Qle. nia.
Qed.

Lemma calculate_nps_bounds (scores : list Score) :
  (-100 <= calculate_nps_body scores <= 100)%Q.
Proof.
  destruct scores as [ | s scores].
  - cbn. split; discriminate.
  - set (l := s :: scores).
    assert (Hne : l <> []) by discriminate.
    rewrite (calculate_nps_nonempty Hne), round_ndigits_2.
    pose proof (promoters_plus_detractors l) as Hsum.
    pose proof (count_if_nonneg is_promoter l) as Hp.
    pose proof (count_if_nonneg is_detractor l) as Hd.
    assert (Hn : 0 < Z.of_nat (List.length l)) by (subst l; cbn [List.length]; lia).
    assert (Hbetween : -10000 <= Num.round_half_even (raw_nps l * 100) <= 10000).
    { destruct (@scaled_ratio_between
                  (Num.count_if is_promoter l - Num.count_if is_detractor l)
                  (Z.of_nat (List.length l)) Hn) as [Hlo Hhi]; [ lia | ].
      apply round_half_even_between;
        rewrite (raw_nps_scaled Hne eq_refl); assumption. }
    unfold Qle. cbn [Qnum Qden]. lia.
Qed.




Example nps_of_a_mixed_sequence :
  SeniorGapAnalyzer._calculate_nps [Some 9; Some 10; Some 3] = (3333 # 100)%Q
  /\ SeniorGapAnalyzer._calculate_nps [Some 9; None] = (5000 # 100)%Q
  /\ SeniorGapAnalyzer._calculate_nps [Some 10; Some 9] = (10000 # 100)%Q
  /\ SeniorGapAnalyzer._calculate_nps [Some 0; Some 6] = (-10000 # 100)%Q
  /\ SeniorGapAnalyzer._calculate_nps [Some 7; Some 8] = (0 # 100)%Q.
Proof. repeat split; vm_compute; reflexivity. Qed.

(** ** Status bands *)

Ltac reflect_Qle :=
  repeat match goal with
  | H : Qle_bool _ _ = true |- _ => apply Qle_bool_iff in H
  | H : Qle_bool ?a ?b = false |- _ =>
      assert (b < a)%Q
        by (apply Qnot_le_lt; intros Hle; apply Qle_bool_iff in Hle; congruence);
      clear H
  end.

Lemma get_status_cases (delta : Q) :
  (Qle_bool 5 delta = true /\ SimpleFilterAnalyzer.get_status (Some delta) = "🟢 우수"%string)
  \/ (Qle_bool 5 delta = false /\ Qle_bool 0 delta = true
      /\ SimpleFilterAnalyzer.get_status (Some delta) = "🟢 양호"%string)
  \/ (Qle_bool 0 delta = false /\ Qle_bool (-5) delta = true
      /\ SimpleFilterAnalyzer.get_status (Some delta) = "🟠 주의"%string)
  \/ (Qle_bool (-5) delta = false
      /\ SimpleFilterAnalyzer.get_status (Some delta) = "🔴 개선필요"%string).
Proof.
  unfold SimpleFilterAnalyzer.get_status, Frame.cell_geb.
  destruct (Qle_bool 5 delta) eqn:H5; [ now left | ].
  destruct (Qle_bool 0 delta) eqn:H0; [ right; left; auto | ].
  destruct (Qle_bool (-5) delta) eqn:Hm; [ right; right; left; auto | ].
  right; right; right; auto.
Qed.

(** C8.  The four-band status is a total function of the delta, the four
    labels are pairwise distinct, and each label is given on exactly its band:
    excellent for [delta >= 5], good for [0 <= delta < 5], caution for
    [-5 <= delta < 0], needs-improvement for [delta < -5].  The analyzers for
    simple filtering and period comparison band alike, and the boundaries 5, 0
    and -5 fall in excellent, good and caution. *)
Theorem status_bands_partition (delta : Q) :
  NoDup ["🟢 우수"; "🟢 양호"; "🟠 주의"; "🔴 개선필요"]%string
  /\ In (SimpleFilterAnalyzer.get_status (Some delta))
        ["🟢 우수"; "🟢 양호"; "🟠 주의"; "🔴 개선필요"]%string
  /\ (SimpleFilterAnalyzer.get_status (Some delta) = "🟢 우수"%string <-> (5 <= delta)%Q)
  /\ (SimpleFilterAnalyzer.get_status (Some delta) = "🟢 양호"%string
      <-> (0 <= delta /\ delta < 5)%Q)
  /\ (SimpleFilterAnalyzer.get_status (Some delta) = "🟠 주의"%string
      <-> (-5 <= delta /\ delta < 0)%Q)
  /\ (SimpleFilterAnalyzer.get_status (Some delta) = "🔴 개선필요"%string <-> (delta < -5)%Q)
  /\ PeriodComparisonAnalyzer.status delta = SimpleFilterAnalyzer.get_status (Some delta)
  /\ SimpleFilterAnalyzer.get_status (Some 5%Q) = "🟢 우수"%string
  /\ SimpleFilterAnalyzer.get_status (Some 0%Q) = "🟢 양호"%string
  /\ SimpleFilterAnalyzer.get_status (Some (-5)%Q) = "🟠 주의"%string.
Proof.
  split; [ | split ].
  - repeat constructor; cbn; intuition discriminate.
  - destruct (get_status_cases delta) as [[_ ->] | [(_ & _ & ->) | [(_ & _ & ->) | [_ ->]]]];
      cbn; auto.
  - repeat match goal with |- _ /\ _ => split end; try reflexivity;
      destruct (get_status_cases delta) as [[H1 Hs] | [(H1 & H2 & Hs) | [(H1 & H2 & Hs) | [H1 Hs]]]];
      rewrite ?Hs; reflect_Qle;
      (split; [ intros Heq; try discriminate Heq; try lra; try (split; lra)
              | intros Hband; try reflexivity; exfalso; lra ]).
Qed.

(** ** What the matcher accepts *)

Section MatcherFacts.

Import Re.

Variable R : Type.

Lemma give_back_None (n lo : nat) (s : list ascii) (k : list ascii -> option R) :
  (lo <= n)%nat ->
  give_back n lo s k = None <-> forall i, (lo <= i <= n)%nat -> k (skipn i s) = None.
Proof.
  induction n as [ | n IH]; intros Hlo; cbn [give_back].
  - destruct (k (skipn 0 s)) eqn:Hk.
    + split; [ discriminate | ]. intros H. rewrite <- Hk. apply H. lia.
    + split; [ | reflexivity ]. intros _ i Hi. replace i with 0%nat by lia. exact Hk.
  - destruct (k (skipn (S n) s)) eqn:Hk.
    + split; [ discriminate | ]. intros H. rewrite <- Hk. apply H. lia.
    + destruct (Nat.leb_spec lo n) as [Hle | Hgt].
      * rewrite (IH Hle). split.
        -- intros H i Hi. destruct (Nat.eq_dec i (S n)) as [-> | Hne]; [ exact Hk | ].
           apply H. lia.
        -- intros H i Hi. apply H. lia.
      * split; [ | reflexivity ]. intros _ i Hi. replace i with (S n) by lia. exact Hk.
Qed.

(** The backtracking matcher fails exactly when every way of matching leads
    the continuation to fail. *)
Lemma rmatch_None (r : regex) :
  forall (s : list ascii) (caps : list string) (k : list ascii -> list string -> option R),
    blind k ->
    rmatch r s caps k = None <-> forall rest, matches r s rest -> k rest caps = None.
Proof.
  induction r as [l | c lo hi | r' IH | r1 IH1 r2 IH2 | r' IH | r1 IH1 r2 IH2];
    intros s caps k Hk; cbn [rmatch matches].
  - destruct (strip_prefix (list_ascii_of_string l) s) as [rest | ].
    + split; [ intros H rest' [= <-]; exact H | intros H; now apply H ].
    + split; [ intros _ rest' [=] | reflexivity ].
  - destruct (Nat.leb_spec lo (span c hi s)) as [Hle | Hgt].
    + rewrite (give_back_None _ _ Hle). split.
      * intros H rest (i & Hi & ->). now apply H.
      * intros H i Hi. apply H. eauto.
    + split; [ | reflexivity ]. intros _ rest (i & Hi & _). lia.
  - destruct (rmatch r' s caps k) eqn:Hr.
    + split; [ discriminate | ]. intros H. rewrite <- Hr. apply (IH _ _ _ Hk). auto.
    + pose proof (proj1 (IH _ _ _ Hk) Hr) as Hall. split.
      * intros Hs rest [Hm | ->]; auto.
      * intros H. apply H. now right.
  - destruct (rmatch r1 s caps k) eqn:Hr.
    + split; [ discriminate | ]. intros H. rewrite <- Hr. apply (IH1 _ _ _ Hk). auto.
    + pose proof (proj1 (IH1 _ _ _ Hk) Hr) as Hall. rewrite (IH2 _ _ _ Hk). split.
      * intros H2 rest [Hm | Hm]; auto.
      * intros H rest Hm. apply H. now right.
  - rewrite IH.
    + split; intros H rest Hm; specialize (H rest Hm); eapply Hk; exact H.
    + intros rest c1 c2 H. eapply Hk. exact H.
  - assert (Hk2 : blind (fun rest caps' => rmatch r2 rest caps' k)).
    { intros rest c1 c2 H. apply (IH2 _ _ _ Hk). intros rest' Hm.
      eapply Hk. apply (proj1 (IH2 _ _ _ Hk) H). exact Hm. }
    rewrite (IH1 _ _ _ Hk2). split.
    + intros H rest (mid & Hm1 & Hm2). apply (proj1 (IH2 _ _ _ Hk) (H mid Hm1)). exact Hm2.
    + intros H mid Hm1. apply (IH2 _ _ _ Hk). intros rest Hm2. apply H. eauto.
Qed.

End MatcherFacts.

Section SearchFacts.

Import Re.

Lemma rmatch_found_None (r : regex) (t : list ascii) :
  rmatch r t [] (fun _ caps => Some caps) = None <-> forall rest, ~ matches r t rest.
Proof.
  rewrite rmatch_None; [ | intros rest c1 c2 H; discriminate H ].
  split; intros H rest Hm; [ specialize (H rest Hm); discriminate | exfalso; exact (H rest Hm) ].
Qed.

(** [re.search] fails exactly when the pattern matches at no position. *)
Lemma search_from_None (r : regex) (s : list ascii) :
  search_from r s = None
  <-> forall pre t rest, s = pre ++ t -> ~ matches r t rest.
Proof.
  induction s as [ | a s IH]; cbn [search_from].
  - destruct (rmatch r [] [] (fun _ caps => Some caps)) eqn:Hr.
    + split; [ discriminate | ]. intros H.
      assert (Hnone : rmatch r [] [] (fun _ caps => Some caps) = None)
        by (apply rmatch_found_None; intros rest; exact (H [] [] rest eq_refl)).
      congruence.
    + split; [ | reflexivity ]. intros _ pre t rest Hs.
      destruct pre; destruct t; try discriminate.
      now apply rmatch_found_None.
  - destruct (rmatch r (a :: s) [] (fun _ caps => Some caps)) eqn:Hr.
    + split; [ discriminate | ]. intros H.
      assert (Hnone : rmatch r (a :: s) [] (fun _ caps => Some caps) = None)
        by (apply rmatch_found_None; intros rest; exact (H [] (a :: s) rest eq_refl)).
      congruence.
    + rewrite IH. split.
      * intros H pre t rest Hs. destruct pre as [ | b pre].
        -- cbn in Hs. subst t. now apply rmatch_found_None.
        -- injection Hs as _ Hs. exact (H pre t rest Hs).
      * intros H pre t rest Hs. apply (H (a :: pre) t rest). now rewrite Hs.
Qed.

Lemma strip_prefix_app (p s rest : list ascii) :
  strip_prefix p s = Some rest -> s = p ++ rest.
Proof.
  revert s. induction p as [ | a p IH]; intros s; cbn [strip_prefix].
  - now intros [= ->].
  - destruct s as [ | b s]; [ discriminate | ].
    destruct (Ascii.eqb_spec a b) as [-> | ]; [ | discriminate ].
    intros H. cbn. now rewrite (IH _ H).
Qed.

(** The month-range pattern is a number, a tilde, and then the single-month pattern. *)
Lemma pattern2_unfold :
  QueryParser.pattern2
  = Seq (Group (Rep Digit 1 None)) (Seq (Lit "~") QueryParser.pattern1).
Proof. reflexivity. Qed.

(** Wherever the month-range pattern matches, the single-month pattern matches too. *)
Lemma pattern2_is_shadowed (question : string) :
  search QueryParser.pattern1 question = None -> search QueryParser.pattern2 question = None.
Proof.
  unfold search. rewrite !search_from_None. intros H1 pre t rest Hs.
  rewrite pattern2_unfold. cbn [matches].
  intros (mid1 & (i & _ & ->) & mid2 & Htilde & Hm).
  apply strip_prefix_app in Htilde.
  apply (H1 (pre ++ firstn i t ++ list_ascii_of_string "~") mid2 rest); [ | exact Hm ].
  rewrite Hs, <- (firstn_skipn i t) at 1. rewrite Htilde, <- !app_assoc. reflexivity.
Qed.

End SearchFacts.

(** ** The filter summary and a zero NPS target *)

Lemma nps_target_entry_nonzero (f : FilterSpec) (t : Z) :
  nps_target f = Some t -> t <> 0 ->
  exists comparison_text,
    QueryParser.nps_target_entry f
    = [("NPS 목표: " ++ Text.str t ++ "% " ++ comparison_text)%string].
Proof.
  intros Ht Hnz. unfold QueryParser.nps_target_entry, QueryParser.truthy_int.
  rewrite Ht. destruct (Z.eqb_spec t 0) as [ | _ ]; [ contradiction | ].
  cbn [negb]. eexists. reflexivity.
Qed.

(** C10, at the input where the code departs from it.  The question
    "nps 0% 미만인 곳은?" parses to the target 0 with direction below; the
    analyzers test [is not None] and filter on that target; the summary tests
    the truth value of the target and prints no NPS entry for it, for these
    filters and for any with the target 0.  Any non-zero target is printed. *)
Theorem filter_summary_omits_zero_target :
  QueryParser._extract_nps_target "nps 0% 미만인 곳은?" = Returns (Some (0, "below"%string))
  /\ QueryParser.nps_target_entry (parsed (Some 0) (Some "below"%string) 5 "simple_filter") = []
  /\ QueryParser.get_filter_summary (parsed (Some 0) (Some "below"%string) 5 "simple_filter")
     = Returns "최소 응답수: 5건 | 분석 유형: 단순 필터 분석"%string
  /\ QueryParser.get_filter_summary (parsed (Some 1) (Some "below"%string) 5 "simple_filter")
     = Returns "NPS 목표: 1% 미만 | 최소 응답수: 5건 | 분석 유형: 단순 필터 분석"%string
  /\ SimpleFilterAnalyzer.apply_filters
       (parsed (Some 0) (Some "below"%string) 5 "simple_filter")
       [SimpleFilterAnalyzer.mkGrouped "T" "D" "S" "A" 5 5 0 (Some 100%Q)] = []
  /\ (forall f, nps_target f = Some 0 -> QueryParser.nps_target_entry f = [])
  /\ (forall f t, nps_target f = Some t -> t <> 0 -> QueryParser.nps_target_entry f <> []).
Proof.
  repeat split; try (vm_compute; reflexivity).
  - intros f Hf. unfold QueryParser.nps_target_entry. now rewrite Hf.
  - intros f t Ht Hnz Hnil.
    destruct (nps_target_entry_nonzero f Ht Hnz) as [text Htext].
    rewrite Htext in Hnil. discriminate.
Qed.

(** ** The month-range question *)

(** Whatever the question and the analysis month, the first range the
    extraction returns starts and ends in one and the same month. *)
Lemma first_range_within_one_month
      (question : string) (analysis_month : option string)
      (p1s p1e p2s p2e l1 l2 : string) :
  QueryParser._extract_comparison_periods question analysis_month
  = Returns (Some (Periods p1s p1e p2s p2e l1 l2)) ->
  exists y m d, p1s = QueryParser.iso y m 1 /\ p1e = QueryParser.iso y m d.
Proof.
  unfold QueryParser._extract_comparison_periods, QueryParser.get_month_last_day.
  destruct (Re.search QueryParser.pattern1 question) as [m1 | ] eqn:H1.
  - repeat match goal with
           | |- context [bind ?c _] => destruct c; cbn [bind]
           end; try discriminate.
    intros [= <- <- _ _ _ _]. eauto.
  - rewrite (pattern2_is_shadowed question H1).
    destruct (Re.search QueryParser.pattern3 question) as [m3 | ]; [ | discriminate ].
    destruct (truthy analysis_month); [ | discriminate ].
    repeat match goal with
           | |- context [bind ?c _] => destruct c; cbn [bind]
           | |- context [match Re.search ?p ?t with _ => _ end] => destruct (Re.search p t)
           | |- context [if ?c then _ else _] => destruct c
           end; try discriminate.
    intros [= <- <- _ _ _ _]. eauto.
Qed.

(** C3, at the input where the code departs from it, and why.  The question
    "9~12월 대비 1월" has the month-range form (the second pattern matches it
    with the groups 9, 12, 1), but the single-month pattern is tried first and
    matches its tail "12월 대비 1월": whatever the analysis month, the first
    range is December alone, and not September 1st to December 31st.  This
    holds for every question: where the month-range pattern matches, so does
    the single-month pattern, and no first range the extraction returns spans
    more than one month. *)
Theorem month_range_read_as_single_month (analysis_month : option string) :
  Re.search QueryParser.pattern2 "9~12월 대비 1월" = Some ["9"; "12"; "1"]%string
  /\ Re.search QueryParser.pattern1 "9~12월 대비 1월" = Some ["12"; "1"]%string
  /\ QueryParser._extract_comparison_periods "9~12월 대비 1월" analysis_month
     = Returns (Some (Periods "2025-12-01" "2025-12-31" "2026-01-01" "2026-01-31"
                              "12월" "1월"))
  /\ QueryParser._extract_comparison_periods "9~12월 대비 1월" analysis_month
     <> Returns (Some (Periods "2025-09-01" "2025-12-31" "2026-01-01" "2026-01-31"
                               "9~12월" "1월"))
  /\ (forall question,
        Re.search QueryParser.pattern2 question <> None ->
        Re.search QueryParser.pattern1 question <> None)
  /\ (forall question month p1s p1e p2s p2e l1 l2,
        QueryParser._extract_comparison_periods question month
        = Returns (Some (Periods p1s p1e p2s p2e l1 l2)) ->
        exists y m d, p1s = QueryParser.iso y m 1 /\ p1e = QueryParser.iso y m d).
Proof.
  assert (H : QueryParser._extract_comparison_periods "9~12월 대비 1월" analysis_month
              = Returns (Some (Periods "2025-12-01" "2025-12-31" "2026-01-01" "2026-01-31"
                                       "12월" "1월")))
    by (vm_compute; reflexivity).
  split; [ vm_compute; reflexivity | ].
  split; [ vm_compute; reflexivity | ].
  split; [ exact H | ].
  split; [ rewrite H; discriminate | ].
  split.
  - intros question H2 H1. apply H2. now apply pattern2_is_shadowed.
  - intros. eapply first_range_within_one_month. eassumption.
Qed.

(** ** The response floor of the simple filter *)

(** C4, at the input where the code departs from it.  With [min_responses]
    10 and no [min_responses_period1], the simple filter's floor is 5: an
    agent (and a store) with 7 responses stays in the table.  No value of
    [min_responses] changes either table.  The period comparison, on the same
    filters, falls back to 10. *)
Theorem simple_filter_floor_ignores_min_responses :
  (forall f, min_responses_period1 f = None -> SimpleFilterAnalyzer.min_responses_bound f = 5)
  /\ (forall df f m,
        SimpleFilterAnalyzer._analyze_by_tcrew df (with_min_responses m f)
        = SimpleFilterAnalyzer._analyze_by_tcrew df f
        /\ SimpleFilterAnalyzer._analyze_by_store df (with_min_responses m f)
           = SimpleFilterAnalyzer._analyze_by_store df f)
  /\ SimpleFilterAnalyzer.min_responses_bound (parsed None None 10 "simple_filter") = 5
  /\ map (fun g => (SimpleFilterAnalyzer.g_tcrew g, SimpleFilterAnalyzer.g_responses g))
         (fst (SimpleFilterAnalyzer._analyze_by_tcrew
                 (mkDataFrame false (responses "가" "부평점" "N" None 9 7))
                 (parsed None None 10 "simple_filter")))
     = [("가"%string, 7)]
  /\ map (fun g => (SimpleFilterAnalyzer.g_store g, SimpleFilterAnalyzer.g_responses g))
         (SimpleFilterAnalyzer._analyze_by_store
            (mkDataFrame false (responses "가" "부평점" "N" None 9 7))
            (parsed None None 10 "simple_filter"))
     = [("부평점"%string, 7)]
  /\ PeriodComparisonAnalyzer.min_resp_period
       (min_responses_period1 (parsed None None 10 "simple_filter"))
       (parsed None None 10 "simple_filter") = 10.
Proof.
  split; [ | split; [ | repeat split; vm_compute; reflexivity ] ].
  - intros f Hf. unfold SimpleFilterAnalyzer.min_responses_bound. now rewrite Hf.
  - intros df f m. split; reflexivity.
Qed.

(** ** The senior baseline and the response floor *)

Lemma analysed_baseline (df : DataFrame) (f : FilterSpec) (t : list SeniorGapAnalyzer.TcrewStat)
      (s : SeniorGapAnalyzer.Summary) :
  SeniorGapAnalyzer.analyze df f = Returns (SeniorGapAnalyzer.Analysed t s) ->
  exists rows,
    SeniorGapAnalyzer.df_filtered df f = Returns rows
    /\ SeniorGapAnalyzer.senior_rate_shown s = SeniorGapAnalyzer.avg_senior_rate rows.
Proof.
  unfold SeniorGapAnalyzer.analyze.
  destruct (SeniorGapAnalyzer.df_filtered df f) as [rows | e]; cbn [bind]; [ | discriminate ].
  destruct (SeniorGapAnalyzer.tcrew_stats rows); [ discriminate | ].
  destruct (SeniorGapAnalyzer.senior_rate_filter _ _ _); cbn [bind]; [ | discriminate ].
  intros H. injection H as _ Hs. subst s. exists rows. split; reflexivity.
Qed.

(** C7.  Two runs on the same table whose filters differ only in
    [min_responses] work on the same scope-filtered rows, feed the same
    baseline senior share to the senior-share filter, which leaves the same
    agents, and show the same baseline in the summary.  The baseline shown is
    the senior share of the whole scope-filtered table. *)
Theorem senior_baseline_ignores_min_responses
        (df : DataFrame) (f : FilterSpec) (m1 m2 : option Z) :
  SeniorGapAnalyzer.df_filtered df (with_min_responses m1 f)
  = SeniorGapAnalyzer.df_filtered df (with_min_responses m2 f)
  /\ (forall rows,
        SeniorGapAnalyzer.senior_rate_filter (with_min_responses m1 f)
          (SeniorGapAnalyzer.avg_senior_rate rows) (SeniorGapAnalyzer.tcrew_stats rows)
        = SeniorGapAnalyzer.senior_rate_filter (with_min_responses m2 f)
            (SeniorGapAnalyzer.avg_senior_rate rows) (SeniorGapAnalyzer.tcrew_stats rows))
  /\ outcome_map shown_baseline (SeniorGapAnalyzer.analyze df (with_min_responses m1 f))
     = outcome_map shown_baseline (SeniorGapAnalyzer.analyze df (with_min_responses m2 f))
  /\ (forall t s,
        SeniorGapAnalyzer.analyze df (with_min_responses m1 f)
        = Returns (SeniorGapAnalyzer.Analysed t s) ->
        exists rows,
          SeniorGapAnalyzer.df_filtered df f = Returns rows
          /\ SeniorGapAnalyzer.senior_rate_shown s = SeniorGapAnalyzer.avg_senior_rate rows).
Proof.
  assert (Hscope : forall m, SeniorGapAnalyzer.df_filtered df (with_min_responses m f)
                             = SeniorGapAnalyzer.df_filtered df f) by reflexivity.
  assert (Hstep : forall m rate stats,
             SeniorGapAnalyzer.senior_rate_filter (with_min_responses m f) rate stats
             = SeniorGapAnalyzer.senior_rate_filter f rate stats) by reflexivity.
  split; [ | split; [ | split ] ].
  - now rewrite !Hscope.
  - intros rows. now rewrite !Hstep.
  - unfold SeniorGapAnalyzer.analyze. rewrite !Hscope.
    destruct (SeniorGapAnalyzer.df_filtered df f) as [rows | e]; cbn [bind]; [ | reflexivity ].
    destruct (SeniorGapAnalyzer.tcrew_stats rows) eqn:Hstats; [ reflexivity | ].
    rewrite !Hstep.
    destruct (SeniorGapAnalyzer.senior_rate_filter f _ _); reflexivity.
  - intros t s H. destruct (analysed_baseline _ _ H) as (rows & Hrows & Hs).
    rewrite Hscope in Hrows. eauto.
Qed.

(** ** Tables: sorting, keys and groups *)

Section SortFacts.
Variable A : Type.
Variable le : A -> A -> bool.

Lemma insert_by_In (x y : A) (l : list A) :
  In x (Frame.insert_by le y l) <-> x = y \/ In x l.
Proof.
  induction l as [ | z l IH]; cbn.
  - intuition congruence.
  - destruct (le y z); cbn; rewrite ?IH; intuition congruence.
Qed.

Lemma sort_by_In (x : A) (l : list A) : In x (Frame.sort_by le l) <-> In x l.
Proof.
  induction l as [ | y l IH]; cbn; [ tauto | ].
  fold (Frame.sort_by le l). rewrite insert_by_In, IH. intuition congruence.
Qed.

End SortFacts.

Lemma key_eqb_eq (a b : Frame.Key) : Frame.key_eqb a b = true <-> a = b.
Proof.
  revert b. induction a as [ | x a IH]; intros [ | y b]; cbn;
    try (split; [ discriminate | congruence ]); [ tauto | ].
  rewrite andb_true_iff, String.eqb_eq, IH. split; [ intros [-> ->] | intros [= -> ->] ]; auto.
Qed.

(** ** The inner join of the period comparison *)

Section PeriodJoin.

Import PeriodComparisonAnalyzer.

Lemma merge_inner_In (left right : list TcrewStat) (j : Joined) :
  In j (merge_inner left right) ->
  exists l r, In l left /\ In r right /\ stat_key l = stat_key r /\ j = join_rows l r.
Proof.
  unfold merge_inner. rewrite in_flat_map. intros (l & Hl & Hj).
  apply in_map_iff in Hj as (r & <- & Hr).
  apply filter_In in Hr as [Hr Hk]. apply key_eqb_eq in Hk.
  exists l, r. auto.
Qed.

Lemma trend_filter_In (filters : FilterSpec) (result : list Joined) (j : Joined) :
  In j (trend_filter filters result) -> In j result.
Proof.
  unfold trend_filter.
  repeat match goal with |- context [if ?c then _ else _] => destruct c end;
    rewrite ?filter_In; tauto.
Qed.

Lemma nps_target_filter_In (filters : FilterSpec) (result : list Joined) (j : Joined) :
  In j (nps_target_filter filters result) -> In j result.
Proof.
  unfold nps_target_filter. destruct (nps_target filters); [ | tauto ].
  match goal with |- context [if ?c then _ else _] => destruct c end;
    rewrite filter_In; tauto.
Qed.

Lemma min_responses_filter_In (filters : FilterSpec) (result : list Joined) (j : Joined) :
  In j (min_responses_filter filters result) ->
  In j result
  /\ min_resp_period (min_responses_period1 filters) filters <= j_period1_responses j
  /\ min_resp_period (min_responses_period2 filters) filters <= j_period2_responses j.
Proof.
  unfold min_responses_filter. rewrite filter_In, andb_true_iff, !Z.leb_le. tauto.
Qed.

Lemma sort_result_In (filters : FilterSpec) (result : list Joined) (j : Joined) :
  In j (sort_result filters result) <-> In j result.
Proof.
  unfold sort_result.
  repeat match goal with |- context [if ?c then _ else _] => destruct c end;
    apply sort_by_In.
Qed.

(** Whatever the filters, a row of the final table joins a row of each
    period's aggregate on the four key columns. *)
Lemma compare_periods_In (df_period1 df_period2 : list Row) (l1 l2 : string)
      (filters : FilterSpec) (j : Joined) :
  In j (by_tcrew (compare_periods df_period1 df_period2 l1 l2 filters)) ->
  exists a1 a2,
    In a1 (_aggregate_by_tcrew df_period1) /\ In a2 (_aggregate_by_tcrew df_period2)
    /\ stat_key a1 = joined_key j /\ stat_key a2 = joined_key j.
Proof.
  unfold compare_periods.
  destruct (_aggregate_by_tcrew df_period1) as [ | s1 t1] eqn:H1; [ contradiction | ].
  destruct (_aggregate_by_tcrew df_period2) as [ | s2 t2] eqn:H2; [ contradiction | ].
  destruct (merge_inner (s1 :: t1) (s2 :: t2)) as [ | j0 js] eqn:Hm; [ contradiction | ].
  cbn [by_tcrew]. rewrite sort_result_In. intros Hj.
  apply min_responses_filter_In in Hj as [Hj _].
  apply nps_target_filter_In, trend_filter_In in Hj.
  rewrite <- Hm in Hj. apply merge_inner_In in Hj as (l & r & Hl & Hr & Hk & ->).
  exists l, r. repeat split; auto.
Qed.

(** C6.  Every row of the per-agent result of the period comparison carries
    a key (agent, agent id, dealer, store) that is a key of period 1's
    aggregate and a key of period 2's aggregate, for the periods the analyzer
    resolved: an agent whose key is missing from either aggregate is in no
    result, whatever the table, the periods and the trend, target and
    response-floor filters. *)
Theorem inner_join_exclusive (Timestamp : string -> Outcome Date)
        (df : DataFrame) (filters : FilterSpec) (result : Result) (j : Joined) :
  analyze Timestamp df filters = Returns result ->
  In j (by_tcrew result) ->
  exists period1_start period1_end period2_start period2_end period1_label period2_label,
    resolve_periods Timestamp filters
    = Returns (period1_start, period1_end, period2_start, period2_end,
               period1_label, period2_label)
    /\ In (joined_key j)
          (map stat_key
               (_aggregate_by_tcrew (filter (in_period period1_start period1_end) (rows df))))
    /\ In (joined_key j)
          (map stat_key
               (_aggregate_by_tcrew (filter (in_period period2_start period2_end) (rows df)))).
Proof.
  unfold analyze. intros Hrun Hj.
  destruct (has_date_column df); cbn [negb] in Hrun;
    [ | injection Hrun as <-; contradiction ].
  assert (Hgo : (p <- resolve_periods Timestamp filters ;;
                 let '(s1, e1, s2, e2, l1, l2) := p in
                 Returns (compare_periods (filter (in_period s1 e1) (rows df))
                                          (filter (in_period s2 e2) (rows df)) l1 l2 filters))
                = Returns result).
  { destruct (comparison_periods filters) as [[ | [ | c e] ? ?] | ]; try exact Hrun.
    injection Hrun as <-. contradiction. }
  clear Hrun.
  destruct (resolve_periods Timestamp filters) as [[[[[[s1 e1] s2] e2] l1] l2] | exc];
    cbn [bind] in Hgo; [ | discriminate ].
  injection Hgo as <-.
  apply compare_periods_In in Hj as (a1 & a2 & Ha1 & Ha2 & Hk1 & Hk2).
  exists s1, e1, s2, e2, l1, l2. repeat split.
  - rewrite <- Hk1. now apply in_map.
  - rewrite <- Hk2. now apply in_map.
Qed.

End PeriodJoin.

Lemma inner_join_exclusive_witness :
  exists period1_start period1_end period2_start period2_end period1_label period2_label,
    PeriodComparisonAnalyzer.resolve_periods no_timestamp
      (parsed None None 5 "period_comparison")
    = Returns (period1_start, period1_end, period2_start, period2_end,
               period1_label, period2_label)
    /\ In ["가"; "가-id"; "대리점"; "부평점"]%string
          (map PeriodComparisonAnalyzer.stat_key
               (PeriodComparisonAnalyzer._aggregate_by_tcrew
                  (filter (PeriodComparisonAnalyzer.in_period period1_start period1_end)
                          (rows two_period_table))))
    /\ In ["가"; "가-id"; "대리점"; "부평점"]%string
          (map PeriodComparisonAnalyzer.stat_key
               (PeriodComparisonAnalyzer._aggregate_by_tcrew
                  (filter (PeriodComparisonAnalyzer.in_period period2_start period2_end)
                          (rows two_period_table)))).
Proof.
  apply (@inner_join_exclusive no_timestamp two_period_table
           (parsed None None 5 "period_comparison")
           (PeriodComparisonAnalyzer.Compared
              [PeriodComparisonAnalyzer.mkJoined "가" "가-id" "대리점" "부평점"
                 (10000 # 100) 5 (-10000 # 100) 5 (-2000000 # 10000)]
              "9~12월" "1월")
           (PeriodComparisonAnalyzer.mkJoined "가" "가-id" "대리점" "부평점"
              (10000 # 100) 5 (-10000 # 100) 5 (-2000000 # 10000))).
  - vm_compute. reflexivity.
  - left. reflexivity.
Defined.

(** ** The error marker of the day-range comparison *)




(** ** The senior-NPS filter of the senior gap *)

Section SeniorNps.

Import SeniorGapAnalyzer.

Lemma senior_rate_filter_In (filters : FilterSpec) (rate : Q)
      (stats survivors : list TcrewStat) (s : TcrewStat) :
  senior_rate_filter filters rate stats = Returns survivors -> In s survivors -> In s stats.
Proof.
  unfold senior_rate_filter.
  repeat match goal with
         | |- context [if ?c then _ else _] => destruct c
         | |- context [float ?t] => destruct (float t); cbn [bind]
         end;
    intros H; try discriminate H; injection H as <-; rewrite ?filter_In; tauto.
Qed.


Lemma senior_nps_filter_In (baseline : Q) (result : list TcrewStat) (s : TcrewStat) :
  In s (senior_nps_filter baseline result)
  <-> In s result /\ 0 < s_senior_responses s /\ (s_senior_nps_cell s < baseline)%Q.
Proof.
  unfold senior_nps_filter. destruct result as [ | r result]; [ cbn; tauto | ].
  rewrite !filter_In, Z.ltb_lt, negb_true_iff.
  split.
  - intros [[Hin Hpos] Hlt]. repeat split; auto.
    apply Qnot_le_lt. intros Hle. apply Qle_bool_iff in Hle. congruence.
  - intros (Hin & Hpos & Hlt). repeat split; auto.
    destruct (Qle_bool baseline (s_senior_nps_cell s)) eqn:Hle; [ | reflexivity ].
    apply Qle_bool_iff in Hle. exfalso. apply (Qlt_not_le _ _ Hlt Hle).
Qed.






End SeniorNps.

(** ** The worst-agent insight of the simple filter *)

Section WorstRow.

Import Frame SimpleFilterAnalyzer.

Lemma Qle_bool_total (x y : Q) : Qle_bool x y = false -> Qle_bool y x = true.
Proof.
  intros H. apply Qle_bool_iff. apply Qlt_le_weak, Qnot_le_lt.
  intros Hle. apply Qle_bool_iff in Hle. congruence.
Qed.

(** The least number of a series is one of its cells and bounds the others. *)
Lemma series_min_spec (cells : list Cell) (m : Q) :
  series_min cells = Some m ->
  In (Some m) cells /\ forall x, In (Some x) cells -> (m <= x)%Q.
Proof.
  revert m. induction cells as [ | c cells IH]; intros m; cbn [series_min]; [ discriminate | ].
  destruct c as [x | ].
  - destruct (series_min cells) as [m' | ] eqn:Hmin.
    + destruct (IH m' eq_refl) as [Hin Hle].
      destruct (Qle_bool x m') eqn:Hx; intros [= <-].
      * apply Qle_bool_iff in Hx. split; [ now left | ].
        intros y [[= <-] | Hy]; [ apply Qle_refl | ].
        eapply Qle_trans; [ exact Hx | now apply Hle ].
      * apply Qle_bool_total, Qle_bool_iff in Hx. split; [ now right | ].
        intros y [[= <-] | Hy]; [ exact Hx | now apply Hle ].
    + intros [= <-]. split; [ now left | ].
      intros y [[= <-] | Hy]; [ apply Qle_refl | ].
      exfalso. clear IH. induction cells as [ | c cells IHc]; [ contradiction | ].
      cbn [series_min] in Hmin. destruct c as [z | ].
      * destruct (series_min cells); [ destruct (Qle_bool z q) | ]; discriminate.
      * destruct Hy as [Hy | Hy]; [ discriminate | auto ].
  - intros Hmin. destruct (IH m Hmin) as [Hin Hle]. split; [ now right | ].
    intros y [Hy | Hy]; [ discriminate | now apply Hle ].
Qed.




Lemma apply_filters_In (filters : FilterSpec) (grouped : list Grouped) (g : Grouped) :
  In g (apply_filters filters grouped) ->
  In g grouped /\ min_responses_bound filters <= g_responses g.
Proof.
  unfold apply_filters.
  assert (Hbase : In g (filter (fun g => min_responses_bound filters <=? g_responses g) grouped)
                  -> In g grouped /\ min_responses_bound filters <= g_responses g)
    by (rewrite filter_In, Z.leb_le; tauto).
  destruct (nps_target filters); [ | exact Hbase ].
  destruct (nps_comparison filters); [ | exact Hbase ].
  repeat match goal with |- context [if ?c then _ else _] => destruct c end;
    try exact Hbase; rewrite filter_In; intros [H _]; exact (Hbase H).
Qed.

Lemma dedup_by_In (A : Type) (eqb : A -> A -> bool) (l : list A) (x : A) :
  In x (dedup_by eqb l) -> In x l.
Proof.
  induction l as [ | a l IH]; cbn [dedup_by]; [ tauto | ].
  intros [-> | Hx]; [ now left | ].
  apply filter_In in Hx as [Hx _]. right. auto.
Qed.

(** A group of [groupby] holds the rows with its key, and at least one. *)
Lemma groupby_In (A : Type) (key : A -> Key) (l : list A) (k : Key) (group : list A) :
  In (k, group) (groupby key l) ->
  group = filter (fun r => key_eqb (key r) k) l /\ exists r, In r group.
Proof.
  unfold groupby. rewrite in_map_iff. intros (k' & [= -> <-] & Hk).
  split; [ reflexivity | ].
  apply sort_by_In, dedup_by_In, in_map_iff in Hk as (r & <- & Hr).
  exists r. apply filter_In. split; [ exact Hr | ]. now apply key_eqb_eq.
Qed.






End WorstRow.

Example tied_table_insight :
  option_map (fun b => hd_error (SimpleFilterAnalyzer.insights b))
             (match SimpleFilterAnalyzer.analyze tied_table (parsed None None 5 "simple_filter") with
              | Returns b => Some b
              | Raises _ => None
              end)
  = Some (Some (SimpleFilterAnalyzer.LowestTcrewAndOthers "가" "부평점" 1 (Some (0 # 10)))).
Proof. vm_compute. reflexivity. Qed.

(** * Further properties *)

(** ** What a successful match captured *)

Section MatchResults.

Import Re.

Variable R : Type.

Lemma give_back_Some (n lo : nat) (s : list ascii) (k : list ascii -> option R) (x : R) :
  (lo <= n)%nat ->
  give_back n lo s k = Some x ->
  exists i, (lo <= i <= n)%nat /\ k (skipn i s) = Some x.
Proof.
  induction n as [ | n IH]; intros Hlo; cbn [give_back].
  - destruct (k (skipn 0 s)) eqn:Hk; [ | discriminate ].
    intros [= <-]. exists 0%nat. split; [ lia | exact Hk ].
  - destruct (k (skipn (S n) s)) eqn:Hk.
    + intros [= <-]. exists (S n). split; [ lia | exact Hk ].
    + destruct (Nat.leb_spec lo n) as [Hle | Hgt]; [ | discriminate ].
      intros H. destruct (IH Hle H) as (i & Hi & Hki). exists i. split; [ lia | exact Hki ].
Qed.

(** A successful run of the matcher took the text to some [rest] the pattern
    matches, and handed the continuation the groups it captured on the way. *)
Lemma rmatch_Some (r : regex) :
  forall (s : list ascii) (caps : list string)
         (k : list ascii -> list string -> option R) (x : R),
    rmatch r s caps k = Some x ->
    exists rest new, matches r s rest /\ captures r new /\ k rest (caps ++ new) = Some x.
Proof.
  induction r as [l | c lo hi | r' IH | r1 IH1 r2 IH2 | r' IH | r1 IH1 r2 IH2];
    intros s caps k x; cbn [rmatch matches captures].
  - destruct (strip_prefix (list_ascii_of_string l) s) as [rest | ]; [ | discriminate ].
    intros H. exists rest, []. rewrite app_nil_r. auto.
  - destruct (Nat.leb_spec lo (span c hi s)) as [Hle | Hgt]; [ | discriminate ].
    intros H. apply give_back_Some in H as (i & Hi & Hk); [ | exact Hle ].
    exists (skipn i s), []. rewrite app_nil_r. eauto.
  - destruct (rmatch r' s caps k) eqn:Hr.
    + intros [= <-]. destruct (IH _ _ _ _ Hr) as (rest & new & Hm & Hc & Hk).
      exists rest, new. auto.
    + intros H. exists s, []. rewrite app_nil_r. auto.
  - destruct (rmatch r1 s caps k) eqn:Hr.
    + intros [= <-]. destruct (IH1 _ _ _ _ Hr) as (rest & new & Hm & Hc & Hk).
      exists rest, new. auto.
    + intros H. destruct (IH2 _ _ _ _ H) as (rest & new & Hm & Hc & Hk).
      exists rest, new. auto.
  - intros H. destruct (IH _ _ _ _ H) as (rest & inner & Hm & Hc & Hk).
    exists rest, (inner ++ [consumed s rest]).
    split; [ exact Hm | split; [ exists inner, s, rest; auto | rewrite app_assoc; exact Hk ] ].
  - intros H. destruct (IH1 _ _ _ _ H) as (mid & new1 & Hm1 & Hc1 & Hk1).
    destruct (IH2 _ _ _ _ Hk1) as (rest & new2 & Hm2 & Hc2 & Hk2).
    exists rest, (new1 ++ new2).
    split; [ exists mid; auto | split; [ exists new1, new2; auto | rewrite app_assoc; exact Hk2 ] ].
Qed.

End MatchResults.

Section SearchResults.

Import Re.

(** What [re.search] returns: the groups of a match at some position. *)
Lemma search_Some (r : regex) (text : string) (m : Match) :
  search r text = Some m ->
  exists pre t rest,
    list_ascii_of_string text = pre ++ t /\ matches r t rest /\ captures r m.
Proof.
  unfold search. generalize (list_ascii_of_string text). intros s.
  induction s as [ | a s IH]; cbn [search_from].
  - destruct (rmatch r [] [] (fun _ caps => Some caps)) eqn:Hr; [ | discriminate ].
    intros [= <-]. apply rmatch_Some in Hr as (rest & new & Hm & Hc & [= <-]).
    exists [], [], rest. auto.
  - destruct (rmatch r (a :: s) [] (fun _ caps => Some caps)) eqn:Hr.
    + intros [= <-]. apply rmatch_Some in Hr as (rest & new & Hm & Hc & [= <-]).
      exists [], (a :: s), rest. auto.
    + intros H. destruct (IH H) as (pre & t & rest & -> & Hm & Hc).
      exists (a :: pre), t, rest. auto.
Qed.

Lemma span_all (k : cls) (hi : option nat) (s : list ascii) (i : nat) :
  (i <= span k hi s)%nat -> forallb (in_cls k) (firstn i s) = true.
Proof.
  revert hi s. induction i as [ | i IH]; intros hi s Hi; [ reflexivity | ].
  destruct s as [ | c s]; [ destruct hi as [[ | ?] | ]; cbn in Hi; lia | ].
  cbn [firstn forallb].
  destruct hi as [[ | h] | ]; cbn [span option_map] in Hi; try lia;
    destruct (in_cls k c) eqn:Hc; try lia; cbn [andb]; eapply IH; apply le_S_n; exact Hi.
Qed.

Lemma span_length (k : cls) (hi : option nat) (s : list ascii) :
  (span k hi s <= List.length s)%nat.
Proof.
  revert hi. induction s as [ | c s IH]; intros hi.
  - destruct hi as [[ | ?] | ]; cbn; lia.
  - destruct hi as [[ | h] | ]; cbn [span option_map List.length Nat.pred]; try lia;
      destruct (in_cls k c); try lia.
    + specialize (IH (Some h)). lia.
    + specialize (IH None). lia.
Qed.

End SearchResults.

(** ** Numerals and [int] *)

Section Numerals.

Import Re.

Lemma int_acc_digits (s : string) :
  forall acc, 0 <= acc ->
    forallb Text.is_digit (list_ascii_of_string s) = true ->
    exists z, Text.int_acc acc s = Some z /\ 0 <= z.
Proof.
  induction s as [ | c s IH]; intros acc Hacc; cbn [list_ascii_of_string forallb Text.int_acc].
  - eauto.
  - intros H. apply andb_true_iff in H as [Hc Hs]. rewrite Hc. apply IH; [ | exact Hs ].
    unfold Text.is_digit in Hc. apply andb_true_iff in Hc as [Hlo _].
    apply Z.leb_le in Hlo. lia.
Qed.

(** [int] reads every numeral, and reads it as a number that is not negative. *)
Lemma int_numeral (text : string) :
  numeral text -> exists z, Text.int text = Returns z /\ 0 <= z.
Proof.
  intros [Hne Hdigits]. unfold Text.int.
  destruct (@int_acc_digits text 0 (Z.le_refl 0) Hdigits) as (z & Hz & Hpos).
  destruct text; [ congruence | ]. rewrite Hz. eauto.
Qed.

Lemma consumed_skipn (s : list ascii) (i : nat) :
  (i <= List.length s)%nat -> consumed s (skipn i s) = string_of_list_ascii (firstn i s).
Proof.
  intros Hi. unfold consumed. rewrite length_skipn.
  replace (List.length s - (List.length s - i))%nat with i by lia. reflexivity.
Qed.

(** What "(\d+)", "(\d{4})" and "(\d{1,2})" capture is a numeral. *)
Lemma digits_consumed (lo : nat) (hi : option nat) (s rest : list ascii) :
  matches (Rep Digit (S lo) hi) s rest -> numeral (consumed s rest).
Proof.
  cbn [matches]. intros (i & Hi & ->).
  pose proof (span_length Digit hi s) as Hlen.
  rewrite consumed_skipn by lia. split.
  - destruct s as [ | c s]; [ cbn [List.length] in Hlen; lia | ].
    destruct i as [ | i]; [ lia | ]. cbn. discriminate.
  - rewrite list_ascii_of_string_of_list_ascii.
    apply (span_all Digit hi s). lia.
Qed.

End Numerals.

(** Opens the [captures] of a concrete pattern into its groups. *)
Ltac open_captures H :=
  cbv [QueryParser.pattern1 QueryParser.pattern2 QueryParser.pattern3
       QueryParser.year_month_pattern QueryParser.nps_below_pattern
       QueryParser.nps_above_pattern QueryParser.senior_custom_pattern
       QueryParser.min_responses_pattern QueryParser.store_code_pattern
       QueryParser.month_pattern QueryParser.date_pattern Re.cat Re.alts] in H;
  cbn [captures] in H;
  repeat match type of H with
         | exists _, _ => let x := fresh "x" in destruct H as [x H]
         | _ /\ _ => let H1 := fresh "Hc" in destruct H as [H1 H]
         end.

Ltac split_captures :=
  repeat match goal with
         | H : exists _, _ |- _ => destruct H
         | H : _ /\ _ |- _ => destruct H
         | H : _ \/ _ |- _ => destruct H
         | H : captures _ _ |- _ => progress cbn [captures] in H
         end; subst; cbn [app] in *.

(** ** The comparison-period extraction raises one exception only *)

Lemma monthrange_raises (y m : Z) (e : string) :
  Calendar.monthrange_ndays y m = Raises e -> e = "IllegalMonthError"%string.
Proof.
  unfold Calendar.monthrange_ndays. destruct ((1 <=? m) && (m <=? 12)); [ discriminate | ].
  now intros [= <-].
Qed.

Lemma pattern1_groups (question : string) (m : Re.Match) :
  Re.search QueryParser.pattern1 question = Some m ->
  exists g1 g2, m = [g1; g2] /\ numeral g1 /\ numeral g2.
Proof.
  intros H. apply search_Some in H as (pre & t & rest & _ & _ & Hc).
  cbv [QueryParser.pattern1 Re.cat] in Hc. split_captures.
  do 2 eexists. split; [ reflexivity | ].
  split; eapply digits_consumed; eassumption.
Qed.

Ltac groups_of H :=
  apply search_Some in H as (? & ? & ? & _ & _ & H);
  cbv [QueryParser.pattern1 QueryParser.pattern2 QueryParser.pattern3
       QueryParser.year_month_pattern QueryParser.nps_below_pattern
       QueryParser.nps_above_pattern QueryParser.senior_custom_pattern
       QueryParser.min_responses_pattern QueryParser.store_code_pattern
       QueryParser.month_pattern QueryParser.date_pattern Re.cat Re.alts] in H;
  split_captures.

Ltac numerals :=
  repeat match goal with
         | |- exists _, _ => eexists
         | |- _ /\ _ => split
         | |- _ = _ => reflexivity
         | |- numeral _ => eapply digits_consumed; eassumption
         end.

Lemma pattern2_groups (question : string) (m : Re.Match) :
  Re.search QueryParser.pattern2 question = Some m ->
  exists g1 g2 g3, m = [g1; g2; g3] /\ numeral g1 /\ numeral g2 /\ numeral g3.
Proof. intros H. groups_of H; numerals. Qed.

Lemma pattern3_groups (question : string) (m : Re.Match) :
  Re.search QueryParser.pattern3 question = Some m ->
  exists g1 g2, m = [g1; g2] /\ numeral g1 /\ numeral g2.
Proof. intros H. groups_of H; numerals. Qed.

Lemma year_month_groups (text : string) (m : Re.Match) :
  Re.search QueryParser.year_month_pattern text = Some m ->
  exists g1 g2, m = [g1; g2] /\ numeral g1 /\ numeral g2.
Proof. intros H. groups_of H; numerals. Qed.

Lemma nps_below_groups (question : string) (m : Re.Match) :
  Re.search QueryParser.nps_below_pattern question = Some m ->
  exists g1 g2, m = [g1; g2] /\ numeral g1.
Proof. intros H. groups_of H; numerals. Qed.

Lemma nps_above_groups (question : string) (m : Re.Match) :
  Re.search QueryParser.nps_above_pattern question = Some m ->
  exists g1 g2, m = [g1; g2] /\ numeral g1.
Proof. intros H. groups_of H; numerals. Qed.

Lemma senior_custom_groups (question : string) (m : Re.Match) :
  Re.search QueryParser.senior_custom_pattern question = Some m ->
  exists g1 g2, m = [g1; g2] /\ numeral g1.
Proof. intros H. groups_of H; numerals. Qed.

Lemma min_responses_groups (question : string) (m : Re.Match) :
  Re.search QueryParser.min_responses_pattern question = Some m ->
  exists g1, m = [g1] /\ numeral g1.
Proof. intros H. groups_of H; numerals. Qed.

Lemma month_groups (question : string) (m : Re.Match) :
  Re.search QueryParser.month_pattern question = Some m ->
  exists g1, m = [g1] /\ numeral g1.
Proof. intros H. groups_of H; numerals. Qed.

Lemma date_groups (question : string) (m : Re.Match) :
  Re.search QueryParser.date_pattern question = Some m ->
  exists g1 g2, m = [g1; g2] /\ numeral g1 /\ numeral g2.
Proof. intros H. groups_of H; numerals. Qed.

(** Rewrites [int] of a known numeral to the number it returns. *)
Ltac read_int g :=
  match goal with
  | Hn : numeral g |- _ =>
      let z := fresh "z" in
      let Hz := fresh "Hz" in
      let Hpos := fresh "Hpos" in
      destruct (int_numeral Hn) as (z & Hz & Hpos);
      cbn [Re.group nth Nat.pred]; rewrite ?Hz; cbn [bind]
  end.

(** Two calls of [calendar.monthrange] in a row raise nothing but
    [IllegalMonthError]. *)
Lemma month_pair_raises (A : Type) (y1 m1 y2 m2 : Z) (k : Z -> Z -> A) (exc : string) :
  (d1 <- Calendar.monthrange_ndays y1 m1 ;;
   d2 <- Calendar.monthrange_ndays y2 m2 ;;
   Returns (k d1 d2)) = Raises exc ->
  exc = "IllegalMonthError"%string.
Proof.
  destruct (Calendar.monthrange_ndays y1 m1) as [d1 | e1] eqn:H1; cbn [bind].
  - destruct (Calendar.monthrange_ndays y2 m2) as [d2 | e2] eqn:H2; cbn [bind];
      [ discriminate | ].
    intros [= <-]. eapply monthrange_raises; eassumption.
  - intros [= <-]. eapply monthrange_raises; eassumption.
Qed.

(** X1.  Whatever the question and the analysis month, the comparison-period
    extraction raises nothing but [IllegalMonthError]: the groups it converts
    are runs of digits, so [int] never fails, and the only call left that can
    raise is [calendar.monthrange] on a month outside 1..12. *)
Theorem extraction_raises_only_illegal_month
        (question : string) (analysis_month : option string) (exc : string) :
  QueryParser._extract_comparison_periods question analysis_month = Raises exc ->
  exc = "IllegalMonthError"%string.
Proof.
  unfold QueryParser._extract_comparison_periods, QueryParser.get_month_last_day.
  destruct (Re.search QueryParser.pattern1 question) as [m1 | ] eqn:H1.
  - destruct (pattern1_groups _ H1) as (g1 & g2 & -> & Hn1 & Hn2).
    read_int g1. read_int g2. apply month_pair_raises.
  - destruct (Re.search QueryParser.pattern2 question) as [m2 | ] eqn:H2.
    + destruct (pattern2_groups _ H2) as (g1 & g2 & g3 & -> & Hn1 & Hn2 & Hn3).
      read_int g1. read_int g2. read_int g3. apply month_pair_raises.
    + destruct (Re.search QueryParser.pattern3 question) as [m3 | ] eqn:H3; [ | discriminate ].
      destruct (truthy analysis_month); [ | discriminate ].
      destruct (pattern3_groups _ H3) as (g1 & g2 & -> & Hn1 & Hn2).
      read_int g1. read_int g2.
      destruct (Re.search QueryParser.year_month_pattern _) as [ym | ] eqn:Hym; [ | discriminate ].
      destruct (year_month_groups _ Hym) as (y1 & y2 & -> & Hy1 & Hy2).
      read_int y1. read_int y2.
      destruct (Calendar.monthrange_ndays _ _) eqn:Hmr; cbn [bind].
      * destruct (_ || _); discriminate.
      * intros [= <-]. eapply monthrange_raises; eassumption.
Qed.

Lemma extraction_raises_witness :
  QueryParser._extract_comparison_periods "13월 대비 1월" None = Raises "IllegalMonthError"
  /\ "IllegalMonthError"%string = "IllegalMonthError"%string.
Proof.
  split; [ vm_compute; reflexivity | ].
  exact (@extraction_raises_only_illegal_month "13월 대비 1월" None "IllegalMonthError"
           ltac:(vm_compute; reflexivity)).
Defined.
(** ** Literals a match must contain *)

Section Literals.

Import Re.

Lemma infix_app_l (needle a b : list ascii) : infix needle a -> infix needle (a ++ b).
Proof.
  intros (x & y & ->). exists x, (y ++ b). now rewrite <- !app_assoc.
Qed.

Lemma infix_app_r (needle a b : list ascii) : infix needle b -> infix needle (a ++ b).
Proof.
  intros (x & y & ->). exists (a ++ x), y. now rewrite <- !app_assoc.
Qed.

Lemma matches_runs_through (r : regex) :
  forall s rest,
    matches r s rest ->
    exists used,
      s = used ++ rest
      /\ forall l, In l (sure r) -> infix (list_ascii_of_string l) used.
Proof.
  induction r as [l | c lo hi | r' IH | r1 IH1 r2 IH2 | r' IH | r1 IH1 r2 IH2];
    intros s rest; cbn [matches sure].
  - intros H. apply strip_prefix_app in H. exists (list_ascii_of_string l).
    split; [ exact H | ]. intros l' [<- | []]. exists [], []. now rewrite app_nil_r.
  - intros (i & _ & ->). exists (firstn i s).
    split; [ symmetry; apply firstn_skipn | intros l [] ].
  - intros [H | ->].
    + destruct (IH _ _ H) as (used & Hs & _). exists used. split; [ exact Hs | intros l [] ].
    + exists []. split; [ reflexivity | intros l [] ].
  - intros [H | H]; [ destruct (IH1 _ _ H) as (used & Hs & _)
                    | destruct (IH2 _ _ H) as (used & Hs & _) ];
      exists used; (split; [ exact Hs | intros l [] ]).
  - apply IH.
  - intros (mid & H1 & H2).
    destruct (IH1 _ _ H1) as (used1 & -> & Hl1).
    destruct (IH2 _ _ H2) as (used2 & -> & Hl2).
    exists (used1 ++ used2). split; [ now rewrite app_assoc | ].
    intros l Hl. apply in_app_or in Hl as [Hl | Hl].
    + apply infix_app_l. auto.
    + apply infix_app_r. auto.
Qed.

Lemma strip_prefix_self (needle after : list ascii) :
  strip_prefix needle (needle ++ after) = Some after.
Proof.
  induction needle as [ | a needle IH]; cbn; [ reflexivity | ].
  now rewrite Ascii.eqb_refl.
Qed.

Lemma contains_from_eq (needle hay : list ascii) :
  contains_from needle hay
  = match strip_prefix needle hay with
    | Some _ => true
    | None => match hay with [] => false | _ :: hay' => contains_from needle hay' end
    end.
Proof. destruct hay; reflexivity. Qed.

Lemma contains_from_infix (needle text : list ascii) :
  infix needle text -> contains_from needle text = true.
Proof.
  intros (before & after & ->).
  induction before as [ | x before IH]; cbn [app].
  - now rewrite contains_from_eq, strip_prefix_self.
  - rewrite contains_from_eq.
    destruct (strip_prefix needle (x :: before ++ needle ++ after));
      [ reflexivity | exact IH ].
Qed.

(** Without one of its sure literals in the text, a pattern is not found. *)
Lemma search_needs_literal (r : regex) (l text : string) :
  In l (sure r) -> contains l text = false -> search r text = None.
Proof.
  intros Hl Hc. unfold search. apply search_from_None. intros pre t rest Hs Hm.
  destruct (matches_runs_through _ _ _ Hm) as (used & -> & Hused).
  unfold contains in Hc. rewrite Hs, contains_from_infix in Hc; [ discriminate | ].
  apply infix_app_r, infix_app_l. auto.
Qed.

End Literals.

(** ** Lower-casing and caseless keywords *)

Section Lowering.

Import Re.

Lemma code_inj (a b : ascii) : Text.code a = Text.code b -> a = b.
Proof.
  unfold Text.code. intros H. apply N2Z.inj in H.
  rewrite <- (ascii_N_embedding a), <- (ascii_N_embedding b). now rewrite H.
Qed.

Lemma code_lower_upper (b : ascii) :
  65 <= Text.code b <= 90 -> Text.code (ascii_of_N (N_of_ascii b + 32)) = Text.code b + 32.
Proof.
  unfold Text.code. intros H. rewrite N_ascii_embedding by lia. lia.
Qed.

Lemma eqb_lower_char (a b : ascii) :
  caseless a = true -> Ascii.eqb a (QueryParser.lower_char b) = Ascii.eqb a b.
Proof.
  unfold caseless, QueryParser.lower_char. intros Ha.
  destruct ((65 <=? Text.code b) && (Text.code b <=? 90)) eqn:Hb; [ | reflexivity ].
  apply andb_true_iff in Hb as [Hb1 Hb2]. apply Z.leb_le in Hb1, Hb2.
  pose proof (@code_lower_upper b (conj Hb1 Hb2)) as Hcode.
  apply negb_true_iff, orb_false_iff in Ha as [Hup Hlow].
  destruct (Ascii.eqb_spec a (ascii_of_N (N_of_ascii b + 32))) as [-> | _].
  - rewrite Hcode in Hlow.
    assert (((97 <=? Text.code b + 32) && (Text.code b + 32 <=? 122)) = true)
      by (apply andb_true_iff; split; apply Z.leb_le; lia).
    congruence.
  - destruct (Ascii.eqb_spec a b) as [-> | _]; [ | reflexivity ].
    assert (((65 <=? Text.code b) && (Text.code b <=? 90)) = true)
      by (apply andb_true_iff; split; apply Z.leb_le; lia).
    congruence.
Qed.

Lemma lower_as_map (s : string) :
  list_ascii_of_string (QueryParser.lower s)
  = map QueryParser.lower_char (list_ascii_of_string s).
Proof. induction s as [ | c s IH]; cbn; [ reflexivity | now rewrite IH ]. Qed.

Lemma strip_prefix_lowered (needle text : list ascii) :
  forallb caseless needle = true ->
  strip_prefix needle (map QueryParser.lower_char text)
  = option_map (map QueryParser.lower_char) (strip_prefix needle text).
Proof.
  revert text. induction needle as [ | a needle IH]; intros text Hn; [ reflexivity | ].
  destruct text as [ | b text]; [ reflexivity | ].
  cbn [forallb] in Hn. apply andb_true_iff in Hn as [Ha Hn].
  cbn [map strip_prefix]. rewrite (@eqb_lower_char a b Ha).
  destruct (Ascii.eqb a b); [ now apply IH | reflexivity ].
Qed.

(** A keyword without ASCII letters occurs in the lower-cased question
    exactly when it occurs in the question. *)
Lemma contains_lower (needle text : string) :
  forallb caseless (list_ascii_of_string needle) = true ->
  contains needle (QueryParser.lower text) = contains needle text.
Proof.
  intros Hn. unfold contains. rewrite lower_as_map.
  generalize (list_ascii_of_string text). intros s.
  induction s as [ | b s IH]; cbn [map contains_from].
  - change [] with (map QueryParser.lower_char []) at 1.
    rewrite (@strip_prefix_lowered _ _ Hn). destruct (strip_prefix _ []); reflexivity.
  - change (QueryParser.lower_char b :: map QueryParser.lower_char s)
      with (map QueryParser.lower_char (b :: s)).
    rewrite (@strip_prefix_lowered _ _ Hn).
    destruct (strip_prefix _ (b :: s)); [ reflexivity | exact IH ].
Qed.

End Lowering.


(** ** Comparison periods need the keyword *)

Lemma no_keyword_no_match (question : string) :
  Re.contains "대비" question = false ->
  Re.search QueryParser.pattern1 question = None
  /\ Re.search QueryParser.pattern2 question = None
  /\ Re.search QueryParser.pattern3 question = None.
Proof.
  intros Hc.
  split; [ | split ]; (apply (@search_needs_literal _ "대비"); [ cbn; tauto | exact Hc ]).
Qed.

(** X2.  A question that does not hold the word "대비" gets no comparison
    periods, whatever else it says: the three patterns all run through that
    word.  The words "비교", "vs" and "차이", which [_detect_comparison]
    accepts as a comparison, select no period. *)
Theorem comparison_periods_need_keyword
        (question : string) (analysis_month : option string) :
  Re.contains "대비" question = false ->
  QueryParser._extract_comparison_periods question analysis_month = Returns None.
Proof.
  intros Hc. destruct (no_keyword_no_match question Hc) as (H1 & H2 & H3).
  unfold QueryParser._extract_comparison_periods.
  rewrite H1, H2, H3. reflexivity.
Qed.

Lemma comparison_periods_need_keyword_witness :
  Re.contains "대비" "9월과 12월 비교" = false
  /\ QueryParser._detect_comparison "9월과 12월 비교" = true
  /\ QueryParser._extract_comparison_periods "9월과 12월 비교" (Some "2025년 12월"%string)
     = Returns None.
Proof.
  split; [ vm_compute; reflexivity | split; [ vm_compute; reflexivity | ] ].
  apply (@comparison_periods_need_keyword "9월과 12월 비교" (Some "2025년 12월"%string)).
  vm_compute. reflexivity.
Defined.

(** ** What the extractors of [parse] return *)

Lemma extract_nps_target_returns (question : string) :
  exists r,
    QueryParser._extract_nps_target question = Returns r
    /\ match r with
       | None => True
       | Some (target, comparison) =>
           0 <= target /\ (comparison = "below" \/ comparison = "above")%string
       end.
Proof.
  unfold QueryParser._extract_nps_target.
  destruct (negb (Re.contains "nps" question));
    [ exists None; split; [ reflexivity | exact I ] | ].
  destruct (Re.search QueryParser.nps_below_pattern question) as [m | ] eqn:Hb.
  { destruct (nps_below_groups _ Hb) as (g1 & g2 & -> & Hn). read_int g1.
    eexists. split; [ reflexivity | cbn; auto ]. }
  destruct (Re.search QueryParser.nps_above_pattern question) as [m | ] eqn:Ha.
  { destruct (nps_above_groups _ Ha) as (g1 & g2 & -> & Hn). read_int g1.
    eexists. split; [ reflexivity | cbn; auto ]. }
  repeat match goal with
         | |- context [if ?b then _ else _] => destruct b
         end;
    (eexists; split; [ reflexivity | first [ exact I | split; [ lia | auto ] ] ]).
Qed.

Lemma extract_min_responses_returns (question : string) :
  exists z, QueryParser._extract_min_responses question = Returns z /\ 0 <= z.
Proof.
  unfold QueryParser._extract_min_responses.
  destruct (Re.search QueryParser.min_responses_pattern question) as [m | ] eqn:Hm.
  - destruct (min_responses_groups _ Hm) as (g1 & -> & Hn).
    destruct (int_numeral Hn) as (z & Hz & Hpos). exists z. auto.
  - exists 5. split; [ reflexivity | lia ].
Qed.

Lemma extract_period_returns (question : string) :
  exists r, QueryParser._extract_period question = Returns r.
Proof.
  unfold QueryParser._extract_period.
  destruct (Re.search QueryParser.month_pattern question) as [m | ] eqn:Hm.
  - destruct (month_groups _ Hm) as (g1 & -> & Hn). read_int g1. eauto.
  - destruct (Re.search QueryParser.date_pattern question) as [m | ] eqn:Hd; [ | eauto ].
    destruct (date_groups _ Hd) as (g1 & g2 & -> & Hn1 & Hn2).
    read_int g1. read_int g2. eauto.
Qed.

(** [parse], once the extractors that cannot fail have returned. *)
Lemma parse_unfold (question : string) :
  exists nps_info min_resp,
    QueryParser._extract_nps_target (QueryParser.lower question) = Returns nps_info
    /\ match nps_info with
       | None => True
       | Some (target, comparison) =>
           0 <= target /\ (comparison = "below" \/ comparison = "above")%string
       end
    /\ 0 <= min_resp
    /\ QueryParser.parse question
       = (comparison_periods <- QueryParser._extract_comparison_periods question None ;;
          Returns (mkFilterSpec
                     None
                     (QueryParser._extract_team question)
                     None
                     (QueryParser._extract_store_name question)
                     (option_map fst nps_info)
                     (option_map snd nps_info)
                     (if truthy (QueryParser._extract_senior_threshold
                                   (QueryParser.lower question))
                      then QueryParser._extract_senior_threshold (QueryParser.lower question)
                      else None)
                     (Some (if min_resp =? 0 then 5 else min_resp))
                     None None
                     (QueryParser._detect_trend question)
                     comparison_periods
                     (QueryParser._detect_analysis_type (QueryParser.lower question)))).
Proof.
  destruct (extract_nps_target_returns (QueryParser.lower question)) as (nps_info & Hn & Hinfo).
  destruct (extract_min_responses_returns question) as (min_resp & Hm & Hpos).
  destruct (extract_period_returns question) as (period & Hp).
  exists nps_info, min_resp. repeat (split; [ assumption | ]).
  unfold QueryParser.parse. rewrite Hn, Hm, Hp. cbn [bind].
  destruct (QueryParser._extract_comparison_periods question None); reflexivity.
Qed.

(** Opens [parse question = Returns f] into the fields of [f]. *)
Ltac open_parse H :=
  let nps_info := fresh "nps_info" in
  let min_resp := fresh "min_resp" in
  let Hn := fresh "Hnps" in
  let Hinfo := fresh "Hinfo" in
  let Hpos := fresh "Hfloor" in
  let Hparse := fresh "Hparse" in
  let cp := fresh "periods" in
  let Hcp := fresh "Hperiods" in
  match type of H with
  | QueryParser.parse ?q = _ =>
      destruct (parse_unfold q) as (nps_info & min_resp & Hn & Hinfo & Hpos & Hparse);
      rewrite Hparse in H; clear Hparse;
      destruct (QueryParser._extract_comparison_periods q None) as [cp | ] eqn:Hcp;
      cbn [bind] in H; [ | discriminate H ];
      injection H as H; subst;
      cbn [analysis_month team dealer_name store_name nps_target nps_comparison
           senior_threshold min_responses min_responses_period1 min_responses_period2
           trend comparison_periods analysis_type] in *
  end.

(** X3.  [parse] fails on one kind of question only: one that holds the word
    "대비" and names a month outside 1..12, which [calendar.monthrange]
    refuses with [IllegalMonthError].  No conversion of a captured number
    fails, in any extractor. *)
Theorem parse_raises_only_illegal_month (question exc : string) :
  QueryParser.parse question = Raises exc ->
  exc = "IllegalMonthError"%string /\ Re.contains "대비" question = true.
Proof.
  destruct (parse_unfold question) as (nps_info & min_resp & _ & _ & _ & ->).
  unfold QueryParser._extract_comparison_periods, QueryParser.get_month_last_day.
  destruct (Re.contains "대비" question) eqn:Hc.
  - destruct (Re.search QueryParser.pattern1 question) as [m1 | ] eqn:H1.
    + destruct (pattern1_groups _ H1) as (g1 & g2 & -> & Hn1 & Hn2).
      read_int g1. read_int g2.
      destruct (Calendar.monthrange_ndays 2025 z) as [d1 | e1] eqn:Hd1; cbn [bind].
      * destruct (Calendar.monthrange_ndays _ z0) as [d2 | e2] eqn:Hd2; cbn [bind];
          [ discriminate | ].
        intros [= <-]. split; [ eapply monthrange_raises; eassumption | reflexivity ].
      * intros [= <-]. split; [ eapply monthrange_raises; eassumption | reflexivity ].
    + rewrite (pattern2_is_shadowed question H1).
      destruct (Re.search QueryParser.pattern3 question); discriminate.
  - destruct (no_keyword_no_match question Hc) as (-> & -> & ->). discriminate.
Qed.

Lemma parse_raises_witness :
  QueryParser.parse "NPS 13월 대비 1월 하락" = Raises "IllegalMonthError"
  /\ "IllegalMonthError"%string = "IllegalMonthError"%string
  /\ Re.contains "대비" "NPS 13월 대비 1월 하락" = true.
Proof.
  split; [ vm_compute; reflexivity | ].
  exact (@parse_raises_only_illegal_month "NPS 13월 대비 1월 하락" "IllegalMonthError"
           ltac:(vm_compute; reflexivity)).
Defined.

(** ** The filters [parse] builds *)

(** X4.  The response floor [parse] stores is always a positive number: the
    default 5, or the number the question gives, and 5 again when that number
    is zero, which Python takes for false. *)
Theorem parse_response_floor_positive (question : string) (f : FilterSpec) :
  QueryParser.parse question = Returns f ->
  exists m, min_responses f = Some m /\ 1 <= m.
Proof.
  intros H. open_parse H. eexists. split; [ reflexivity | ].
  destruct (Z.eqb_spec min_resp 0); lia.
Qed.

Lemma parse_response_floor_witness :
  QueryParser.parse "NPS 90% 미만 응답 0건 이상"
  = Returns (mkFilterSpec None None None None (Some 90) (Some "below"%string) None
                          (Some 5) None None None None "simple_filter")
  /\ exists m, Some 5 = Some m /\ 1 <= m.
Proof.
  split; [ vm_compute; reflexivity | ].
  exact (@parse_response_floor_positive "NPS 90% 미만 응답 0건 이상" _
           ltac:(vm_compute; reflexivity)).
Defined.

(** X5.  [parse] stores the NPS target and its direction together or not at
    all; a stored target is not negative and the direction is "below" or
    "above", the two values the analyzers tell apart. *)
Theorem parse_nps_target_and_direction (question : string) (f : FilterSpec) :
  QueryParser.parse question = Returns f ->
  (nps_target f = None /\ nps_comparison f = None)
  \/ (exists target comparison,
        nps_target f = Some target /\ nps_comparison f = Some comparison
        /\ 0 <= target /\ (comparison = "below" \/ comparison = "above")%string).
Proof.
  intros H. open_parse H. destruct nps_info as [[target comparison] | ].
  - right. exists target, comparison. cbn. tauto.
  - left. split; reflexivity.
Qed.

Lemma parse_nps_target_witness :
  (nps_target (parsed (Some 90) (Some "above"%string) 5 "simple_filter") = None
   /\ nps_comparison (parsed (Some 90) (Some "above"%string) 5 "simple_filter") = None)
  \/ (exists target comparison,
        nps_target (parsed (Some 90) (Some "above"%string) 5 "simple_filter") = Some target
        /\ nps_comparison (parsed (Some 90) (Some "above"%string) 5 "simple_filter")
           = Some comparison
        /\ 0 <= target /\ (comparison = "below" \/ comparison = "above")%string).
Proof.
  exact (@parse_nps_target_and_direction "NPS 90% 이상인 곳" _ ltac:(vm_compute; reflexivity)).
Defined.

(** *** The analysis type and the fields it goes with *)

Lemma detect_simple_filter (text : string) :
  QueryParser._detect_analysis_type text = "simple_filter"%string ->
  Re.contains "시니어" text = false /\ Re.contains "대비" text = false.
Proof.
  unfold QueryParser._detect_analysis_type. cbv zeta.
  match goal with
  | |- (if ?b then _ else _) = _ -> _ => destruct b eqn:E
  end.
  - intros _. apply andb_true_iff in E as [_ E].
    apply andb_true_iff in E as [E _]. apply andb_true_iff in E as [E1 E2].
    apply negb_true_iff in E1, E2. auto.
  - repeat match goal with
           | |- (if ?b then _ else _) = _ -> _ => destruct b
           end; discriminate.
Qed.

Lemma detect_senior_gap (text : string) :
  QueryParser._detect_analysis_type text = "senior_gap"%string ->
  Re.contains "시니어" text = true.
Proof.
  unfold QueryParser._detect_analysis_type. cbv zeta.
  match goal with
  | |- (if ?b then _ else _) = _ -> _ => destruct b; [ discriminate | ]
  end.
  match goal with
  | |- (if ?b then _ else _) = _ -> _ => destruct b eqn:E
  end.
  - intros _. apply andb_true_iff in E as [E _]. apply andb_true_iff in E as [E _]. exact E.
  - repeat match goal with
           | |- (if ?b then _ else _) = _ -> _ => destruct b
           end; discriminate.
Qed.

Lemma detect_period_comparison (text : string) :
  QueryParser._detect_analysis_type text = "period_comparison"%string ->
  Re.contains "상승" text || Re.contains "하락" text = true.
Proof.
  unfold QueryParser._detect_analysis_type. cbv zeta.
  do 2 match goal with
       | |- (if ?b then _ else _) = _ -> _ => destruct b; [ discriminate | ]
       end.
  match goal with
  | |- (if ?b then _ else _) = _ -> _ => destruct b eqn:E
  end.
  - intros _. apply andb_true_iff in E as [_ E]. exact E.
  - repeat match goal with
           | |- (if ?b then _ else _) = _ -> _ => destruct b
           end; discriminate.
Qed.

(** X6.  A question [parse] classifies as a simple filter carries no senior
    threshold and no comparison periods: the classification and the two
    extractors look for the same words, one in the lower-cased question and
    the other in the question as typed. *)
Theorem simple_filter_has_no_senior_or_period (question : string) (f : FilterSpec) :
  QueryParser.parse question = Returns f ->
  analysis_type f = "simple_filter"%string ->
  senior_threshold f = None /\ comparison_periods f = None.
Proof.
  intros H Htype. open_parse H.
  apply detect_simple_filter in Htype as [Hsenior Hversus].
  split.
  - unfold QueryParser._extract_senior_threshold. rewrite Hsenior. reflexivity.
  - rewrite contains_lower in Hversus by (vm_compute; reflexivity).
    destruct (no_keyword_no_match question Hversus) as (H1 & H2 & H3).
    unfold QueryParser._extract_comparison_periods in Hperiods.
    rewrite H1, H2, H3 in Hperiods. now injection Hperiods as <-.
Qed.

Lemma simple_filter_witness :
  senior_threshold (parsed (Some 87) (Some "below"%string) 5 "simple_filter") = None
  /\ comparison_periods (parsed (Some 87) (Some "below"%string) 5 "simple_filter") = None.
Proof.
  exact (@simple_filter_has_no_senior_or_period "NPS가 낮은 곳" _
           ltac:(vm_compute; reflexivity) ltac:(vm_compute; reflexivity)).
Defined.

Lemma extract_senior_threshold_forms (text s : string) :
  QueryParser._extract_senior_threshold text = Some s ->
  s = "avg"%string \/ s = "below_avg"%string
  \/ exists n, numeral n /\ s = ("custom:" ++ n)%string.
Proof.
  unfold QueryParser._extract_senior_threshold.
  destruct (negb (Re.contains "시니어" text)); [ discriminate | ].
  destruct (Re.search QueryParser.senior_custom_pattern text) as [m | ] eqn:Hm.
  - destruct (senior_custom_groups _ Hm) as (g1 & g2 & -> & Hn).
    cbn [Re.group nth Nat.pred]. intros [= <-]. right. right. eauto.
  - repeat match goal with
           | |- (if ?b then _ else _) = _ -> _ => destruct b
           end; intros [= <-]; auto.
Qed.

(** X7.  A question classified as a senior gap always carries a senior
    threshold, and one classified as a period comparison always carries a
    trend. *)
Theorem classified_questions_carry_their_field (question : string) (f : FilterSpec) :
  QueryParser.parse question = Returns f ->
  (analysis_type f = "senior_gap"%string -> senior_threshold f <> None)
  /\ (analysis_type f = "period_comparison"%string -> trend f <> None).
Proof.
  intros H. open_parse H. split; intros Htype.
  - apply detect_senior_gap in Htype.
    destruct (QueryParser._extract_senior_threshold (QueryParser.lower question))
      as [s | ] eqn:Hs.
    + destruct (extract_senior_threshold_forms _ Hs) as [-> | [-> | (n & _ & ->)]];
        cbn; discriminate.
    + unfold QueryParser._extract_senior_threshold in Hs. rewrite Htype in Hs. cbn in Hs.
      destruct (Re.search _ _); [ discriminate | ].
      repeat match type of Hs with
             | (if ?b then _ else _) = _ => destruct b
             end; discriminate.
  - apply detect_period_comparison in Htype.
    rewrite !contains_lower in Htype by (vm_compute; reflexivity).
    unfold QueryParser._detect_trend.
    destruct (Re.contains "하락" question); [ cbn; discriminate | ].
    rewrite orb_false_r in Htype. rewrite Htype.
    destruct (_ || _); cbn; discriminate.
Qed.

Lemma classified_questions_witness :
  (analysis_type (mkFilterSpec None None None None (Some 87) (Some "above"%string)
                               (Some "avg"%string) (Some 5) None None None None "senior_gap")
   = "senior_gap"%string ->
   senior_threshold (mkFilterSpec None None None None (Some 87) (Some "above"%string)
                                  (Some "avg"%string) (Some 5) None None None None "senior_gap")
   <> None)
  /\ (analysis_type (mkFilterSpec None None None None (Some 87) (Some "above"%string)
                                  (Some "avg"%string) (Some 5) None None None None "senior_gap")
      = "period_comparison"%string ->
      trend (mkFilterSpec None None None None (Some 87) (Some "above"%string)
                          (Some "avg"%string) (Some 5) None None None None "senior_gap")
      <> None).
Proof.
  exact (@classified_questions_carry_their_field "시니어 비중이 높은 NPS" _
           ltac:(vm_compute; reflexivity)).
Defined.

(** ** The summary of a parsed question *)

Lemma detect_analysis_type_named (text : string) :
  exists name, QueryParser.type_names (QueryParser._detect_analysis_type text) = Returns name.
Proof.
  unfold QueryParser._detect_analysis_type. cbv zeta.
  repeat match goal with
         | |- context [if ?b then _ else _] => destruct b
         end; eexists; reflexivity.
Qed.

Lemma detect_analysis_type_not_empty (text : string) :
  String.eqb (QueryParser._detect_analysis_type text) EmptyString = false.
Proof.
  unfold QueryParser._detect_analysis_type. cbv zeta.
  repeat match goal with
         | |- context [if ?b then _ else _] => destruct b
         end; reflexivity.
Qed.

Lemma labelled_append (x y : string) : labelled x = true -> labelled (x ++ y) = true.
Proof.
  destruct x as [ | c1 [ | c2 x]]; try discriminate. cbn. auto.
Qed.

Lemma labelled_join (sep x : string) (rest : list string) :
  labelled x = true -> labelled (QueryParser.join sep (x :: rest)) = true.
Proof.
  intros Hx. destruct rest as [ | y rest]; [ exact Hx | ].
  cbn [QueryParser.join]. now apply labelled_append.
Qed.

Lemma senior_threshold_entry_labelled (f : FilterSpec) :
  Forall (fun e => labelled e = true) (QueryParser.senior_threshold_entry f).
Proof.
  unfold QueryParser.senior_threshold_entry.
  repeat match goal with
         | |- context [if ?b then _ else _] => destruct b
         end; repeat constructor.
Qed.

Lemma nps_target_entry_labelled (f : FilterSpec) :
  Forall (fun e => labelled e = true) (QueryParser.nps_target_entry f).
Proof.
  unfold QueryParser.nps_target_entry.
  destruct (QueryParser.truthy_int (nps_target f)); repeat constructor.
Qed.

(** X8.  The filters of every parsed question can be summarised:
    [get_filter_summary] finds the two keys it indexes without a default, and
    the summary is never the placeholder "조건 없음", since the response floor
    and the analysis type are always there to report. *)
Theorem parsed_filters_have_a_summary (question : string) (f : FilterSpec) :
  QueryParser.parse question = Returns f ->
  exists summary,
    QueryParser.get_filter_summary f = Returns summary
    /\ summary <> "조건 없음"%string.
Proof.
  intros H. open_parse H. unfold QueryParser.get_filter_summary.
  cbn [analysis_month team store_name min_responses analysis_type truthy bind app].
  set (s_team := if truthy (QueryParser._extract_team question) then _ else _).
  set (s_nps := QueryParser.nps_target_entry _).
  set (s_senior := QueryParser.senior_threshold_entry _).
  set (s_store := if truthy (QueryParser._extract_store_name question) then _ else _).
  rewrite detect_analysis_type_not_empty.
  destruct (detect_analysis_type_named (QueryParser.lower question)) as (name & ->).
  cbn [bind].
  set (floor := if min_resp =? 0 then 5 else min_resp).
  assert (Hfloor' : (floor =? 0) = false)
    by (subst floor; destruct (Z.eqb_spec min_resp 0) as [-> | Hne];
        [ reflexivity | now apply Z.eqb_neq ]).
  rewrite Hfloor'.
  eexists. split; [ reflexivity | ].
  assert (Hall : Forall (fun e => labelled e = true)
                        (s_team ++ s_nps ++ s_senior
                         ++ [("최소 응답수: " ++ Text.str floor ++ "건")%string]
                         ++ s_store ++ [("분석 유형: " ++ name)%string])).
  { apply Forall_app; split;
      [ subst s_team; destruct (truthy (QueryParser._extract_team question));
        [ constructor; [ reflexivity | constructor ] | constructor ] | ].
    apply Forall_app; split; [ apply nps_target_entry_labelled | ].
    apply Forall_app; split; [ apply senior_threshold_entry_labelled | ].
    apply Forall_app; split; [ constructor; [ reflexivity | constructor ] | ].
    apply Forall_app; split;
      [ subst s_store; destruct (truthy (QueryParser._extract_store_name question));
        [ constructor; [ reflexivity | constructor ] | constructor ] | ].
    constructor; [ reflexivity | constructor ]. }
  destruct (s_team ++ s_nps ++ s_senior ++ _) as [ | first rest] eqn:Hlist.
  - exfalso. repeat (apply app_eq_nil in Hlist as [_ Hlist]). discriminate Hlist.
  - inversion Hall as [ | ? ? Hfirst _]; subst.
    intros Heq. pose proof (@labelled_join " | " first rest Hfirst) as Hj.
    rewrite Heq in Hj. discriminate Hj.
Qed.

Lemma parsed_filters_summary_witness :
  exists summary,
    QueryParser.get_filter_summary
      (mkFilterSpec None (Some "인천마케팅팀"%string) None None
                    (Some 90) (Some "below"%string) None (Some 10) None None None None
                    "simple_filter")
    = Returns summary
    /\ summary <> "조건 없음"%string.
Proof.
  exact (@parsed_filters_have_a_summary "인천 NPS 90% 미만 응답 10건 이상" _
           ltac:(vm_compute; reflexivity)).
Defined.

(** ** The senior threshold, from [parse] to the senior gap analysis *)

Lemma append_assoc (a b c : string) : ((a ++ b) ++ c = a ++ (b ++ c))%string.
Proof. induction a as [ | x a IH]; cbn; [ reflexivity | now rewrite IH ]. Qed.

Lemma split_acc_digits (n cur : string) :
  forallb Text.is_digit (list_ascii_of_string n) = true ->
  Re.split_acc ":" cur n = [(cur ++ n)%string].
Proof.
  revert cur. induction n as [ | c n IH]; intros cur; cbn [list_ascii_of_string forallb Re.split_acc].
  - intros _. f_equal. induction cur as [ | x cur IHc]; cbn; [ reflexivity | now f_equal ].
  - intros H. apply andb_true_iff in H as [Hc Hn].
    destruct (Ascii.eqb_spec c ":") as [-> | _]; [ discriminate Hc | ].
    rewrite (@IH (cur ++ String c EmptyString)%string Hn), append_assoc. reflexivity.
Qed.

(** [float(senior_threshold.split(':')[1])] reads back the number [parse]
    wrote after "custom:". *)
Lemma custom_threshold_read_back (n : string) :
  numeral n ->
  exists z, SeniorGapAnalyzer.float (nth 1 (Re.split ":" ("custom:" ++ n)) EmptyString)
            = Returns (inject_Z z)
            /\ Text.int n = Returns z.
Proof.
  intros Hn. destruct (int_numeral Hn) as (z & Hz & _). exists z. split; [ | exact Hz ].
  unfold Re.split. cbn [append Re.split_acc Ascii.eqb Bool.eqb].
  rewrite (@split_acc_digits n EmptyString (proj2 Hn)). cbn [nth append].
  unfold SeniorGapAnalyzer.float. rewrite Hz. reflexivity.
Qed.

Lemma senior_rate_filter_returns (question : string) (f : FilterSpec) (rate : Q)
      (stats : list SeniorGapAnalyzer.TcrewStat) :
  senior_threshold f
  = (if truthy (QueryParser._extract_senior_threshold (QueryParser.lower question))
     then QueryParser._extract_senior_threshold (QueryParser.lower question) else None) ->
  exists result, SeniorGapAnalyzer.senior_rate_filter f rate stats = Returns result.
Proof.
  intros Hs. unfold SeniorGapAnalyzer.senior_rate_filter. rewrite Hs.
  destruct (QueryParser._extract_senior_threshold (QueryParser.lower question))
    as [s | ] eqn:He; [ | cbn; eauto ].
  destruct (extract_senior_threshold_forms _ He) as [-> | [-> | (n & Hn & ->)]].
  - cbn. eauto.
  - cbn. eauto.
  - destruct (custom_threshold_read_back Hn) as (z & Hz & _).
    assert (Htruthy : truthy (Some ("custom:" ++ n)%string) = true) by reflexivity.
    rewrite Htruthy. cbv zeta. rewrite Htruthy.
    cbn [QueryParser.unwrap].
    assert (Havg : String.eqb ("custom:" ++ n) "avg" = false) by reflexivity.
    assert (Hbelow : String.eqb ("custom:" ++ n) "below_avg" = false) by reflexivity.
    assert (Hstart : Re.startswith "custom:" ("custom:" ++ n) = true) by reflexivity.
    rewrite Havg, Hbelow, Hstart, Hz. cbn [bind]. eauto.
Qed.

(** X9.  The senior-share step of the senior gap analysis can always read
    the threshold [parse] wrote: "avg", "below_avg", or "custom:" followed by
    a run of digits, which [float(senior_threshold.split(':')[1])] converts.
    Whatever the sidebar changed in the other filters, and whatever the
    table, the step returns and only drops rows. *)
Theorem senior_gap_reads_parsed_threshold
        (question : string) (f f' : FilterSpec) (rate : Q)
        (stats : list SeniorGapAnalyzer.TcrewStat) :
  QueryParser.parse question = Returns f ->
  senior_threshold f' = senior_threshold f ->
  exists result,
    SeniorGapAnalyzer.senior_rate_filter f' rate stats = Returns result
    /\ forall s, In s result -> In s stats.
Proof.
  intros H Hsame. open_parse H.
  destruct (@senior_rate_filter_returns question f' rate stats Hsame) as (result & Hr).
  exists result. split; [ exact Hr | ].
  intros s Hs. eapply senior_rate_filter_In; eassumption.
Qed.

Lemma senior_gap_reads_threshold_witness :
  exists result,
    SeniorGapAnalyzer.senior_rate_filter
      (with_analysis_month (Some "2025년 12월"%string)
         (mkFilterSpec None None None None None None (Some "custom:30"%string)
                       (Some 5) None None None None "general"))
      (50 # 1) (SeniorGapAnalyzer.tcrew_stats (rows senior_table))
    = Returns result
    /\ forall s, In s result -> In s (SeniorGapAnalyzer.tcrew_stats (rows senior_table)).
Proof.
  exact (@senior_gap_reads_parsed_threshold
           "시니어 비중 30% 이상"
           (mkFilterSpec None None None None None None (Some "custom:30"%string)
                         (Some 5) None None None None "general")
           (with_analysis_month (Some "2025년 12월"%string)
              (mkFilterSpec None None None None None None (Some "custom:30"%string)
                            (Some 5) None None None None "general"))
           (50 # 1) (SeniorGapAnalyzer.tcrew_stats (rows senior_table))
           ltac:(vm_compute; reflexivity) ltac:(reflexivity)).
Defined.

(** ** The periods [parse] stores *)

Lemma monthrange_returns (y m d : Z) :
  Calendar.monthrange_ndays y m = Returns d -> 1 <= m <= 12.
Proof.
  unfold Calendar.monthrange_ndays.
  destruct (Z.leb_spec 1 m); destruct (Z.leb_spec m 12); cbn [andb];
    try discriminate; intros _; lia.
Qed.

(** X10.  The comparison periods [parse] stores are whole calendar months,
    or the error marker.  A stored period pair comes from the single-month
    pattern: each period starts on day 1 and ends on the last day of a month
    between 1 and 12, the base period in 2025, the comparison period in 2026
    when its month is March or earlier and in 2025 otherwise.  A day-range
    question gets the error marker, since [parse] has no analysis month to
    pass on. *)
Theorem parsed_periods_are_whole_months (question : string) (f : FilterSpec) :
  QueryParser.parse question = Returns f ->
  comparison_periods f = None
  \/ comparison_periods f = Some (PeriodError "분석월을 선택해주세요" "오류" "오류")
  \/ exists base compare base_last compare_last,
       1 <= base <= 12 /\ 1 <= compare <= 12
       /\ Calendar.monthrange_ndays 2025 base = Returns base_last
       /\ Calendar.monthrange_ndays (if compare <=? 3 then 2026 else 2025) compare
          = Returns compare_last
       /\ comparison_periods f
          = Some (Periods
                    (QueryParser.iso 2025 base 1)
                    (QueryParser.iso 2025 base base_last)
                    (QueryParser.iso (if compare <=? 3 then 2026 else 2025) compare 1)
                    (QueryParser.iso (if compare <=? 3 then 2026 else 2025) compare
                                     compare_last)
                    (Text.str base ++ "월")
                    (Text.str compare ++ "월")).
Proof.
  intros H. open_parse H.
  unfold QueryParser._extract_comparison_periods, QueryParser.get_month_last_day in Hperiods.
  destruct (Re.search QueryParser.pattern1 question) as [m1 | ] eqn:H1.
  - destruct (pattern1_groups _ H1) as (g1 & g2 & -> & Hn1 & Hn2).
    destruct (int_numeral Hn1) as (base & Hz1 & _).
    destruct (int_numeral Hn2) as (compare & Hz2 & _).
    cbn [Re.group nth Nat.pred] in Hperiods. rewrite Hz1, Hz2 in Hperiods.
    cbn [bind] in Hperiods.
    destruct (Calendar.monthrange_ndays 2025 base) as [base_last | ] eqn:Hb;
      cbn [bind] in Hperiods; [ | discriminate ].
    destruct (Calendar.monthrange_ndays _ compare) as [compare_last | ] eqn:Hc;
      cbn [bind] in Hperiods; [ | discriminate ].
    injection Hperiods as <-. right. right.
    exists base, compare, base_last, compare_last.
    split; [ eapply monthrange_returns; eassumption | ].
    split; [ eapply monthrange_returns; eassumption | ].
    split; [ exact Hb | split; [ exact Hc | reflexivity ] ].
  - rewrite (pattern2_is_shadowed question H1) in Hperiods.
    destruct (Re.search QueryParser.pattern3 question); cbn [truthy] in Hperiods;
      injection Hperiods as <-; auto.
Qed.

Lemma parsed_periods_witness :
  comparison_periods
    (mkFilterSpec None None None None None None None (Some 5) None None
                  (Some "decrease"%string)
                  (Some (Periods "2025-12-01" "2025-12-31" "2026-02-01" "2026-02-28"
                                 "12월" "2월"))
                  "general") = None
  \/ comparison_periods
       (mkFilterSpec None None None None None None None (Some 5) None None
                     (Some "decrease"%string)
                     (Some (Periods "2025-12-01" "2025-12-31" "2026-02-01" "2026-02-28"
                                    "12월" "2월"))
                     "general")
     = Some (PeriodError "분석월을 선택해주세요" "오류" "오류")
  \/ exists base compare base_last compare_last,
       1 <= base <= 12 /\ 1 <= compare <= 12
       /\ Calendar.monthrange_ndays 2025 base = Returns base_last
       /\ Calendar.monthrange_ndays (if compare <=? 3 then 2026 else 2025) compare
          = Returns compare_last
       /\ comparison_periods
            (mkFilterSpec None None None None None None None (Some 5) None None
                          (Some "decrease"%string)
                          (Some (Periods "2025-12-01" "2025-12-31" "2026-02-01" "2026-02-28"
                                         "12월" "2월"))
                          "general")
          = Some (Periods
                    (QueryParser.iso 2025 base 1)
                    (QueryParser.iso 2025 base base_last)
                    (QueryParser.iso (if compare <=? 3 then 2026 else 2025) compare 1)
                    (QueryParser.iso (if compare <=? 3 then 2026 else 2025) compare
                                     compare_last)
                    (Text.str base ++ "월")
                    (Text.str compare ++ "월")).
Proof.
  exact (@parsed_periods_are_whole_months "12월 대비 2월 하락한 곳" _
           ltac:(vm_compute; reflexivity)).
Defined.

(** ** The single period *)



(** ** Sorted tables *)

Section Sorting.

Variable A : Type.
Variable le : A -> A -> bool.
Hypothesis le_total : forall x y, le x y = false -> le y x = true.

Lemma insert_by_ordered (x : A) (l : list A) :
  ordered (fun a b => le a b = true) l ->
  ordered (fun a b => le a b = true) (Frame.insert_by le x l).
Proof.
  induction l as [ | y t IH]; cbn [Frame.insert_by]; [ cbn; auto | ].
  intros Hl. destruct (le x y) eqn:Hxy.
  - cbn [ordered]. split; [ exact Hxy | exact Hl ].
  - cbn [ordered] in Hl. destruct Hl as [Hhead Ht]. specialize (IH Ht).
    cbn [ordered]. split; [ | exact IH ].
    destruct t as [ | z t']; cbn [Frame.insert_by].
    + now apply le_total.
    + destruct (le x z); [ now apply le_total | exact Hhead ].
Qed.

(** [sort_by] sorts, for any comparison that is total. *)
Lemma sort_by_ordered (l : list A) : ordered (fun a b => le a b = true) (Frame.sort_by le l).
Proof.
  induction l as [ | x l IH]; [ exact I | ].
  cbn [Frame.sort_by fold_right]. now apply insert_by_ordered.
Qed.

End Sorting.

Lemma ordered_impl (A : Type) (R R' : A -> A -> Prop) (l : list A) :
  (forall x y, R x y -> R' x y) -> ordered R l -> ordered R' l.
Proof.
  intros HR. induction l as [ | x t IH]; [ auto | ].
  cbn [ordered]. intros [Hhead Ht]. split; [ | auto ].
  destruct t; auto.
Qed.

Lemma key_compare_antisym (a b : Frame.Key) :
  Frame.key_compare a b = CompOpp (Frame.key_compare b a).
Proof.
  revert b. induction a as [ | x a IH]; intros [ | y b]; cbn [Frame.key_compare]; try reflexivity.
  rewrite (String.compare_antisym y x).
  destruct (String.compare x y); [ exact (IH b) | reflexivity | reflexivity ].
Qed.

Lemma cell_leb_total (a b : Frame.Cell) :
  Frame.cell_leb a b = false -> Frame.cell_leb b a = true.
Proof.
  destruct a as [x | ], b as [y | ]; cbn; try congruence. apply Qle_bool_total.
Qed.

(** ** The simple filter: when the analysis fails *)

Section SimpleFilterErrors.

Import Frame SimpleFilterAnalyzer.

Lemma series_min_none (cells : list Cell) :
  series_min cells = None <-> forall c, In c cells -> c = None.
Proof.
  induction cells as [ | c cells IH]; cbn [series_min].
  - split; [ intros _ c [] | reflexivity ].
  - destruct c as [x | ].
    + split.
      * destruct (series_min cells); [ destruct (Qle_bool x q) | ]; discriminate.
      * intros H. specialize (H (Some x) (or_introl eq_refl)). discriminate.
    + rewrite IH. split.
      * intros H c [<- | Hc]; auto.
      * intros H c Hc. apply H. now right.
Qed.

Lemma worst_rows_nil (table : list Grouped) :
  table <> [] -> (worst_rows table = [] <-> all_nan table).
Proof.
  intros Hne. unfold worst_rows, all_nan. split.
  - intros Hw. split; [ exact Hne | ].
    destruct (series_min (map NPS_value table)) as [m | ] eqn:Hm.
    + destruct (series_min_spec _ Hm) as [Hin _].
      apply in_map_iff in Hin as (g & Hg & Hgin).
      assert (Hkeep : In g (filter (fun g => cell_eqb (NPS_value g) (Some m)) table)).
      { apply filter_In. split; [ exact Hgin | ]. rewrite Hg. cbn. apply Qeq_bool_refl. }
      rewrite Hw in Hkeep. contradiction.
    + intros g Hg. apply (proj1 (series_min_none _) Hm). now apply in_map.
  - intros [_ Hall].
    assert (Hm : series_min (map NPS_value table) = None).
    { apply series_min_none. intros c Hc. apply in_map_iff in Hc as (g & <- & Hg). auto. }
    rewrite Hm. clear Hm Hne. induction table as [ | g table IH]; [ reflexivity | ].
    cbn [filter]. rewrite (Hall g (or_introl eq_refl)). cbn [cell_eqb].
    apply IH. intros g' Hg'. apply Hall. now right.
Qed.

Lemma tcrew_insights_raises (table : list Grouped) (nps_values : list Cell) (exc : string) :
  tcrew_insights table nps_values = Raises exc <-> exc = "IndexError"%string /\ all_nan table.
Proof.
  unfold tcrew_insights. destruct table as [ | g0 table'].
  - split; [ discriminate | intros [_ [Hne _]]; congruence ].
  - set (table := g0 :: table').
    assert (Hne : table <> []) by discriminate.
    pose proof (worst_rows_nil Hne) as Hnil.
    destruct (worst_rows table) as [ | w [ | w' rest]]; cbn [bind].
    + split; [ intros [= <-]; split; [ reflexivity | now apply Hnil ] | now intros [-> _] ].
    + split; [ discriminate | intros [_ Hall]; apply Hnil in Hall; discriminate ].
    + split; [ discriminate | intros [_ Hall]; apply Hnil in Hall; discriminate ].
Qed.

Lemma store_insights_raises (table : list Grouped) (exc : string) :
  store_insights table = Raises exc <-> exc = "IndexError"%string /\ all_nan table.
Proof.
  unfold store_insights. destruct table as [ | g0 table'].
  - split; [ discriminate | intros [_ [Hne _]]; congruence ].
  - set (table := g0 :: table').
    assert (Hne : table <> []) by discriminate.
    pose proof (worst_rows_nil Hne) as Hnil.
    destruct (worst_rows table) as [ | w [ | w' rest]].
    + split; [ intros [= <-]; split; [ reflexivity | now apply Hnil ] | now intros [-> _] ].
    + split; [ discriminate | intros [_ Hall]; apply Hnil in Hall; discriminate ].
    + split; [ discriminate | intros [_ Hall]; apply Hnil in Hall; discriminate ].
Qed.

(** X12.  [_generate_insights] of the simple filter fails in one way only,
    with [IndexError], and exactly when the per-agent table or the per-store
    table it is given is not empty and has no number in its NPS column: the
    least NPS is then NaN, no row equals it, and [iloc[0]] on the empty
    selection raises. *)
Theorem insights_fail_on_nan_tables
        (result_tcrew result_store : list Grouped) (filters : FilterSpec)
        (nps_values : list Cell) (exc : string) :
  _generate_insights result_tcrew result_store filters nps_values = Raises exc
  <-> exc = "IndexError"%string /\ (all_nan result_tcrew \/ all_nan result_store).
Proof.
  unfold _generate_insights.
  pose proof (tcrew_insights_raises result_tcrew nps_values) as Ht.
  pose proof (store_insights_raises result_store) as Hs.
  destruct (tcrew_insights result_tcrew nps_values) as [a | e1]; cbn [bind].
  - destruct (store_insights result_store) as [b | e2]; cbn [bind].
    + split; [ discriminate | ].
      intros [-> [Hall | Hall]].
      * assert (Hno : Returns a = Raises "IndexError") by (apply Ht; auto). discriminate Hno.
      * assert (Hno : Returns b = Raises "IndexError") by (apply Hs; auto). discriminate Hno.
    + destruct (proj1 (Hs e2) eq_refl) as [-> Hall]. split.
      * intros [= <-]. auto.
      * now intros [-> _].
  - destruct (proj1 (Ht e1) eq_refl) as [-> Hall]. split.
    + intros [= <-]. auto.
    + now intros [-> _].
Qed.


End SimpleFilterErrors.

(** ** The simple filter: what its tables hold *)

Section SimpleFilterTables.

Import Frame SimpleFilterAnalyzer.

Lemma promoters_plus_detractors_valid (scores : list Score) :
  Num.count_if is_promoter scores + Num.count_if is_detractor scores <= count_valid scores.
Proof.
  unfold count_valid, Score in *.
  induction scores as [ | s scores IH]; [ cbn; lia | ].
  rewrite !count_if_cons.
  pose proof (promoter_not_detractor s) as Hpd.
  destruct s as [v | ]; cbn [is_promoter is_detractor] in *; unfold Score in *.
  - destruct (9 <=? v); [ rewrite Hpd by reflexivity | destruct (v <=? 6) ]; lia.
  - lia.
Qed.

Lemma ratio_between (d n k : Z) :
  0 < n -> - n <= d <= n -> 0 <= k ->
  (inject_Z (- k) <= inject_Z d / inject_Z n * inject_Z k)%Q
  /\ (inject_Z d / inject_Z n * inject_Z k <= inject_Z k)%Q.
Proof.
  intros Hn Hd Hk.
  assert (Hpos : (0 < inject_Z n)%Q) by (rewrite (Zlt_Qlt 0 n) in Hn; exact Hn).
  assert (Heq : (inject_Z d / inject_Z n * inject_Z k == inject_Z (d * k) / inject_Z n)%Q).
  { rewrite inject_Z_mult. field. intros H0. rewrite H0 in Hpos. discriminate Hpos. }
  rewrite Heq. split.
  - apply Qle_shift_div_l; [ exact Hpos | ].
    rewrite <- inject_Z_mult, <- Zle_Qle. nia.
  - apply Qle_shift_div_r; [ exact Hpos | ].
    rewrite <- inject_Z_mult, <- Zle_Qle. nia.
Qed.

Lemma nps_round1_bounds (promoters detractors responses : Z) (x : Q) :
  0 <= promoters -> 0 <= detractors -> promoters + detractors <= responses ->
  nps_round1 promoters detractors responses = Some x ->
  (-100 <= x <= 100)%Q.
Proof.
  intros Hp Hd Hsum. unfold nps_round1.
  destruct (Z.eqb_spec responses 0) as [ | Hne]; [ discriminate | ].
  intros [= <-]. unfold Num.round_ndigits.
  change (10 ^ Z.of_nat 1) with 10. change (Z.to_pos 10) with 10%positive.
  assert (Hbetween : -1000
                     <= Num.round_half_even
                          (inject_Z (promoters - detractors) / inject_Z responses * 100
                           * inject_Z 10)
                     <= 1000).
  { destruct (@ratio_between (promoters - detractors) responses 1000) as [Hlo Hhi];
      try lia.
    assert (Heq : (inject_Z (promoters - detractors) / inject_Z responses * 100 * inject_Z 10
                   == inject_Z (promoters - detractors) / inject_Z responses
                      * inject_Z 1000)%Q).
    { change (inject_Z 1000) with (1000 # 1). change (inject_Z 10) with (10 # 1).
      field. intros H0. apply Hne.
      unfold Qeq in H0. cbn in H0. lia. }
    apply round_half_even_between; rewrite Heq; assumption. }
  unfold Qle. cbn [Qnum Qden]. lia.
Qed.

Lemma aggregate_counts (key : Key) (group : list Row) :
  0 <= g_promoters (aggregate key group)
  /\ 0 <= g_detractors (aggregate key group)
  /\ g_promoters (aggregate key group) + g_detractors (aggregate key group)
     <= g_responses (aggregate key group)
  /\ forall x, NPS_value (aggregate key group) = Some x -> (-100 <= x <= 100)%Q.
Proof.
  unfold aggregate. cbn [g_promoters g_detractors g_responses NPS_value].
  pose proof (count_if_nonneg is_promoter (map r_score group)) as Hp.
  pose proof (count_if_nonneg is_detractor (map r_score group)) as Hd.
  pose proof (promoters_plus_detractors_valid (map r_score group)) as Hsum.
  split; [ exact Hp | split; [ exact Hd | split; [ exact Hsum | ] ] ].
  intros x Hx. exact (@nps_round1_bounds _ _ _ _ Hp Hd Hsum Hx).
Qed.

Lemma cell_ltb_true (c : Cell) (q : Q) :
  cell_ltb c q = true -> exists x, c = Some x /\ (x < q)%Q.
Proof.
  destruct c as [x | ]; cbn; [ | discriminate ].
  intros H. exists x. split; [ reflexivity | ].
  apply Qnot_le_lt. intros Hle. apply Qle_bool_iff in Hle. rewrite Hle in H. discriminate.
Qed.

Lemma cell_geb_true (c : Cell) (q : Q) :
  cell_geb c q = true -> exists x, c = Some x /\ (q <= x)%Q.
Proof.
  destruct c as [x | ]; cbn; [ | discriminate ].
  intros H. exists x. split; [ reflexivity | now apply Qle_bool_iff ].
Qed.

Lemma apply_filters_meets (filters : FilterSpec) (grouped : list Grouped) (g : Grouped) :
  In g (apply_filters filters grouped) -> meets_nps_target filters g.
Proof.
  unfold apply_filters, meets_nps_target.
  destruct (nps_target filters) as [target | ]; [ | auto ].
  destruct (nps_comparison filters) as [comparison | ]; [ | auto ].
  destruct (String.eqb comparison "below").
  - rewrite filter_In. intros [_ H]. now apply cell_ltb_true.
  - destruct (String.eqb comparison "above"); [ | auto ].
    rewrite filter_In. intros [_ H]. now apply cell_geb_true.
Qed.

Lemma filtered_row (key : Row -> Key) (df : DataFrame) (filters : FilterSpec) (g : Grouped) :
  In g (sort_by sort_leb
          (apply_filters filters
             (map (fun kg => aggregate (fst kg) (snd kg)) (groupby key (rows df))))) ->
  min_responses_bound filters <= g_responses g
  /\ meets_nps_target filters g
  /\ 0 <= g_promoters g
  /\ 0 <= g_detractors g
  /\ g_promoters g + g_detractors g <= g_responses g
  /\ forall x, NPS_value g = Some x -> (-100 <= x <= 100)%Q.
Proof.
  intros Hin. apply sort_by_In in Hin.
  pose proof (apply_filters_meets _ _ _ Hin) as Hmeets.
  apply apply_filters_In in Hin as [Hin Hfloor].
  apply in_map_iff in Hin as ([k grp] & <- & _). cbn [fst snd].
  split; [ exact Hfloor | split; [ exact Hmeets | apply aggregate_counts ] ].
Qed.

(** X13.  Every row of the two tables of the simple filter meets the two
    filters and is consistent in itself: its responses reach the floor; its
    NPS is below the target, or at least the target, as the direction says
    (a row without a number for its NPS passes neither test); promoters and
    detractors are counted among the responses; and the NPS, when it is a
    number, lies between -100 and 100. *)
Theorem simple_filter_rows_meet_the_filters
        (df : DataFrame) (filters : FilterSpec) (g : Grouped) :
  In g (fst (_analyze_by_tcrew df filters)) \/ In g (_analyze_by_store df filters) ->
  min_responses_bound filters <= g_responses g
  /\ meets_nps_target filters g
  /\ 0 <= g_promoters g
  /\ 0 <= g_detractors g
  /\ g_promoters g + g_detractors g <= g_responses g
  /\ forall x, NPS_value g = Some x -> (-100 <= x <= 100)%Q.
Proof.
  unfold _analyze_by_tcrew, _analyze_by_store. cbn [fst].
  intros [Hin | Hin]; eapply filtered_row; exact Hin.
Qed.

Lemma sort_leb_total (a b : Grouped) : sort_leb a b = false -> sort_leb b a = true.
Proof.
  unfold sort_leb.
  rewrite (key_compare_antisym [g_team b; g_dealer b; g_store b]
                               [g_team a; g_dealer a; g_store a]).
  destruct (key_compare [g_team a; g_dealer a; g_store a] [g_team b; g_dealer b; g_store b]);
    cbn [CompOpp]; try congruence.
  apply cell_leb_total.
Qed.

Lemma sort_leb_by_place (a b : Grouped) : sort_leb a b = true -> by_place_then_nps a b.
Proof.
  unfold sort_leb, by_place_then_nps. cbv zeta.
  destruct (key_compare [g_team a; g_dealer a; g_store a] [g_team b; g_dealer b; g_store b]);
    intros H; split; congruence.
Qed.

(** X14.  Both tables of the simple filter come out sorted: by team, then
    dealer, then store, each in ascending order of the text, and the rows of
    one store by ascending NPS with the rows that have no number last. *)
Theorem simple_filter_tables_are_sorted (df : DataFrame) (filters : FilterSpec) :
  ordered by_place_then_nps (fst (_analyze_by_tcrew df filters))
  /\ ordered by_place_then_nps (_analyze_by_store df filters).
Proof.
  unfold _analyze_by_tcrew, _analyze_by_store. cbn [fst].
  split; (eapply ordered_impl; [ exact sort_leb_by_place | ]);
    apply sort_by_ordered; exact sort_leb_total.
Qed.

End SimpleFilterTables.

Lemma simple_filter_rows_witness :
  (In (SimpleFilterAnalyzer.mkGrouped "인천마케팅팀" "대리점" "부평점" "가" 6 3 3 (Some (0 # 10)))
      (fst (SimpleFilterAnalyzer._analyze_by_tcrew
              tied_table (parsed (Some 50) (Some "below"%string) 5 "simple_filter")))
   \/ In (SimpleFilterAnalyzer.mkGrouped "인천마케팅팀" "대리점" "부평점" "가" 6 3 3
                                         (Some (0 # 10)))
         (SimpleFilterAnalyzer._analyze_by_store
            tied_table (parsed (Some 50) (Some "below"%string) 5 "simple_filter")))
  /\ 5 <= 6.
Proof.
  assert (Hin : In (SimpleFilterAnalyzer.mkGrouped "인천마케팅팀" "대리점" "부평점" "가" 6 3 3
                                                   (Some (0 # 10)))
                   (fst (SimpleFilterAnalyzer._analyze_by_tcrew
                           tied_table
                           (parsed (Some 50) (Some "below"%string) 5 "simple_filter")))
                \/ In (SimpleFilterAnalyzer.mkGrouped "인천마케팅팀" "대리점" "부평점" "가" 6 3 3
                                                      (Some (0 # 10)))
                      (SimpleFilterAnalyzer._analyze_by_store
                         tied_table
                         (parsed (Some 50) (Some "below"%string) 5 "simple_filter"))).
  { left. vm_compute. left. reflexivity. }
  split; [ exact Hin | ].
  exact (proj1 (@simple_filter_rows_meet_the_filters _ _ _ Hin)).
Defined.

(** ** Groups: every row is in exactly one *)

Lemma total_cons (x : Z) (column : list Z) : total (x :: column) = x + total column.
Proof. reflexivity. Qed.

Section Groups.

Import Frame.

Variable A : Type.
Variable key : A -> Key.

Lemma key_eqb_refl (k : Key) : key_eqb k k = true.
Proof. now apply key_eqb_eq. Qed.

Lemma dedup_by_complete (l : list Key) (k : Key) : In k l -> In k (dedup_by key_eqb l).
Proof.
  induction l as [ | a l IH]; cbn [dedup_by]; [ tauto | ].
  intros [-> | Hk]; [ now left | ].
  destruct (key_eqb a k) eqn:Hak.
  - apply key_eqb_eq in Hak. left. exact Hak.
  - right. apply filter_In. split; [ auto | ]. now rewrite Hak.
Qed.

Lemma dedup_by_NoDup (l : list Key) : NoDup (dedup_by key_eqb l).
Proof.
  induction l as [ | a l IH]; cbn [dedup_by]; constructor.
  - rewrite filter_In, key_eqb_refl. intros [_ H]. discriminate H.
  - now apply NoDup_filter.
Qed.

Lemma total_map_insert (f : Key -> Z) (k : Key) (sorted : list Key) :
  total (map f (insert_by key_leb k sorted)) = f k + total (map f sorted).
Proof.
  induction sorted as [ | y sorted IH]; cbn [insert_by]; [ reflexivity | ].
  destruct (key_leb k y); cbn [map]; rewrite !total_cons; [ reflexivity | ].
  rewrite IH. lia.
Qed.

(** Sorting the keys does not change a sum taken over them. *)
Lemma total_over_sorted (f : Key -> Z) (keys : list Key) :
  total (map f (sort_by key_leb keys)) = total (map f keys).
Proof.
  induction keys as [ | k keys IH]; [ reflexivity | ].
  change (sort_by key_leb (k :: keys)) with (insert_by key_leb k (sort_by key_leb keys)).
  rewrite total_map_insert. cbn [map]. rewrite total_cons, IH. reflexivity.
Qed.

Lemma absent_key_counts_nothing (keys : list Key) (k : Key) :
  ~ In k keys -> total (map (fun k' => if key_eqb k k' then 1 else 0) keys) = 0.
Proof.
  induction keys as [ | b keys IH]; [ reflexivity | ].
  intros Hnotin. cbn [map]. rewrite total_cons.
  destruct (key_eqb k b) eqn:Hkb.
  - apply key_eqb_eq in Hkb. subst b. exfalso. apply Hnotin. now left.
  - rewrite IH; [ reflexivity | ]. intros H. apply Hnotin. now right.
Qed.

Lemma one_key_counts_once (keys : list Key) (k : Key) :
  NoDup keys -> In k keys ->
  total (map (fun k' => if key_eqb k k' then 1 else 0) keys) = 1.
Proof.
  induction keys as [ | a keys IH]; [ contradiction | ].
  intros Hnd Hin. inversion Hnd as [ | ? ? Hnotin Hnd']; subst.
  cbn [map]. rewrite total_cons.
  destruct (key_eqb k a) eqn:Hka.
  - apply key_eqb_eq in Hka. subst a. rewrite (@absent_key_counts_nothing keys k Hnotin). reflexivity.
  - destruct Hin as [-> | Hin]; [ rewrite key_eqb_refl in Hka; discriminate | ].
    rewrite (IH Hnd' Hin). reflexivity.
Qed.

Lemma group_sizes_cons (r : A) (l : list A) (keys : list Key) :
  total (map (fun k => Z.of_nat (List.length (filter (fun r0 => key_eqb (key r0) k) (r :: l))))
             keys)
  = total (map (fun k' => if key_eqb (key r) k' then 1 else 0) keys)
    + total (map (fun k => Z.of_nat (List.length (filter (fun r0 => key_eqb (key r0) k) l)))
                 keys).
Proof.
  induction keys as [ | k keys IH]; [ reflexivity | ].
  cbn [map]. rewrite !total_cons, IH. cbn [filter].
  destruct (key_eqb (key r) k); cbn [List.length]; lia.
Qed.

(** Over keys that are distinct and cover the rows, the groups' sizes add up
    to the number of rows. *)
Lemma groups_partition (keys : list Key) (l : list A) :
  NoDup keys -> (forall r, In r l -> In (key r) keys) ->
  total (map (fun k => Z.of_nat (List.length (filter (fun r => key_eqb (key r) k) l))) keys)
  = Z.of_nat (List.length l).
Proof.
  intros Hnd. induction l as [ | r l IH]; intros Hcover.
  - cbn [filter List.length]. clear. induction keys as [ | k keys IHk]; [ reflexivity | ].
    cbn [map]. rewrite total_cons, IHk. reflexivity.
  - rewrite group_sizes_cons, one_key_counts_once, IH.
    + cbn [List.length]. lia.
    + intros r' Hr'. apply Hcover. now right.
    + exact Hnd.
    + apply Hcover. now left.
Qed.

Lemma filter_swap (p q : A -> bool) (l : list A) :
  filter p (filter q l) = filter q (filter p l).
Proof.
  induction l as [ | r l IH]; [ reflexivity | ].
  cbn [filter]. destruct (q r) eqn:Hq; destruct (p r) eqn:Hp;
    cbn [filter]; rewrite ?Hq, ?Hp, IH; reflexivity.
Qed.

(** The sizes of the groups of [groupby], through any selection of rows that
    is made before or after the grouping. *)
Lemma groupby_sizes (p : A -> bool) (l : list A) :
  total (map (fun kg => Z.of_nat (List.length (filter p (snd kg)))) (groupby key l))
  = Z.of_nat (List.length (filter p l)).
Proof.
  unfold groupby. rewrite map_map. cbn [snd].
  rewrite (total_over_sorted
             (fun k => Z.of_nat (List.length (filter p (filter (fun r => key_eqb (key r) k) l))))).
  rewrite <- (@groups_partition (dedup_by key_eqb (map key l)) (filter p l)).
  - f_equal. apply map_ext. intros k. now rewrite filter_swap.
  - apply dedup_by_NoDup.
  - intros r Hr. apply filter_In in Hr as [Hr _].
    apply dedup_by_complete. now apply in_map.
Qed.

End Groups.

(** ** The senior gap: what its table holds *)

Section SeniorGapTable.

Import Frame SeniorGapAnalyzer.

Lemma filter_all (A : Type) (l : list A) : filter (fun _ => true) l = l.
Proof. induction l as [ | x l IH]; cbn [filter]; [ reflexivity | now rewrite IH ]. Qed.

Lemma count_if_map (A B : Type) (p : B -> bool) (f : A -> B) (l : list A) :
  Num.count_if p (map f l) = Z.of_nat (List.length (filter (fun x => p (f x)) l)).
Proof.
  unfold Num.count_if. f_equal.
  induction l as [ | x l IH]; cbn [map filter]; [ reflexivity | ].
  destruct (p (f x)); cbn [List.length]; now rewrite IH.
Qed.

(** X15.  The per-agent rows of the senior gap account for every response
    once: over the agents, the responses add up to the number of rows of the
    filtered table, the senior responses to the number of its senior rows,
    and the promoters and detractors to those of the whole table.  These are
    the totals the analysis shows in its summary. *)
Theorem senior_gap_counts_add_up (rows : list Row) :
  total (map s_total_responses (tcrew_stats rows)) = Z.of_nat (List.length rows)
  /\ total (map s_senior_responses (tcrew_stats rows))
     = Z.of_nat (List.length (filter is_senior rows))
  /\ total (map s_promoters (tcrew_stats rows)) = Num.count_if is_promoter (map r_score rows)
  /\ total (map s_detractors (tcrew_stats rows))
     = Num.count_if is_detractor (map r_score rows).
Proof.
  unfold tcrew_stats. rewrite !map_map.
  unfold tcrew_stat.
  cbn [s_total_responses s_senior_responses s_promoters s_detractors].
  split; [ | split; [ | split ] ].
  - rewrite <- (filter_all rows) at 2.
    rewrite <- (groupby_sizes (fun r => [r_tcrew r; r_tcrew_id r]) (fun _ => true) rows).
    f_equal. apply map_ext. intros kg. now rewrite filter_all.
  - apply (groupby_sizes (fun r => [r_tcrew r; r_tcrew_id r]) is_senior rows).
  - rewrite count_if_map.
    rewrite <- (groupby_sizes (fun r => [r_tcrew r; r_tcrew_id r])
                              (fun r => is_promoter (r_score r)) rows).
    f_equal. apply map_ext. intros kg. apply count_if_map.
  - rewrite count_if_map.
    rewrite <- (groupby_sizes (fun r => [r_tcrew r; r_tcrew_id r])
                              (fun r => is_detractor (r_score r)) rows).
    f_equal. apply map_ext. intros kg. apply count_if_map.
Qed.

Lemma share_between (d n : Z) :
  0 < n -> 0 <= d <= n ->
  (0 <= inject_Z d / inject_Z n * 100 <= 100)%Q.
Proof.
  intros Hn Hd.
  assert (Hpos : (0 < inject_Z n)%Q) by (rewrite (Zlt_Qlt 0 n) in Hn; exact Hn).
  split.
  - apply Qmult_le_0_compat; [ | discriminate ].
    apply Qle_shift_div_l; [ exact Hpos | ].
    rewrite Qmult_0_l. change 0%Q with (inject_Z 0). rewrite <- Zle_Qle. lia.
  - destruct (@ratio_between d n 100 Hn) as [_ Hhi]; [ lia | lia | exact Hhi ].
Qed.

(** What holds of every row of [tcrew_stats], filtered or not. *)
Lemma tcrew_stats_row (rows : list Row) (s : TcrewStat) :
  In s (tcrew_stats rows) ->
  1 <= s_total_responses s
  /\ 0 <= s_senior_responses s <= s_total_responses s
  /\ (0 <= s_senior_rate_value s <= 100)%Q
  /\ (-100 <= s_NPS_value s <= 100)%Q.
Proof.
  unfold tcrew_stats. rewrite in_map_iff. intros ([k grp] & <- & Hg).
  apply groupby_In in Hg as [_ [r Hr]]. cbn [fst snd].
  unfold tcrew_stat.
  cbn [s_total_responses s_senior_responses s_senior_rate_value s_NPS_value].
  assert (Hlen : 1 <= Z.of_nat (List.length grp))
    by (destruct grp; [ contradiction | cbn [List.length]; lia ]).
  assert (Hsenior : 0 <= Z.of_nat (List.length (filter is_senior grp))
                    <= Z.of_nat (List.length grp))
    by (pose proof (filter_length_le is_senior grp); lia).
  split; [ exact Hlen | split; [ exact Hsenior | split ] ].
  - destruct (Z.ltb_spec 0 (Z.of_nat (List.length grp))); [ | lia ].
    apply share_between; lia.
  - apply calculate_nps_bounds.
Qed.

Lemma min_responses_filter_spec (filters : FilterSpec) (result : list TcrewStat) (s : TcrewStat) :
  In s (min_responses_filter filters result) ->
  In s result
  /\ match min_responses filters with Some m => m | None => 5 end <= s_total_responses s
  /\ 1 <= s_senior_responses s.
Proof.
  unfold min_responses_filter. rewrite !filter_In, !Z.leb_le. tauto.
Qed.

Lemma Qle_bool_false (x y : Q) : Qle_bool x y = false -> (y < x)%Q.
Proof.
  intros H. apply Qnot_le_lt. intros Hle. apply Qle_bool_iff in Hle. congruence.
Qed.

Lemma nps_target_filter_spec (filters : FilterSpec) (result : list TcrewStat) (s : TcrewStat) :
  In s (nps_target_filter filters result) ->
  In s result /\ meets_senior_gap_target filters s.
Proof.
  unfold nps_target_filter, nps_target_in_force, meets_senior_gap_target.
  destruct (nps_target filters) as [target | ].
  - destruct (nps_comparison filters) as [comparison | ].
    + destruct (String.eqb comparison "below"); rewrite filter_In.
      * intros [Hin H]. apply negb_true_iff, Qle_bool_false in H. auto.
      * intros [Hin H]. apply Qle_bool_iff in H. auto.
    + rewrite filter_In. intros [Hin H]. apply Qle_bool_iff in H. auto.
  - rewrite filter_In. intros [Hin H]. apply negb_true_iff, Qle_bool_false in H. auto.
Qed.

(** X16.  Every row of the table the senior gap analysis returns meets the
    filters and is consistent in itself: the agent has a senior response;
    the responses reach the floor [filters.get('min_responses', 5)]; the NPS
    is on the asked side of the target, and below 87 when the filters have no
    target; the senior responses are among the responses; the senior share
    lies between 0 and 100 and the NPS between -100 and 100. *)
Theorem senior_gap_rows_meet_the_filters
        (df : DataFrame) (filters : FilterSpec) (table : list TcrewStat)
        (summary : Summary) (s : TcrewStat) :
  analyze df filters = Returns (Analysed table summary) ->
  In s table ->
  1 <= s_senior_responses s <= s_total_responses s
  /\ match min_responses filters with Some m => m | None => 5 end <= s_total_responses s
  /\ meets_senior_gap_target filters s
  /\ (0 <= s_senior_rate_value s <= 100)%Q
  /\ (-100 <= s_NPS_value s <= 100)%Q.
Proof.
  unfold analyze.
  destruct (df_filtered df filters) as [rows | ]; cbn [bind]; [ | discriminate ].
  destruct (tcrew_stats rows) as [ | s0 stats'] eqn:Hstats; [ discriminate | ].
  rewrite <- Hstats.
  destruct (senior_rate_filter filters (avg_senior_rate rows) (tcrew_stats rows))
    as [survivors | ] eqn:Hrate; cbn [bind]; [ | discriminate ].
  intros [= <- _] Hin.
  apply sort_by_In, min_responses_filter_spec in Hin as (Hin & Hfloor & Hsenior).
  apply nps_target_filter_spec in Hin as [Hin Htarget].
  apply senior_nps_filter_In in Hin as (Hin & _ & _).
  assert (Hstat : In s (tcrew_stats rows))
    by (eapply senior_rate_filter_In; eassumption).
  destruct (@tcrew_stats_row rows s Hstat) as (Htotal & Hle & Hshare & Hnps).
  split; [ lia | ].
  split; [ exact Hfloor | split; [ exact Htarget | split; [ exact Hshare | exact Hnps ] ] ].
Qed.

Lemma sort_leb_share_total (a b : TcrewStat) : sort_leb a b = false -> sort_leb b a = true.
Proof.
  unfold SeniorGapAnalyzer.sort_leb.
  rewrite <- (Qcompare_antisym (s_senior_rate_value a) (s_senior_rate_value b)).
  destruct (Qcompare (s_senior_rate_value a) (s_senior_rate_value b));
    cbn [CompOpp]; try congruence.
  apply Qle_bool_total.
Qed.

Lemma sort_leb_by_share (a b : TcrewStat) :
  SeniorGapAnalyzer.sort_leb a b = true -> by_share_then_nps a b.
Proof.
  unfold SeniorGapAnalyzer.sort_leb, by_share_then_nps.
  destruct (Qcompare (s_senior_rate_value a) (s_senior_rate_value b)) eqn:Hc.
  - apply Qeq_alt in Hc. intros H. apply Qle_bool_iff in H.
    split; [ rewrite Hc; apply Qle_refl | auto ].
  - discriminate.
  - apply Qgt_alt in Hc. intros _. split; [ now apply Qlt_le_weak | ].
    intros Heq. rewrite Heq in Hc. exfalso. exact (Qlt_irrefl _ Hc).
Qed.

(** X17.  The table of the senior gap analysis comes out sorted by falling
    senior share, and among agents with the same share by rising NPS. *)
Theorem senior_gap_table_is_sorted
        (df : DataFrame) (filters : FilterSpec) (table : list TcrewStat) (summary : Summary) :
  analyze df filters = Returns (Analysed table summary) ->
  ordered by_share_then_nps table.
Proof.
  unfold analyze.
  destruct (df_filtered df filters) as [rows | ]; cbn [bind]; [ | discriminate ].
  destruct (tcrew_stats rows) as [ | s0 stats']; [ discriminate | ].
  destruct (senior_rate_filter _ _ _) as [survivors | ]; cbn [bind]; [ | discriminate ].
  intros [= <- _].
  eapply ordered_impl; [ exact sort_leb_by_share | ].
  apply sort_by_ordered. exact sort_leb_share_total.
Qed.

End SeniorGapTable.

Lemma senior_gap_rows_witness :
  exists table summary s,
    SeniorGapAnalyzer.analyze senior_gap_table senior_gap_filters
    = Returns (SeniorGapAnalyzer.Analysed table summary)
    /\ In s table
    /\ 1 <= SeniorGapAnalyzer.s_senior_responses s <= SeniorGapAnalyzer.s_total_responses s.
Proof.
  destruct (SeniorGapAnalyzer.analyze senior_gap_table senior_gap_filters)
    as [[ | table summary] | exc] eqn:H; try (vm_compute in H; discriminate H).
  destruct table as [ | s table']; [ vm_compute in H; discriminate H | ].
  exists (s :: table'), summary, s.
  split; [ reflexivity | split; [ now left | ] ].
  exact (proj1 (@senior_gap_rows_meet_the_filters _ _ _ _ s H (or_introl eq_refl))).
Defined.

Lemma senior_gap_sorted_witness :
  exists table summary,
    SeniorGapAnalyzer.analyze senior_gap_table senior_gap_filters
    = Returns (SeniorGapAnalyzer.Analysed table summary)
    /\ List.length table = 2%nat
    /\ ordered by_share_then_nps table.
Proof.
  destruct (SeniorGapAnalyzer.analyze senior_gap_table senior_gap_filters)
    as [[ | table summary] | exc] eqn:H; try (vm_compute in H; discriminate H).
  exists table, summary.
  split; [ reflexivity | ].
  pose proof (@senior_gap_table_is_sorted _ _ _ _ H) as Hsorted.
  split; [ | exact Hsorted ].
  vm_compute in H. injection H as <- _. reflexivity.
Defined.

(** ** The period comparison: what its table holds *)

Section PeriodTable.

Import Frame PeriodComparisonAnalyzer.

Variable Timestamp : string -> Outcome Date.

(** A result of [analyze] has an empty table, or is what [compare_periods]
    makes of the rows of the two resolved periods. *)
Lemma analyze_compares (df : DataFrame) (filters : FilterSpec) (result : Result) :
  analyze Timestamp df filters = Returns result ->
  by_tcrew result = []
  \/ exists period1_start period1_end period2_start period2_end period1_label period2_label,
       result = compare_periods (filter (in_period period1_start period1_end) (rows df))
                                (filter (in_period period2_start period2_end) (rows df))
                                period1_label period2_label filters.
Proof.
  unfold analyze. intros Hrun.
  destruct (has_date_column df); cbn [negb] in Hrun;
    [ | injection Hrun as <-; now left ].
  assert (Hgo : by_tcrew result = []
                \/ (p <- resolve_periods Timestamp filters ;;
                    let '(s1, e1, s2, e2, l1, l2) := p in
                    Returns (compare_periods (filter (in_period s1 e1) (rows df))
                                             (filter (in_period s2 e2) (rows df)) l1 l2 filters))
                   = Returns result).
  { destruct (comparison_periods filters) as [[ | [ | c e] ? ?] | ]; try (right; exact Hrun).
    injection Hrun as <-. now left. }
  clear Hrun. destruct Hgo as [Hnil | Hgo]; [ now left | ].
  destruct (resolve_periods Timestamp filters) as [[[[[[s1 e1] s2] e2] l1] l2] | exc];
    cbn [bind] in Hgo; [ | discriminate ].
  injection Hgo as <-. right. exists s1, e1, s2, e2, l1, l2. reflexivity.
Qed.

Lemma trend_filter_spec (filters : FilterSpec) (result : list Joined) (j : Joined) :
  In j (trend_filter filters result) -> In j result /\ follows_trend filters j.
Proof.
  unfold trend_filter, follows_trend.
  destruct (trend_is filters "decrease").
  - rewrite filter_In. intros [Hin H]. apply negb_true_iff, Qle_bool_false in H. auto.
  - destruct (trend_is filters "increase"); [ | auto ].
    rewrite filter_In. intros [Hin H]. apply negb_true_iff, Qle_bool_false in H. auto.
Qed.

Lemma period_target_filter_spec (filters : FilterSpec) (result : list Joined) (j : Joined) :
  In j (nps_target_filter filters result) -> In j result /\ meets_period_target filters j.
Proof.
  unfold nps_target_filter, meets_period_target.
  destruct (nps_target filters) as [target | ]; [ | auto ].
  destruct (nps_comparison filters) as [comparison | ].
  - destruct (String.eqb comparison "below"); rewrite filter_In.
    + intros [Hin H]. apply negb_true_iff, Qle_bool_false in H. auto.
    + intros [Hin H]. apply Qle_bool_iff in H. auto.
  - rewrite filter_In. intros [Hin H]. apply Qle_bool_iff in H. auto.
Qed.

(** What holds of every row of [_aggregate_by_tcrew]. *)
Lemma aggregate_row (df : list Row) (a : TcrewStat) :
  In a (_aggregate_by_tcrew df) ->
  1 <= a_total_responses a /\ (-100 <= a_NPS_value a <= 100)%Q.
Proof.
  unfold _aggregate_by_tcrew. rewrite in_map_iff. intros ([k grp] & <- & Hg).
  apply groupby_In in Hg as [_ [r Hr]]. cbn [fst snd a_total_responses a_NPS_value].
  split; [ destruct grp; [ contradiction | cbn [List.length]; lia ] | ].
  apply calculate_nps_bounds.
Qed.

Lemma compare_periods_row (df_period1 df_period2 : list Row) (l1 l2 : string)
      (filters : FilterSpec) (j : Joined) :
  In j (by_tcrew (compare_periods df_period1 df_period2 l1 l2 filters)) ->
  follows_trend filters j
  /\ meets_period_target filters j
  /\ min_resp_period (min_responses_period1 filters) filters <= j_period1_responses j
  /\ min_resp_period (min_responses_period2 filters) filters <= j_period2_responses j
  /\ exists a1 a2,
       In a1 (_aggregate_by_tcrew df_period1) /\ In a2 (_aggregate_by_tcrew df_period2)
       /\ j = join_rows a1 a2.
Proof.
  unfold compare_periods.
  destruct (_aggregate_by_tcrew df_period1) as [ | s1 t1] eqn:H1; [ contradiction | ].
  destruct (_aggregate_by_tcrew df_period2) as [ | s2 t2] eqn:H2; [ contradiction | ].
  destruct (merge_inner (s1 :: t1) (s2 :: t2)) as [ | j0 js] eqn:Hm; [ contradiction | ].
  cbn [by_tcrew]. rewrite sort_result_In. intros Hj.
  apply min_responses_filter_In in Hj as (Hj & Hfloor1 & Hfloor2).
  apply period_target_filter_spec in Hj as [Hj Htarget].
  apply trend_filter_spec in Hj as [Hj Htrend].
  rewrite <- Hm in Hj. apply merge_inner_In in Hj as (a1 & a2 & Ha1 & Ha2 & _ & ->).
  repeat (split; [ assumption | ]). exists a1, a2. auto.
Qed.

(** X18.  Every row of the table the period comparison returns meets the
    filters and is consistent in itself: the change has the sign of the
    trend asked for; the NPS of the comparison period is on the asked side of
    the target; each period has at least one response and reaches its floor;
    the change is the comparison period's NPS minus the base period's; both
    lie between -100 and 100, and the change between -200 and 200. *)
Theorem period_rows_meet_the_filters
        (df : DataFrame) (filters : FilterSpec) (result : Result) (j : Joined) :
  analyze Timestamp df filters = Returns result ->
  In j (by_tcrew result) ->
  follows_trend filters j
  /\ meets_period_target filters j
  /\ 1 <= j_period1_responses j
  /\ 1 <= j_period2_responses j
  /\ min_resp_period (min_responses_period1 filters) filters <= j_period1_responses j
  /\ min_resp_period (min_responses_period2 filters) filters <= j_period2_responses j
  /\ j_change j = (j_period2_NPS_value j - j_period1_NPS_value j)%Q
  /\ (-100 <= j_period1_NPS_value j <= 100)%Q
  /\ (-100 <= j_period2_NPS_value j <= 100)%Q
  /\ (-200 <= j_change j <= 200)%Q.
Proof.
  intros Hrun Hj.
  destruct (analyze_compares _ _ Hrun) as [Hnil | (s1 & e1 & s2 & e2 & l1 & l2 & ->)];
    [ rewrite Hnil in Hj; contradiction | ].
  apply compare_periods_row in Hj
    as (Htrend & Htarget & Hfloor1 & Hfloor2 & a1 & a2 & Ha1 & Ha2 & ->).
  apply aggregate_row in Ha1 as [Hresp1 [Hlo1 Hhi1]].
  apply aggregate_row in Ha2 as [Hresp2 [Hlo2 Hhi2]].
  cbn [join_rows j_period1_responses j_period2_responses j_change
       j_period1_NPS_value j_period2_NPS_value] in *.
  repeat (split; [ first [ assumption | reflexivity ] | ]).
  split; lra.
Qed.

Lemma sort_result_ordered (filters : FilterSpec) (result : list Joined) :
  ordered (by_change filters) (sort_result filters result).
Proof.
  unfold sort_result, by_change.
  destruct (trend_is filters "decrease"); [ | destruct (trend_is filters "increase") ].
  - eapply ordered_impl; [ | apply sort_by_ordered ].
    + intros a b H. cbv beta in H. now apply Qle_bool_iff.
    + intros a b. apply Qle_bool_total.
  - eapply ordered_impl; [ | apply sort_by_ordered ].
    + intros a b H. cbv beta in H. now apply Qle_bool_iff.
    + intros a b. apply Qle_bool_total.
  - eapply ordered_impl; [ | apply sort_by_ordered ].
    + intros a b H. cbv beta in H. now apply Qle_bool_iff.
    + intros a b. apply Qle_bool_total.
Qed.

(** X19.  The table of the period comparison comes out sorted on the change
    in NPS: the largest drop first when a decrease is asked for, the largest
    rise first for an increase, and the largest change in absolute value
    first when no trend is asked for. *)
Theorem period_table_is_sorted (df : DataFrame) (filters : FilterSpec) (result : Result) :
  analyze Timestamp df filters = Returns result ->
  ordered (by_change filters) (by_tcrew result).
Proof.
  intros Hrun.
  destruct (analyze_compares _ _ Hrun) as [Hnil | (s1 & e1 & s2 & e2 & l1 & l2 & ->)];
    [ rewrite Hnil; exact I | ].
  unfold compare_periods.
  destruct (_aggregate_by_tcrew _) as [ | a1 t1]; [ exact I | ].
  destruct (_aggregate_by_tcrew _) as [ | a2 t2]; [ exact I | ].
  destruct (merge_inner _ _) as [ | j0 js]; [ exact I | ].
  cbn [by_tcrew]. apply sort_result_ordered.
Qed.

End PeriodTable.

Lemma period_rows_witness :
  exists result j,
    PeriodComparisonAnalyzer.analyze no_timestamp declining_table decrease_filters
    = Returns result
    /\ In j (PeriodComparisonAnalyzer.by_tcrew result)
    /\ follows_trend decrease_filters j.
Proof.
  destruct (PeriodComparisonAnalyzer.analyze no_timestamp declining_table decrease_filters)
    as [[ins | table l1 l2] | exc] eqn:H; try (vm_compute in H; discriminate H).
  destruct table as [ | j table']; [ vm_compute in H; discriminate H | ].
  exists (PeriodComparisonAnalyzer.Compared (j :: table') l1 l2), j.
  split; [ reflexivity | split; [ now left | ] ].
  exact (proj1 (@period_rows_meet_the_filters no_timestamp declining_table decrease_filters
                  _ j H (or_introl eq_refl))).
Defined.

Lemma period_sorted_witness :
  exists result,
    PeriodComparisonAnalyzer.analyze no_timestamp declining_table decrease_filters
    = Returns result
    /\ List.length (PeriodComparisonAnalyzer.by_tcrew result) = 2%nat
    /\ ordered (by_change decrease_filters) (PeriodComparisonAnalyzer.by_tcrew result).
Proof.
  destruct (PeriodComparisonAnalyzer.analyze no_timestamp declining_table decrease_filters)
    as [result | exc] eqn:H; [ | vm_compute in H; discriminate H ].
  exists result. split; [ reflexivity | ].
  pose proof (@period_table_is_sorted no_timestamp declining_table decrease_filters result H)
    as Hsorted.
  split; [ | exact Hsorted ].
  vm_compute in H. injection H as <-. reflexivity.
Defined.

(** ** The period comparison: one row for an agent *)

Section DistinctKeys.

Import Frame.

Lemma NoDup_map_filter (A B : Type) (k : A -> B) (p : A -> bool) (l : list A) :
  NoDup (map k l) -> NoDup (map k (filter p l)).
Proof.
  induction l as [ | x l IH]; cbn [map filter]; [ auto | ].
  intros Hnd. inversion Hnd as [ | ? ? Hnotin Hnd']; subst.
  destruct (p x); cbn [map]; [ | auto ].
  constructor; [ | auto ].
  intros Hin. apply Hnotin. apply in_map_iff in Hin as (y & Hy & Hyin).
  apply filter_In in Hyin as [Hyin _]. rewrite <- Hy. now apply in_map.
Qed.

Lemma NoDup_map_insert_by (A B : Type) (k : A -> B) (le : A -> A -> bool) (x : A) (l : list A) :
  NoDup (map k (x :: l)) -> NoDup (map k (insert_by le x l)).
Proof.
  induction l as [ | y l IH]; cbn [insert_by]; [ auto | ].
  destruct (le x y); [ auto | ].
  cbn [map]. intros Hnd.
  inversion Hnd as [ | ? ? Hx Hnd']; subst.
  inversion Hnd' as [ | ? ? Hy Hnd'']; subst.
  constructor.
  - intros Hin. apply in_map_iff in Hin as (z & Hz & Hzin).
    apply insert_by_In in Hzin as [-> | Hzin].
    + apply Hx. rewrite Hz. now left.
    + apply Hy. rewrite <- Hz. now apply in_map.
  - apply IH. cbn [map]. constructor; [ | exact Hnd'' ].
    intros Hin. apply Hx. now right.
Qed.

Lemma NoDup_map_sort_by (A B : Type) (k : A -> B) (le : A -> A -> bool) (l : list A) :
  NoDup (map k l) -> NoDup (map k (sort_by le l)).
Proof.
  induction l as [ | x l IH]; [ auto | ].
  intros Hnd. change (sort_by le (x :: l)) with (insert_by le x (sort_by le l)).
  apply NoDup_map_insert_by. cbn [map] in *.
  inversion Hnd as [ | ? ? Hx Hnd']; subst. constructor; [ | auto ].
  intros Hin. apply Hx. apply in_map_iff in Hin as (z & Hz & Hzin).
  apply sort_by_In in Hzin. rewrite <- Hz. now apply in_map.
Qed.

Lemma NoDup_map_local (A B : Type) (f : A -> B) (l : list A) :
  (forall x y, In x l -> In y l -> f x = f y -> x = y) -> NoDup l -> NoDup (map f l).
Proof.
  induction l as [ | x l IH]; intros Hinj Hnd; cbn [map]; [ constructor | ].
  inversion Hnd as [ | ? ? Hx Hnd']; subst. constructor.
  - intros Hin. apply in_map_iff in Hin as (y & Hy & Hyin).
    apply Hx. rewrite (Hinj x y); auto; [ now left | now right ].
  - apply IH; [ | exact Hnd' ]. intros a b Ha Hb. apply Hinj; now right.
Qed.

Import PeriodComparisonAnalyzer.

(** The rows of [_aggregate_by_tcrew] have pairwise distinct merge keys. *)
Lemma aggregate_keys_distinct (df : list Row) : NoDup (map stat_key (_aggregate_by_tcrew df)).
Proof.
  unfold _aggregate_by_tcrew, groupby. rewrite !map_map. cbn [fst snd].
  apply NoDup_map_local.
  - intros k k' Hk Hk'. apply sort_by_In, dedup_by_In, in_map_iff in Hk as (r & <- & _).
    apply sort_by_In, dedup_by_In, in_map_iff in Hk' as (r' & <- & _).
    unfold stat_key. cbn [a_tcrew a_tcrew_id nth]. intros [= -> -> _ _]. reflexivity.
  - rewrite <- (map_id (sort_by key_leb _)). apply NoDup_map_sort_by.
    rewrite map_id. apply dedup_by_NoDup.
Qed.

Lemma at_most_one_match (k : Key) (right : list TcrewStat) :
  NoDup (map stat_key right) ->
  (List.length (filter (fun r => key_eqb k (stat_key r)) right) <= 1)%nat.
Proof.
  induction right as [ | r right IH]; cbn [map filter]; [ cbn; lia | ].
  intros Hnd. inversion Hnd as [ | ? ? Hnotin Hnd']; subst.
  destruct (key_eqb k (stat_key r)) eqn:Hk; [ | auto ].
  apply key_eqb_eq in Hk. subst k. cbn [List.length].
  destruct (filter (fun r0 => key_eqb (stat_key r) (stat_key r0)) right) as [ | r' rest] eqn:Hf;
    [ cbn; lia | ].
  exfalso. apply Hnotin.
  assert (Hin : In r' (filter (fun r0 => key_eqb (stat_key r) (stat_key r0)) right))
    by (rewrite Hf; now left).
  apply filter_In in Hin as [Hin Heq]. apply key_eqb_eq in Heq. rewrite Heq.
  now apply in_map.
Qed.

Lemma merge_keys_distinct (left right : list TcrewStat) :
  NoDup (map stat_key left) -> NoDup (map stat_key right) ->
  NoDup (map joined_key (merge_inner left right)).
Proof.
  intros Hleft Hright. unfold merge_inner.
  induction left as [ | l left IH]; cbn [flat_map map]; [ constructor | ].
  inversion Hleft as [ | ? ? Hnotin Hleft']; subst.
  rewrite map_app. apply NoDup_app.
  - pose proof (@at_most_one_match (stat_key l) right Hright) as Hone.
    destruct (filter (fun r => key_eqb (stat_key l) (stat_key r)) right) as [ | r [ | r' rest]];
      cbn [map]; [ constructor | repeat constructor; intros [] | cbn in Hone; lia ].
  - apply IH. exact Hleft'.
  - intros k Hk Hk'.
    apply in_map_iff in Hk as (j & Hjk & Hj). apply in_map_iff in Hj as (r & Hjr & _).
    apply in_map_iff in Hk' as (j' & Hjk' & Hjin').
    apply in_flat_map in Hjin' as (l' & Hl' & Hjin').
    apply in_map_iff in Hjin' as (r' & Hjr' & _).
    subst j j'. apply Hnotin.
    assert (Hsame : stat_key l = stat_key l') by (rewrite <- Hjk' in Hjk; exact Hjk).
    rewrite Hsame. now apply in_map.
Qed.

Variable Timestamp : string -> Outcome Date.

(** X20.  No agent has two rows in the table of the period comparison: the
    rows carry pairwise distinct keys (agent, agent id, dealer, store), since
    each period's aggregate has one row for an agent and the merge pairs
    rows of equal key. *)
Theorem period_table_has_one_row_per_agent
        (df : DataFrame) (filters : FilterSpec) (result : Result) :
  analyze Timestamp df filters = Returns result ->
  NoDup (map joined_key (by_tcrew result)).
Proof.
  intros Hrun.
  destruct (analyze_compares _ _ _ Hrun) as [Hnil | (s1 & e1 & s2 & e2 & l1 & l2 & ->)];
    [ rewrite Hnil; constructor | ].
  unfold compare_periods.
  set (left := _aggregate_by_tcrew (filter (in_period s1 e1) (rows df))).
  set (right := _aggregate_by_tcrew (filter (in_period s2 e2) (rows df))).
  pose proof (@merge_keys_distinct _ _
                (aggregate_keys_distinct (filter (in_period s1 e1) (rows df)))
                (aggregate_keys_distinct (filter (in_period s2 e2) (rows df))))
    as Hmerge.
  fold left in Hmerge. fold right in Hmerge.
  destruct left as [ | a1 t1]; [ constructor | ].
  destruct right as [ | a2 t2]; [ constructor | ].
  destruct (merge_inner (a1 :: t1) (a2 :: t2)) as [ | j0 js]; [ constructor | ].
  cbn [by_tcrew]. unfold sort_result.
  assert (Hfiltered : NoDup (map joined_key
                                 (min_responses_filter filters
                                    (nps_target_filter filters
                                       (trend_filter filters (j0 :: js)))))).
  { unfold min_responses_filter, nps_target_filter, trend_filter.
    repeat match goal with
           | |- context [if ?c then _ else _] => destruct c
           | |- context [match ?c with Some _ => _ | None => _ end] => destruct c
           end;
      repeat apply NoDup_map_filter; exact Hmerge. }
  repeat match goal with
         | |- context [if ?c then _ else _] => destruct c
         end; apply NoDup_map_sort_by; exact Hfiltered.
Qed.

End DistinctKeys.

Lemma period_one_row_witness :
  exists result,
    PeriodComparisonAnalyzer.analyze no_timestamp declining_table decrease_filters
    = Returns result
    /\ List.length (PeriodComparisonAnalyzer.by_tcrew result) = 2%nat
    /\ NoDup (map PeriodComparisonAnalyzer.joined_key
                  (PeriodComparisonAnalyzer.by_tcrew result)).
Proof.
  destruct (PeriodComparisonAnalyzer.analyze no_timestamp declining_table decrease_filters)
    as [result | exc] eqn:H; [ | vm_compute in H; discriminate H ].
  exists result. split; [ reflexivity | ].
  pose proof (@period_table_has_one_row_per_agent no_timestamp declining_table
                decrease_filters result H) as Hdistinct.
  split; [ | exact Hdistinct ].
  vm_compute in H. injection H as <-. reflexivity.
Defined.

(** ** The period comparison: when it explains instead *)

Section PeriodExplanations.

Import Frame PeriodComparisonAnalyzer.





(** ** The period comparison: the last day of a period *)

Lemma date_ltb_iff (a b : Date) :
  date_ltb a b = true
  <-> year a < year b
      \/ (year a = year b
          /\ (month a < month b \/ (month a = month b /\ day a < day b))).
Proof.
  unfold date_ltb.
  rewrite orb_true_iff, andb_true_iff, orb_true_iff, andb_true_iff,
    !Z.ltb_lt, !Z.eqb_eq.
  reflexivity.
Qed.

(** X22.  The last day of a period belongs to the period: for days that
    exist in the calendar, [처리일 < period_end + 1 day] holds exactly when
    [처리일 <= period_end], across the ends of months and of the year, so a
    period is the closed range from its first to its last day. *)
Theorem period_end_is_inclusive
        (period_start period_end d : Date) (r : Row) :
  r_date r = Some d -> valid_date d -> valid_date period_end ->
  in_period period_start period_end r
  = date_leb period_start d && date_leb d period_end.
Proof.
  intros Hdate [Hmonth Hday] [Hmonth_end Hday_end].
  unfold in_period. rewrite Hdate. f_equal.
  apply eq_true_iff_eq. unfold date_leb. rewrite negb_true_iff, date_ltb_iff.
  rewrite <- not_true_iff_false, date_ltb_iff.
  unfold add_one_day.
  set (last := Calendar.mdays (month period_end)
               + (if (month period_end =? 2) && Calendar.isleap (year period_end)
                  then 1 else 0)) in *.
  destruct (Z.ltb_spec (day period_end) last) as [Hbefore | Hlast]; cbn [year month day].
  - lia.
  - assert (Hsame : year d = year period_end -> month d = month period_end ->
                    day d <= day period_end).
    { intros Hy Hm. rewrite Hy, Hm in Hday. fold last in Hday. lia. }
    destruct (Z.ltb_spec (month period_end) 12); cbn [year month day]; lia.
Qed.

End PeriodExplanations.

Lemma period_end_is_inclusive_witness :
  PeriodComparisonAnalyzer.in_period
    (mkDate 2025 12 1) (mkDate 2025 12 31)
    (mkRow (Some (mkDate 2025 12 31)) (Some 9) "가" "가-id" "대리점" "부평점" "인천마케팅팀" "N")
  = true.
Proof.
  rewrite (@period_end_is_inclusive
             (mkDate 2025 12 1) (mkDate 2025 12 31) (mkDate 2025 12 31)
             (mkRow (Some (mkDate 2025 12 31)) (Some 9) "가" "가-id" "대리점" "부평점"
                    "인천마케팅팀" "N")
             eq_refl).
  - reflexivity.
  - cbv [valid_date month day year Calendar.mdays]. cbn. lia.
  - cbv [valid_date month day year Calendar.mdays]. cbn. lia.
Defined.

(** ** The store name *)

Section StoreName.

Import QueryParser.

Lemma hangul_at_skip (s rest : list ascii) : hangul_at s = Some rest -> rest = skipn 3 s.
Proof.
  unfold hangul_at. destruct s as [ | b1 [ | b2 [ | b3 s']]]; try discriminate.
  destruct (_ && _); [ | discriminate ]. now intros [= <-].
Qed.

Lemma hangul_span_syllables (fuel j : nat) (s : list ascii) :
  (j <= hangul_span fuel s)%nat -> syllables j s.
Proof.
  revert fuel s. induction j as [ | j IH]; intros fuel s Hj; [ exact I | ].
  destruct fuel as [ | fuel]; cbn [hangul_span] in Hj; [ lia | ].
  destruct (hangul_at s) as [rest | ] eqn:Hat; [ | lia ].
  cbn [syllables]. exists rest. split; [ exact Hat | ].
  apply (IH fuel). lia.
Qed.

Lemma store_name_at_found (k : nat) (s : list ascii) (name : string) :
  store_name_at k s = Some name ->
  exists j rest,
    (1 <= j <= k)%nat
    /\ Re.strip_prefix (list_ascii_of_string "점") (skipn (3 * j) s) = Some rest
    /\ name = string_of_list_ascii (firstn (3 * j + 3) s).
Proof.
  induction k as [ | k IH]; [ discriminate | ].
  cbn [store_name_at].
  destruct (Re.strip_prefix (list_ascii_of_string "점") (skipn (3 * S k) s)) as [rest | ] eqn:Hp.
  - intros [= <-]. exists (S k), rest. split; [ lia | auto ].
  - intros H. destruct (IH H) as (j & rest & Hj & Hrest & Hname).
    exists j, rest. split; [ lia | auto ].
Qed.

Lemma store_name_from_found (s : list ascii) (name : string) :
  store_name_from s = Some name ->
  exists before t j rest,
    s = before ++ t
    /\ (1 <= j <= hangul_span (List.length t) t)%nat
    /\ Re.strip_prefix (list_ascii_of_string "점") (skipn (3 * j) t) = Some rest
    /\ name = string_of_list_ascii (firstn (3 * j + 3) t).
Proof.
  induction s as [ | a s IH]; cbn [store_name_from].
  - destruct (store_name_at _ []) eqn:Hat; [ | discriminate ].
    intros [= <-]. destruct (store_name_at_found _ _ Hat) as (j & rest & Hj & Hrest & Hname).
    exists [], [], j, rest. auto.
  - destruct (store_name_at _ (a :: s)) eqn:Hat.
    + intros [= <-]. destruct (store_name_at_found _ _ Hat) as (j & rest & Hj & Hrest & Hname).
      exists [], (a :: s), j, rest. auto.
    + intros H. destruct (IH H) as (before & t & j & rest & -> & Hj & Hrest & Hname).
      exists (a :: before), t, j, rest. auto.
Qed.

(** X23.  A store name [parse] extracts is text of the question: one or
    more Hangul syllables followed by "점", taken from the question as it
    stands. *)
Theorem store_name_is_hangul_ending_in_jeom (question name : string) :
  _extract_store_name question = Some name ->
  exists before stem after j,
    list_ascii_of_string question
    = before ++ list_ascii_of_string name ++ after
    /\ list_ascii_of_string name = stem ++ list_ascii_of_string "점"
    /\ (1 <= j)%nat
    /\ List.length stem = (3 * j)%nat
    /\ syllables j stem.
Proof.
  unfold _extract_store_name. intros H.
  destruct (store_name_from_found _ H) as (before & t & j & rest & Hq & Hj & Hrest & ->).
  apply strip_prefix_app in Hrest.
  assert (Hsyll : syllables j t) by (eapply hangul_span_syllables; apply Hj).
  assert (Hlen : List.length (firstn (3 * j) t) = (3 * j)%nat /\ syllables j (firstn (3 * j) t)).
  { clear Hrest Hj Hq H. revert t Hsyll. induction j as [ | j IHj]; intros t Hsyll.
    - split; [ reflexivity | exact I ].
    - destruct Hsyll as (rest' & Hat & Hsyll).
      pose proof (hangul_at_skip _ Hat) as Hskip.
      destruct t as [ | b1 [ | b2 [ | b3 t']]]; try discriminate Hat.
      cbn [skipn] in Hskip. subst rest'.
      destruct (IHj t' Hsyll) as [Hl Hs].
      replace (3 * S j)%nat with (S (S (S (3 * j)))) by lia. cbn [firstn List.length].
      split; [ now rewrite Hl | ].
      cbn [syllables]. exists (firstn (3 * j) t'). split; [ | exact Hs ].
      unfold hangul_at in *. destruct (_ && _); [ reflexivity | discriminate Hat ]. }
  destruct Hlen as [Hlen Hstem].
  assert (Hname : firstn (3 * j + 3) t
                  = firstn (3 * j) t ++ list_ascii_of_string "점").
  { rewrite <- (firstn_skipn (3 * j) t) at 1. rewrite Hrest.
    rewrite firstn_app, Hlen.
    replace (3 * j + 3 - 3 * j)%nat with 3%nat by lia.
    rewrite firstn_all2 by (rewrite Hlen; lia).
    f_equal. }
  exists before, (firstn (3 * j) t), (skipn (3 * j + 3) t), j.
  rewrite list_ascii_of_string_of_list_ascii.
  split; [ rewrite Hq, firstn_skipn; reflexivity | ].
  split; [ exact Hname | ].
  split; [ lia | split; [ exact Hlen | exact Hstem ] ].
Qed.

End StoreName.

Lemma store_name_witness :
  QueryParser._extract_store_name "부평점의 NPS가 낮은 담당자" = Some "부평점"%string
  /\ exists before stem after j,
       list_ascii_of_string "부평점의 NPS가 낮은 담당자"
       = before ++ list_ascii_of_string "부평점" ++ after
       /\ list_ascii_of_string "부평점" = stem ++ list_ascii_of_string "점"
       /\ (1 <= j)%nat
       /\ List.length stem = (3 * j)%nat
       /\ syllables j stem.
Proof.
  split; [ vm_compute; reflexivity | ].
  apply (@store_name_is_hangul_ending_in_jeom "부평점의 NPS가 낮은 담당자" "부평점").
  vm_compute. reflexivity.
Defined.

(** ** The senior gap: the per-store table *)

Section SeniorGapStores.

Import Frame SeniorGapAnalyzer.

Lemma filter_filter (A : Type) (p q : A -> bool) (l : list A) :
  filter p (filter q l) = filter (fun x => q x && p x) l.
Proof.
  induction l as [ | x l IH]; [ reflexivity | ].
  cbn [filter]. destruct (q x); cbn [filter andb]; [ destruct (p x) | ]; now rewrite IH.
Qed.

Lemma store_senior_rate_filter_In (filters : FilterSpec) (rate : Q)
      (stats survivors : list StoreStat) (t : StoreStat) :
  store_senior_rate_filter filters rate stats = Returns survivors ->
  In t survivors -> In t stats.
Proof.
  unfold store_senior_rate_filter.
  repeat match goal with
         | |- context [if ?c then _ else _] => destruct c
         | |- context [float ?x] => destruct (float x); cbn [bind]
         end;
    intros H; try discriminate H; injection H as <-; rewrite ?filter_In; tauto.
Qed.

(** A row of the per-store table, traced back through the filters to the
    group it aggregates. *)
Lemma store_row_origin (df_filtered : list Row) (filters : FilterSpec)
      (avg_senior_rate avg_nps : Q) (nps_target : Z) (nps_comparison : option string)
      (result_tcrew : list TcrewStat) (table : list StoreStat) (t : StoreStat) :
  _analyze_by_store df_filtered filters avg_senior_rate avg_nps nps_target nps_comparison
                    result_tcrew = Returns table ->
  In t table ->
  (exists r group,
     In r group
     /\ In r (df_satisfied df_filtered result_tcrew)
     /\ group = filter (fun r' => key_eqb [r_team r'; r_dealer r'; r_store r']
                                          [r_team r; r_dealer r; r_store r])
                       (df_satisfied df_filtered result_tcrew)
     /\ t = store_stat [r_team r; r_dealer r; r_store r] group)
  /\ (if match nps_comparison with Some c => String.eqb c "below" | None => false end
      then (t_NPS_value t < inject_Z nps_target)%Q
      else (inject_Z nps_target <= t_NPS_value t)%Q)
  /\ match min_responses filters with Some m => m | None => 5 end <= t_total_responses t
  /\ 1 <= t_senior_responses t.
Proof.
  unfold _analyze_by_store.
  remember (df_satisfied df_filtered result_tcrew) as rows eqn:Hrows.
  destruct rows as [ | r0 rows']; [ intros [= <-] [] | ].
  remember (map (fun kg => store_stat (fst kg) (snd kg))
                (groupby (fun r => [r_team r; r_dealer r; r_store r]) (r0 :: rows')))
    as stats eqn:Hstats.
  destruct stats as [ | t0 stats']; [ intros [= <-] [] | ].
  remember (t0 :: stats') as full eqn:Hfull. cbv zeta.
  remember (if match nps_comparison with Some c => String.eqb c "below" | None => false end
            then filter (fun t => negb (Qle_bool (inject_Z nps_target) (t_NPS_value t))) full
            else filter (fun t => Qle_bool (inject_Z nps_target) (t_NPS_value t)) full)
    as by_nps eqn:Hby_nps.
  destruct (store_senior_rate_filter filters avg_senior_rate by_nps) as [by_share | ] eqn:Hshare;
    cbn [bind]; [ | discriminate ].
  remember (filter (fun t => 1 <=? t_senior_responses t)
                   (filter (fun t => match min_responses filters with
                                     | Some m => m
                                     | None => 5
                                     end <=? t_total_responses t) by_share))
    as kept eqn:Hkept.
  intros Hret Ht.
  assert (Htk : In t kept).
  { destruct kept as [ | k0 kept']; [ injection Hret as <-; contradiction | ].
    injection Hret as <-.
    change (In t (sort_by store_sort_leb (k0 :: kept'))) in Ht.
    now apply sort_by_In in Ht. }
  rewrite Hkept, !filter_In, !Z.leb_le in Htk. destruct Htk as [[Hbs Hfloor] Hsenior].
  assert (Hnps : In t by_nps) by (eapply store_senior_rate_filter_In; eassumption).
  assert (Htarget : In t full
                    /\ (if match nps_comparison with
                           | Some c => String.eqb c "below"
                           | None => false
                           end
                        then (t_NPS_value t < inject_Z nps_target)%Q
                        else (inject_Z nps_target <= t_NPS_value t)%Q)).
  { rewrite Hby_nps in Hnps.
    destruct (match nps_comparison with Some c => String.eqb c "below" | None => false end);
      apply filter_In in Hnps as [Hst H]; (split; [ exact Hst | ]).
    - now apply negb_true_iff, Qle_bool_false in H.
    - now apply Qle_bool_iff in H. }
  destruct Htarget as [Hst Htarget].
  split; [ | split; [ exact Htarget | split; [ exact Hfloor | exact Hsenior ] ] ].
  rewrite Hstats in Hst.
  apply in_map_iff in Hst as ([k grp] & <- & Hg). cbn [fst snd].
  pose proof Hg as Hkey. unfold groupby in Hkey.
  apply in_map_iff in Hkey as (k' & [= -> _] & Hk).
  apply sort_by_In, dedup_by_In, in_map_iff in Hk as (r & <- & Hr).
  apply groupby_In in Hg as [Hgrp _].
  exists r, grp. split; [ | split; [ exact Hr | split; [ exact Hgrp | reflexivity ] ] ].
  rewrite Hgrp. apply filter_In. split; [ exact Hr | apply key_eqb_refl ].
Qed.

Lemma store_stat_row (key : Key) (group : list Row) :
  group <> [] ->
  1 <= t_total_responses (store_stat key group)
  /\ 0 <= t_senior_responses (store_stat key group) <= t_total_responses (store_stat key group)
  /\ (0 <= t_senior_rate_value (store_stat key group) <= 100)%Q
  /\ (-100 <= t_NPS_value (store_stat key group) <= 100)%Q.
Proof.
  intros Hne. unfold store_stat.
  cbn [t_total_responses t_senior_responses t_senior_rate_value t_NPS_value].
  assert (Hlen : 1 <= Z.of_nat (List.length group))
    by (destruct group; [ congruence | cbn [List.length]; lia ]).
  assert (Hsenior : 0 <= Z.of_nat (List.length (filter is_senior group))
                    <= Z.of_nat (List.length group))
    by (pose proof (filter_length_le is_senior group); lia).
  split; [ exact Hlen | split; [ exact Hsenior | split ] ].
  - destruct (Z.ltb_spec 0 (Z.of_nat (List.length group))); [ | lia ].
    apply share_between; lia.
  - apply calculate_nps_bounds.
Qed.

(** X24.  The per-store table of the senior gap counts the agents of the
    per-agent table only: the responses of a store row are the rows of the
    filtered table that belong to the store and to an agent whose ID the
    per-agent table lists, and likewise its senior responses; there is at
    least one such row, and without a listed agent there is no store row. *)
Theorem store_table_counts_listed_agents
        (df_filtered : list Row) (filters : FilterSpec) (avg_senior_rate avg_nps : Q)
        (nps_target : Z) (nps_comparison : option string)
        (result_tcrew : list TcrewStat) (table : list StoreStat) :
  _analyze_by_store df_filtered filters avg_senior_rate avg_nps nps_target nps_comparison
                    result_tcrew = Returns table ->
  (result_tcrew = [] -> table = [])
  /\ forall t,
       In t table ->
       1 <= t_total_responses t
       /\ t_total_responses t
          = Z.of_nat (List.length (filter (listed_in_store result_tcrew t) df_filtered))
       /\ t_senior_responses t
          = Z.of_nat (List.length
                        (filter (fun r => listed_in_store result_tcrew t r && is_senior r)
                                df_filtered)).
Proof.
  intros Hrun. split.
  - intros ->. unfold _analyze_by_store, df_satisfied in Hrun. cbn [map existsb] in Hrun.
    assert (Hnone : filter (fun _ : Row => false) df_filtered = [])
      by (clear; induction df_filtered as [ | r l IH]; [ reflexivity | exact IH ]).
    rewrite Hnone in Hrun. now injection Hrun as <-.
  - intros t Ht.
    destruct (@store_row_origin _ _ _ _ _ _ _ _ _ Hrun Ht)
      as ((r & group & Hr & _ & Hgroup & ->) & _).
    assert (Hne : group <> []) by (intros ->; contradiction).
    destruct (@store_stat_row [r_team r; r_dealer r; r_store r] group Hne) as (Htotal & _).
    split; [ exact Htotal | ].
    unfold store_stat, listed_in_store.
    cbn [t_total_responses t_senior_responses t_team t_dealer t_store nth].
    rewrite Hgroup. unfold df_satisfied. rewrite !filter_filter. split; reflexivity.
Qed.

Lemma store_sort_leb_total (a b : StoreStat) :
  store_sort_leb a b = false -> store_sort_leb b a = true.
Proof.
  unfold store_sort_leb.
  rewrite <- (Qcompare_antisym (t_senior_rate_value a) (t_senior_rate_value b)).
  destruct (Qcompare (t_senior_rate_value a) (t_senior_rate_value b));
    cbn [CompOpp]; try congruence.
  apply Qle_bool_total.
Qed.

Lemma store_sort_leb_by_share (a b : StoreStat) :
  store_sort_leb a b = true -> stores_by_share_then_nps a b.
Proof.
  unfold store_sort_leb, stores_by_share_then_nps.
  destruct (Qcompare (t_senior_rate_value a) (t_senior_rate_value b)) eqn:Hc.
  - apply Qeq_alt in Hc. intros H. apply Qle_bool_iff in H.
    split; [ rewrite Hc; apply Qle_refl | auto ].
  - discriminate.
  - apply Qgt_alt in Hc. intros _. split; [ now apply Qlt_le_weak | ].
    intros Heq. rewrite Heq in Hc. exfalso. exact (Qlt_irrefl _ Hc).
Qed.

(** X25.  The per-store table of the senior gap is sorted like the
    per-agent one, by falling senior share and then rising NPS, and each of
    its rows meets the store-level filters: the NPS is on the side of the
    target that the direction names; the responses reach the floor
    [filters.get('min_responses', 5)]; the store has a senior response; the
    senior share lies between 0 and 100 and the NPS between -100 and 100. *)
Theorem store_rows_meet_the_filters
        (df_filtered : list Row) (filters : FilterSpec) (avg_senior_rate avg_nps : Q)
        (nps_target : Z) (nps_comparison : option string)
        (result_tcrew : list TcrewStat) (table : list StoreStat) :
  _analyze_by_store df_filtered filters avg_senior_rate avg_nps nps_target nps_comparison
                    result_tcrew = Returns table ->
  ordered stores_by_share_then_nps table
  /\ forall t,
       In t table ->
       (if match nps_comparison with Some c => String.eqb c "below" | None => false end
        then (t_NPS_value t < inject_Z nps_target)%Q
        else (inject_Z nps_target <= t_NPS_value t)%Q)
       /\ match min_responses filters with Some m => m | None => 5 end <= t_total_responses t
       /\ 1 <= t_senior_responses t <= t_total_responses t
       /\ (0 <= t_senior_rate_value t <= 100)%Q
       /\ (-100 <= t_NPS_value t <= 100)%Q.
Proof.
  intros Hrun. split.
  - unfold _analyze_by_store in Hrun.
    destruct (df_satisfied df_filtered result_tcrew); [ injection Hrun as <-; exact I | ].
    destruct (map _ _); [ injection Hrun as <-; exact I | ].
    cbv zeta in Hrun.
    destruct (store_senior_rate_filter _ _ _); cbn [bind] in Hrun; [ | discriminate ].
    destruct (filter _ (filter _ _)) as [ | k0 kept'] eqn:Hkept;
      injection Hrun as <-; [ exact I | ].
    eapply ordered_impl; [ exact store_sort_leb_by_share | ].
    exact (@sort_by_ordered _ _ store_sort_leb_total (k0 :: kept')).
  - intros t Ht.
    destruct (@store_row_origin _ _ _ _ _ _ _ _ _ Hrun Ht)
      as ((r & group & Hr & _ & _ & ->) & Htarget & Hfloor & Hsenior).
    assert (Hne : group <> []) by (intros ->; contradiction).
    destruct (@store_stat_row [r_team r; r_dealer r; r_store r] group Hne)
      as (_ & Hle & Hshare & Hnps).
    split; [ exact Htarget | split; [ exact Hfloor | split; [ lia | auto ] ] ].
Qed.

End SeniorGapStores.

Lemma store_table_counts_witness :
  exists table t,
    SeniorGapAnalyzer._analyze_by_store
      (rows senior_gap_table) senior_gap_filters (50 # 1) (25 # 1) 87 (Some "below"%string)
      (SeniorGapAnalyzer.tcrew_stats (rows senior_gap_table))
    = Returns table
    /\ In t table
    /\ 1 <= SeniorGapAnalyzer.t_total_responses t.
Proof.
  destruct (SeniorGapAnalyzer._analyze_by_store
              (rows senior_gap_table) senior_gap_filters (50 # 1) (25 # 1) 87
              (Some "below"%string) (SeniorGapAnalyzer.tcrew_stats (rows senior_gap_table)))
    as [[ | t table'] | exc] eqn:H; try (vm_compute in H; discriminate H).
  exists (t :: table'), t. split; [ reflexivity | split; [ now left | ] ].
  exact (proj1 (proj2 (@store_table_counts_listed_agents _ _ _ _ _ _ _ _ H) t
                      (or_introl eq_refl))).
Defined.

Lemma store_rows_witness :
  exists table,
    SeniorGapAnalyzer._analyze_by_store
      (rows senior_gap_table) senior_gap_filters (50 # 1) (25 # 1) 87 (Some "below"%string)
      (SeniorGapAnalyzer.tcrew_stats (rows senior_gap_table))
    = Returns table
    /\ List.length table = 1%nat
    /\ ordered stores_by_share_then_nps table.
Proof.
  destruct (SeniorGapAnalyzer._analyze_by_store
              (rows senior_gap_table) senior_gap_filters (50 # 1) (25 # 1) 87
              (Some "below"%string) (SeniorGapAnalyzer.tcrew_stats (rows senior_gap_table)))
    as [table | exc] eqn:H; [ | vm_compute in H; discriminate H ].
  exists table. split; [ reflexivity | ].
  pose proof (proj1 (@store_rows_meet_the_filters _ _ _ _ _ _ _ _ H)) as Hsorted.
  split; [ | exact Hsorted ].
  vm_compute in H. injection H as <-. reflexivity.
Defined.

(** ** The period comparison: the per-store table *)

Section InnerJoin.

Import Frame.

Variables L J : Type.
Variable key : L -> Key.
Variable join : L -> L -> J.
Variable joined : J -> Key.
Hypothesis joined_join : forall l r, joined (join l r) = key l.

Lemma inner_join_In (left right : list L) (j : J) :
  In j (inner_join key join left right) ->
  exists l r, In l left /\ In r right /\ key l = key r /\ j = join l r.
Proof.
  unfold inner_join. rewrite in_flat_map. intros (l & Hl & Hj).
  apply in_map_iff in Hj as (r & <- & Hr).
  apply filter_In in Hr as [Hr Hk]. apply key_eqb_eq in Hk.
  exists l, r. auto.
Qed.

Lemma one_match_at_most (k : Key) (right : list L) :
  NoDup (map key right) ->
  (List.length (filter (fun r => key_eqb k (key r)) right) <= 1)%nat.
Proof.
  induction right as [ | r right IH]; cbn [map filter]; [ cbn; lia | ].
  intros Hnd. inversion Hnd as [ | ? ? Hnotin Hnd']; subst.
  destruct (key_eqb k (key r)) eqn:Hk; [ | auto ].
  apply key_eqb_eq in Hk. subst k. cbn [List.length].
  destruct (filter (fun r0 => key_eqb (key r) (key r0)) right) as [ | r' rest] eqn:Hf;
    [ cbn; lia | ].
  exfalso. apply Hnotin.
  assert (Hin : In r' (filter (fun r0 => key_eqb (key r) (key r0)) right))
    by (rewrite Hf; now left).
  apply filter_In in Hin as [Hin Heq]. apply key_eqb_eq in Heq. rewrite Heq.
  now apply in_map.
Qed.

(** An inner join of two tables with distinct keys has distinct keys. *)
Lemma inner_join_keys_distinct (left right : list L) :
  NoDup (map key left) -> NoDup (map key right) ->
  NoDup (map joined (inner_join key join left right)).
Proof.
  intros Hleft Hright. unfold inner_join.
  induction left as [ | l left IH]; cbn [flat_map map]; [ constructor | ].
  inversion Hleft as [ | ? ? Hnotin Hleft']; subst.
  rewrite map_app. apply NoDup_app.
  - pose proof (@one_match_at_most (key l) right Hright) as Hone.
    destruct (filter (fun r => key_eqb (key l) (key r)) right) as [ | r [ | r' rest]];
      cbn [map]; [ constructor | repeat constructor; intros [] | cbn in Hone; lia ].
  - apply IH. exact Hleft'.
  - intros k Hk Hk'.
    apply in_map_iff in Hk as (j & Hjk & Hj). apply in_map_iff in Hj as (r & Hjr & _).
    apply in_map_iff in Hk' as (j' & Hjk' & Hjin').
    apply in_flat_map in Hjin' as (l' & Hl' & Hjin').
    apply in_map_iff in Hjin' as (r' & Hjr' & _).
    subst j j'. rewrite joined_join in Hjk, Hjk'. apply Hnotin.
    rewrite Hjk, <- Hjk'. now apply in_map.
Qed.

End InnerJoin.

Section PeriodStores.

Import Frame PeriodComparisonAnalyzer.

Lemma merge_stores_inner_join (left right : list StoreStat) :
  merge_stores left right = inner_join store_key join_stores left right.
Proof. reflexivity. Qed.

Lemma store_stats_row (df : list Row) (s : StoreStat) :
  In s (store_stats df) -> 1 <= p_responses s /\ (-100 <= p_NPS_value s <= 100)%Q.
Proof.
  unfold store_stats. rewrite in_map_iff. intros ([k grp] & <- & Hg).
  apply groupby_In in Hg as [_ [r Hr]]. cbn [fst snd p_responses p_NPS_value].
  split; [ destruct grp; [ contradiction | cbn [List.length]; lia ] | ].
  apply calculate_nps_bounds.
Qed.

Lemma store_keys_distinct (df : list Row) : NoDup (map store_key (store_stats df)).
Proof.
  unfold store_stats, groupby. rewrite !map_map. cbn [fst snd].
  apply NoDup_map_local.
  - intros k k' Hk Hk'. apply sort_by_In, dedup_by_In, in_map_iff in Hk as (r & <- & _).
    apply sort_by_In, dedup_by_In, in_map_iff in Hk' as (r' & <- & _).
    unfold store_key. cbn [p_team p_dealer p_store nth]. intros [= -> -> ->]. reflexivity.
  - rewrite <- (map_id (sort_by key_leb _)). apply NoDup_map_sort_by.
    rewrite map_id. apply dedup_by_NoDup.
Qed.

(** A row of the per-store table, traced back through the filters to the
    two aggregates it joins. *)
Lemma store_comparison_row (df_period1 df_period2 : list Row) (l1 l2 : string)
      (filters : FilterSpec) (trend : option string) (j : JoinedStore) :
  In j (_analyze_by_store df_period1 df_period2 l1 l2 filters trend) ->
  store_follows_trend trend j
  /\ store_meets_period_target filters j
  /\ min_resp_period (min_responses_period1 filters) filters <= k_period1_responses j
  /\ min_resp_period (min_responses_period2 filters) filters <= k_period2_responses j
  /\ exists s1 s2,
       In s1 (store_stats df_period1) /\ In s2 (store_stats df_period2)
       /\ store_key s1 = store_key s2 /\ j = join_stores s1 s2.
Proof.
  unfold _analyze_by_store.
  destruct (store_stats df_period1) as [ | a1 t1] eqn:H1; [ contradiction | ].
  destruct (store_stats df_period2) as [ | a2 t2] eqn:H2; [ contradiction | ].
  destruct (merge_stores (a1 :: t1) (a2 :: t2)) as [ | j0 js] eqn:Hm; [ contradiction | ].
  cbv zeta. intros Hj.
  assert (Hunsorted :
            In j (filter (fun j => (min_resp_period (min_responses_period1 filters) filters
                                    <=? k_period1_responses j)
                                   && (min_resp_period (min_responses_period2 filters) filters
                                       <=? k_period2_responses j))
                         (match nps_target filters with
                          | Some nps_target =>
                              if match nps_comparison filters with
                                 | Some c => String.eqb c "below"
                                 | None => false
                                 end
                              then filter (fun j => negb (Qle_bool (inject_Z nps_target)
                                                                   (k_period2_NPS_value j)))
                                          (if trend_arg_is trend "decrease"
                                           then filter (fun j => negb (Qle_bool 0 (k_change j)))
                                                       (j0 :: js)
                                           else if trend_arg_is trend "increase"
                                           then filter (fun j => negb (Qle_bool (k_change j) 0))
                                                       (j0 :: js)
                                           else j0 :: js)
                              else filter (fun j => Qle_bool (inject_Z nps_target)
                                                             (k_period2_NPS_value j))
                                          (if trend_arg_is trend "decrease"
                                           then filter (fun j => negb (Qle_bool 0 (k_change j)))
                                                       (j0 :: js)
                                           else if trend_arg_is trend "increase"
                                           then filter (fun j => negb (Qle_bool (k_change j) 0))
                                                       (j0 :: js)
                                           else j0 :: js)
                          | None =>
                              if trend_arg_is trend "decrease"
                              then filter (fun j => negb (Qle_bool 0 (k_change j))) (j0 :: js)
                              else if trend_arg_is trend "increase"
                              then filter (fun j => negb (Qle_bool (k_change j) 0)) (j0 :: js)
                              else j0 :: js
                          end))).
  { destruct (trend_arg_is trend "decrease"); [ | destruct (trend_arg_is trend "increase") ];
      now apply sort_by_In in Hj. }
  clear Hj. apply filter_In in Hunsorted as [Hj Hfloors].
  apply andb_true_iff in Hfloors as [Hfloor1 Hfloor2]. apply Z.leb_le in Hfloor1, Hfloor2.
  assert (Htarget : store_meets_period_target filters j
                    /\ In j (if trend_arg_is trend "decrease"
                             then filter (fun j => negb (Qle_bool 0 (k_change j))) (j0 :: js)
                             else if trend_arg_is trend "increase"
                             then filter (fun j => negb (Qle_bool (k_change j) 0)) (j0 :: js)
                             else j0 :: js)).
  { unfold store_meets_period_target.
    destruct (nps_target filters) as [target | ]; [ | auto ].
    destruct (nps_comparison filters) as [comparison | ].
    - destruct (String.eqb comparison "below"); apply filter_In in Hj as [Hj H].
      + apply negb_true_iff, Qle_bool_false in H. auto.
      + apply Qle_bool_iff in H. auto.
    - apply filter_In in Hj as [Hj H]. apply Qle_bool_iff in H. auto. }
  destruct Htarget as [Htarget Htrend]. clear Hj.
  assert (Hsign : store_follows_trend trend j /\ In j (j0 :: js)).
  { unfold store_follows_trend.
    destruct (trend_arg_is trend "decrease").
    - apply filter_In in Htrend as [Hj H]. apply negb_true_iff, Qle_bool_false in H. auto.
    - destruct (trend_arg_is trend "increase"); [ | auto ].
      apply filter_In in Htrend as [Hj H]. apply negb_true_iff, Qle_bool_false in H. auto. }
  destruct Hsign as [Hsign Hj].
  rewrite <- Hm, merge_stores_inner_join in Hj.
  apply inner_join_In in Hj as (s1 & s2 & Hs1 & Hs2 & Hkey & ->).
  repeat (split; [ assumption | ]). exists s1, s2. auto.
Qed.

(** X26.  Every row of the per-store table of the period comparison meets
    the filters and is consistent in itself, as the rows of the per-agent
    table do, on the numbers of the store: the change has the sign of the
    trend; the comparison period's NPS is on the asked side of the target;
    each period has a response and reaches its floor; the change is the
    comparison period's NPS minus the base period's, and lies between -200
    and 200. *)
Theorem period_store_rows_meet_the_filters
        (df_period1 df_period2 : list Row) (period1_label period2_label : string)
        (filters : FilterSpec) (trend : option string) (j : JoinedStore) :
  In j (_analyze_by_store df_period1 df_period2 period1_label period2_label filters trend) ->
  store_follows_trend trend j
  /\ store_meets_period_target filters j
  /\ 1 <= k_period1_responses j
  /\ 1 <= k_period2_responses j
  /\ min_resp_period (min_responses_period1 filters) filters <= k_period1_responses j
  /\ min_resp_period (min_responses_period2 filters) filters <= k_period2_responses j
  /\ k_change j = (k_period2_NPS_value j - k_period1_NPS_value j)%Q
  /\ (-100 <= k_period1_NPS_value j <= 100)%Q
  /\ (-100 <= k_period2_NPS_value j <= 100)%Q
  /\ (-200 <= k_change j <= 200)%Q.
Proof.
  intros Hj.
  apply store_comparison_row in Hj
    as (Htrend & Htarget & Hfloor1 & Hfloor2 & s1 & s2 & Hs1 & Hs2 & _ & ->).
  apply store_stats_row in Hs1 as [Hresp1 [Hlo1 Hhi1]].
  apply store_stats_row in Hs2 as [Hresp2 [Hlo2 Hhi2]].
  cbn [join_stores k_period1_responses k_period2_responses k_change
       k_period1_NPS_value k_period2_NPS_value] in *.
  repeat (split; [ first [ assumption | reflexivity ] | ]).
  split; lra.
Qed.

(** X27.  The per-store table of the period comparison has one row for a
    store (team, dealer, store), a store being in it only with rows in both
    periods, and is sorted on the change in NPS like the per-agent table:
    largest drop first for a decrease, largest rise first for an increase,
    largest absolute change first otherwise. *)
Theorem period_store_table_is_sorted_and_distinct
        (df_period1 df_period2 : list Row) (period1_label period2_label : string)
        (filters : FilterSpec) (trend : option string) :
  NoDup (map joined_store_key
             (_analyze_by_store df_period1 df_period2 period1_label period2_label
                                filters trend))
  /\ ordered (stores_by_change trend)
             (_analyze_by_store df_period1 df_period2 period1_label period2_label
                                filters trend)
  /\ forall j,
       In j (_analyze_by_store df_period1 df_period2 period1_label period2_label
                               filters trend) ->
       In (joined_store_key j) (map store_key (store_stats df_period1))
       /\ In (joined_store_key j) (map store_key (store_stats df_period2)).
Proof.
  split; [ | split ].
  - unfold _analyze_by_store.
    pose proof (@inner_join_keys_distinct _ _ store_key join_stores joined_store_key
                  (fun l r => eq_refl) _ _
                  (store_keys_distinct df_period1) (store_keys_distinct df_period2))
      as Hmerge.
    rewrite <- merge_stores_inner_join in Hmerge.
    destruct (store_stats df_period1) as [ | a1 t1]; [ constructor | ].
    destruct (store_stats df_period2) as [ | a2 t2]; [ constructor | ].
    destruct (merge_stores (a1 :: t1) (a2 :: t2)) as [ | j0 js]; [ constructor | ].
    cbv zeta.
    repeat match goal with
           | |- context [if ?c then _ else _] => destruct c
           | |- context [match ?c with Some _ => _ | None => _ end] => destruct c
           end;
      apply NoDup_map_sort_by; repeat apply NoDup_map_filter; exact Hmerge.
  - unfold _analyze_by_store, stores_by_change.
    destruct (store_stats df_period1) as [ | a1 t1]; [ exact I | ].
    destruct (store_stats df_period2) as [ | a2 t2]; [ exact I | ].
    destruct (merge_stores (a1 :: t1) (a2 :: t2)) as [ | j0 js]; [ exact I | ].
    cbv zeta.
    destruct (trend_arg_is trend "decrease"); [ | destruct (trend_arg_is trend "increase") ];
      (eapply ordered_impl;
       [ | apply sort_by_ordered; intros a b; apply Qle_bool_total ];
       intros a b H; cbv beta in H; now apply Qle_bool_iff).
  - intros j Hj.
    apply store_comparison_row in Hj as (_ & _ & _ & _ & s1 & s2 & Hs1 & Hs2 & Hkey & ->).
    change (joined_store_key (join_stores s1 s2)) with (store_key s1).
    split; [ now apply in_map | rewrite Hkey; now apply in_map ].
Qed.

End PeriodStores.

Lemma period_store_rows_witness :
  exists j,
    In j (PeriodComparisonAnalyzer._analyze_by_store
            (filter (PeriodComparisonAnalyzer.in_period (mkDate 2025 9 1) (mkDate 2025 12 31))
                    (rows declining_table))
            (filter (PeriodComparisonAnalyzer.in_period (mkDate 2026 1 1) (mkDate 2026 1 31))
                    (rows declining_table))
            "9~12월" "1월" decrease_filters (Some "decrease"%string))
    /\ store_follows_trend (Some "decrease"%string) j.
Proof.
  destruct (PeriodComparisonAnalyzer._analyze_by_store
              (filter (PeriodComparisonAnalyzer.in_period (mkDate 2025 9 1) (mkDate 2025 12 31))
                      (rows declining_table))
              (filter (PeriodComparisonAnalyzer.in_period (mkDate 2026 1 1) (mkDate 2026 1 31))
                      (rows declining_table))
              "9~12월" "1월" decrease_filters (Some "decrease"%string))
    as [ | j table'] eqn:H; [ vm_compute in H; discriminate H | ].
  exists j. split; [ now left | ].
  assert (Hin : In j (PeriodComparisonAnalyzer._analyze_by_store
                        (filter (PeriodComparisonAnalyzer.in_period
                                   (mkDate 2025 9 1) (mkDate 2025 12 31))
                                (rows declining_table))
                        (filter (PeriodComparisonAnalyzer.in_period
                                   (mkDate 2026 1 1) (mkDate 2026 1 31))
                                (rows declining_table))
                        "9~12월" "1월" decrease_filters (Some "decrease"%string)))
    by (rewrite H; now left).
  exact (proj1 (@period_store_rows_meet_the_filters _ _ _ _ _ _ j Hin)).
Defined.
